(** * A shallow embedding of [main.py], the dataset-construction pipeline

    The script reads a YAML configuration, routes on [input_type]
    (download + frame extraction for videos, an existence check for an
    image folder) and hands an image folder to the GroundedSAM labeler.

    Everything the script touches is kept in an explicit [world]: the
    filesystem, the lines the script prints, and two logs (function
    entries/exits with the calls into autodistill, and the paths handed to
    the image writer).  Python exceptions are a sum type; a raised
    exception keeps the world reached so far, as in Python.
    The external libraries (PyYAML, requests, zipfile, OpenCV, supervision,
    autodistill) are not part of the script: what they compute from data is
    taken from an [Env] record, what they do to the world is written out
    from their documented behaviour. *)

From Stdlib Require Import ZArith NArith String Ascii List Lia.
From stdpp Require Import base gmap strings list option.

Local Open Scope string_scope.
Local Set Warnings "-register-all".

(** ** Python values and exceptions *)

Module Py.

(** The values [yaml.safe_load] can return.  [YBytes] is what a
    [!!binary] scalar loads as; [YOther] stands for the remaining scalars
    (floats, dates): none of them can be subscripted, compared equal to a
    string, or used as a path. *)
Inductive yaml :=
| YNull
| YBool (b : bool)
| YInt (z : Z)
| YStr (s : string)
| YBytes (b : string)
| YList (items : list yaml)
| YMap (items : list (yaml * yaml))
| YOther (tag : string).

Inductive exn :=
| KeyError (key : string)
| TypeError
| ValueError (msg : string)
| IndexError
| OverflowError
| FileNotFoundError (msg : string)
| FileExistsError
| IsADirectoryError
| NotADirectoryError
| SystemExit (code : Z)
| FormatFieldError
| LibraryError (what : string).

Inductive result (A : Type) :=
| Ok (a : A)
| Raise (e : exn).
Arguments Ok {A} a.
Arguments Raise {A} e.

Definition result_map {A B} (f : A -> B) (r : result A) : result B :=
  match r with Ok a => Ok (f a) | Raise e => Raise e end.

(** [d[k]] on the entries of a dict, for a string key [k]. *)
Fixpoint dict_get (k : string) (items : list (yaml * yaml)) : option yaml :=
  match items with
  | [] => None
  | (YStr k', v) :: rest => if String.eqb k k' then Some v else dict_get k rest
  | _ :: rest => dict_get k rest
  end.

(** [v[k]] for a string key: only a dict answers; every other value
    raises [TypeError] (not subscriptable, or indices must be integers). *)
Definition subscript (v : yaml) (k : string) : result yaml :=
  match v with
  | YMap items =>
      match dict_get k items with
      | Some x => Ok x
      | None => Raise (KeyError k)
      end
  | _ => Raise TypeError
  end.

(** [v == s] for a string literal [s]. *)
Definition eq_str (v : yaml) (s : string) : bool :=
  match v with
  | YStr s' => String.eqb s' s
  | _ => false
  end.

End Py.
Export Py.

(** ** [os.path] on POSIX path strings *)

Module PosixPath.

Definition is_sep (c : ascii) : bool := Ascii.eqb c "/"%char.
Definition is_dot (c : ascii) : bool := Ascii.eqb c "."%char.

Definition is_empty (s : string) : bool :=
  match s with EmptyString => true | _ => false end.

(** [(p[:i], p[i:])] with [i = p.rfind('/') + 1]. *)
Fixpoint split_last_sep (p : string) : string * string :=
  match p with
  | EmptyString => (EmptyString, EmptyString)
  | String c r =>
      let (h, t) := split_last_sep r in
      if is_empty h then
        if is_sep c then (String c EmptyString, r) else (EmptyString, String c r)
      else (String c h, t)
  end.

Fixpoint all_seps (s : string) : bool :=
  match s with
  | EmptyString => true
  | String c r => is_sep c && all_seps r
  end.

(** [s.rstrip('/')] *)
Fixpoint rstrip_sep (s : string) : string :=
  match s with
  | EmptyString => EmptyString
  | String c r =>
      let r' := rstrip_sep r in
      if is_empty r' && is_sep c then EmptyString else String c r'
  end.

Definition basename (p : string) : string := snd (split_last_sep p).

Definition dirname (p : string) : string :=
  let head := fst (split_last_sep p) in
  if negb (is_empty head) && negb (all_seps head) then rstrip_sep head else head.

(** [(s[:k], s[k:])] with [k = s.rfind('.')], if [s] has a dot. *)
Fixpoint split_last_dot (s : string) : option (string * string) :=
  match s with
  | EmptyString => None
  | String c r =>
      match split_last_dot r with
      | Some (a, b) => Some (String c a, b)
      | None => if is_dot c then Some (EmptyString, String c r) else None
      end
  end.

Fixpoint all_dots (s : string) : bool :=
  match s with
  | EmptyString => true
  | String c r => is_dot c && all_dots r
  end.

(** [os.path.splitext] on a name without separators: the extension starts
    at the last dot, unless only dots come before it. *)
Definition splitext (name : string) : string * string :=
  match split_last_dot name with
  | Some (root, ext) => if all_dots root then (name, EmptyString) else (root, ext)
  | None => (name, EmptyString)
  end.

Definition starts_with_sep (s : string) : bool :=
  match s with String c _ => is_sep c | EmptyString => false end.

Fixpoint ends_with_sep (s : string) : bool :=
  match s with
  | EmptyString => false
  | String c EmptyString => is_sep c
  | String _ r => ends_with_sep r
  end.

(** [os.path.join(a, b)] *)
Definition join (a b : string) : string :=
  if starts_with_sep b then b
  else if is_empty a || ends_with_sep a then a ++ b
  else a ++ "/" ++ b.

(** A NUL character in [s]: no operating-system call takes such a path. *)
Fixpoint has_nul (s : string) : bool :=
  match s with
  | EmptyString => false
  | String c r => Ascii.eqb c "000"%char || has_nul r
  end.

(** [name.endswith(suffix)] *)
Definition ends_with (suffix name : string) : bool :=
  let n := String.length name in
  let k := String.length suffix in
  (k <=? n)%nat && String.eqb (String.substring (n - k) k name) suffix.

End PosixPath.

(** ** [str.format] with one positional integer *)

Module Format.

Definition digit_char (d : N) : ascii := ascii_of_N (48 + d).

(** The decimal digits of [n], most significant first, in front of [acc]:
    the last digit is [n mod 10], the digits before it are those of
    [n / 10].  [fuel] bounds the number of digits. *)
Fixpoint decimal_go (fuel : nat) (n : N) (acc : string) : string :=
  match fuel with
  | O => acc
  | S f =>
      let acc' := String (digit_char (n mod 10)) acc in
      if (n <? 10)%N then acc' else decimal_go f (n / 10) acc'
  end.

(** [str(n)] for [n >= 0]; a number has no more decimal than binary digits. *)
Definition decimal (n : N) : string :=
  decimal_go (S (N.to_nat (N.log2 n))) n EmptyString.

(** The number a string of decimal digits denotes. *)
Definition digit_value (c : ascii) : N := (N_of_ascii c - 48)%N.

Fixpoint parse_go (acc : N) (s : string) : N :=
  match s with
  | EmptyString => acc
  | String c r => parse_go (acc * 10 + digit_value c) r
  end.

Definition parse_decimal (s : string) : N := parse_go 0 s.

Fixpoint zeros (k : nat) : string :=
  match k with O => EmptyString | S k' => String "0"%char (zeros k') end.

(** [format(n, "05d")] for [n >= 0]: zeros on the left up to width 5, and
    no truncation beyond it. *)
Definition zfill (width : nat) (s : string) : string :=
  zeros (width - String.length s) ++ s.

Definition pad5 (n : N) : string := zfill 5 (decimal n).

Definition is_lbrace (c : ascii) : bool := Ascii.eqb c "{"%char.
Definition is_rbrace (c : ascii) : bool := Ascii.eqb c "}"%char.

(** No brace in [s]: nothing in it for [str.format] to interpret. *)
Fixpoint brace_free (s : string) : bool :=
  match s with
  | EmptyString => true
  | String c r => negb (is_lbrace c) && negb (is_rbrace c) && brace_free r
  end.

(** [pattern.format(n)], scanning left to right as Python does.
    [skip] counts characters already consumed by the construct before
    them; [autos] counts the automatically numbered fields seen so far
    (field [k] reads positional argument [k], and only argument 0 exists).
    Covered: [{{], [}}], and the fields [{}] and [{:05d}].  Any other
    replacement field is reported as [FormatFieldError]: in the patterns
    [extract_frames_from_videos] builds, such a field is followed by the
    automatically numbered [{:05d}], and Python then raises some
    [ValueError], [IndexError] or [KeyError]; the model does not say
    which. *)
Fixpoint format_go (skip autos : nat) (n : N) (pat : string) : result string :=
  match pat with
  | EmptyString => Ok EmptyString
  | String c rest =>
      match skip with
      | S k => format_go k autos n rest
      | O =>
          if is_lbrace c then
            if String.prefix "{" rest then
              result_map (String c) (format_go 1 autos n rest)
            else if String.prefix ":05d}" rest then
              match autos with
              | O => result_map (String.append (pad5 n)) (format_go 5 1 n rest)
              | S _ => Raise IndexError
              end
            else if String.prefix "}" rest then
              match autos with
              | O => result_map (String.append (decimal n)) (format_go 1 1 n rest)
              | S _ => Raise IndexError
              end
            else Raise FormatFieldError
          else if is_rbrace c then
            if String.prefix "}" rest then
              result_map (String c) (format_go 1 autos n rest)
            else Raise (ValueError "Single '}' encountered in format string")
          else result_map (String c) (format_go 0 autos n rest)
      end
  end.

Definition format (pat : string) (n : N) : result string := format_go 0 0 n pat.

End Format.

(** ** The world the script runs in *)

Inductive node :=
| Dir
| File (content : string).

(** The functions defined in [main.py]. *)
Inductive fn :=
| F_load_config
| F_download_and_extract_videos
| F_extract_frames_from_videos
| F_auto_label_images
| F_process_dataset
| F_main.

(** Entries and exits of the script's functions, and the three calls into
    autodistill, each logged by the library with the arguments it
    receives.  A function that raises leaves no [Leave] event. *)
Inductive event :=
| Enter (f : fn)
| Leave (f : fn)
| CaptionOntologyNew (mapping : yaml)
| GroundedSAMNew (mapping : yaml)
| LabelCall (input_folder output_folder : yaml).

Record world := World {
  fs : gmap string node;      (* path |-> what is there *)
  fds : gset Z;               (* open file descriptors *)
  stdout : list string;       (* lines the script prints, oldest first *)
  calls : list event;         (* oldest first *)
  imwrites : list string      (* paths handed to cv2.imwrite, oldest first *)
}.

Definition set_fs (m : gmap string node) (w : world) : world :=
  World m (fds w) (stdout w) (calls w) (imwrites w).
Definition add_stdout (line : string) (w : world) : world :=
  World (fs w) (fds w) (stdout w ++ [line]) (calls w) (imwrites w).
Definition add_call (e : event) (w : world) : world :=
  World (fs w) (fds w) (stdout w) (calls w ++ [e]) (imwrites w).
Definition add_imwrite (p : string) (w : world) : world :=
  World (fs w) (fds w) (stdout w) (calls w) (imwrites w ++ [p]).

(** A computation returns a value or raises, and leaves a world either way. *)
Definition M (A : Type) : Type := world -> result A * world.

Definition ret {A} (a : A) : M A := fun w => (Ok a, w).
Definition raise {A} (e : exn) : M A := fun w => (Raise e, w).
Definition bind {A B} (m : M A) (k : A -> M B) : M B :=
  fun w =>
    match m w with
    | (Ok a, w') => k a w'
    | (Raise e, w') => (Raise e, w')
    end.
Definition lift {A} (r : result A) : M A := fun w => (r, w).

Declare Scope py_scope.
Delimit Scope py_scope with py.
Notation "x <- m ;; k" := (bind m (fun x => k))
  (at level 100, m at next level, right associativity) : py_scope.
Notation "m ;;; k" := (bind m (fun _ => k))
  (at level 100, right associativity) : py_scope.
Local Open Scope py_scope.

Definition print (line : string) : M unit := fun w => (Ok tt, add_stdout line w).
Definition emit (e : event) : M unit := fun w => (Ok tt, add_call e w).

(** A function of the script: its body between an [Enter] and a [Leave]. *)
Definition traced {A} (f : fn) (body : M A) : M A :=
  emit (Enter f);;;
  r <- body;;
  emit (Leave f);;;
  ret r.

(** [for x in xs: body x], stopping at the first exception. *)
Fixpoint for_each {A} (xs : list A) (body : A -> M unit) : M unit :=
  match xs with
  | [] => ret tt
  | x :: rest => body x;;; for_each rest body
  end.

(** ** [os], [open] on the filesystem map

    Paths are compared as strings: a directory is stored under its path
    without trailing separators, nothing else is normalised (no [.] or
    [..], no symbolic links, relative and absolute spellings are different
    keys).  A world is meant to hold a path only together with the
    directories it runs through, and to hold no path with a NUL character.
    No permission, quota or name-length error occurs. *)

Module Os.
Import PosixPath.

Definition norm (p : string) : string :=
  if all_seps p then p else rstrip_sep p.

(** What [os.stat(p)] finds. *)
Definition stat (m : gmap string node) (p : string) : option node :=
  if is_empty p then None
  else
    match m !! norm p with
    | Some Dir => Some Dir
    | Some (File c) => if ends_with_sep p then None else Some (File c)
    | None => None
    end.

Definition is_dir (m : gmap string node) (p : string) : bool :=
  match stat m p with Some Dir => true | _ => false end.

Definition is_file (m : gmap string node) (p : string) : bool :=
  match stat m p with Some (File _) => true | _ => false end.

(** [os.fspath]: a [str] or [bytes] names a path. *)
Definition fspath (p : yaml) : option string :=
  match p with
  | YStr s => Some s
  | YBytes b => Some b
  | _ => None
  end.

(** The directories a path runs through, outermost first: [dirname]
    taken again and again, as [os.makedirs] does on its way up. *)
Fixpoint ancestors_go (fuel : nat) (p : string) : list string :=
  match fuel with
  | O => []
  | S f =>
      let d := dirname p in
      if is_empty d || String.eqb d p then []
      else (ancestors_go f d ++ [d])%list
  end.

Definition ancestors (p : string) : list string :=
  ancestors_go (String.length p) (norm p).

(** The keys [os.makedirs(p)] visits: the ancestors, then [p] itself. *)
Definition chain (p : string) : list string :=
  (ancestors p ++ [norm p])%list.

(** A regular file stands where [p] needs a directory. *)
Definition under_file (m : gmap string node) (p : string) : bool :=
  existsb (fun k => match m !! k with Some (File _) => true | _ => false end)
          (ancestors p).

(** [os.stat] on a file descriptor: a number outside the C [int] range
    raises, any other is looked up. *)
Definition fd_exists (n : Z) : M bool :=
  fun w =>
    if (n <? -2147483648)%Z || (2147483647 <? n)%Z then (Raise OverflowError, w)
    else (Ok (bool_decide (n ∈ fds w)), w).

(** [os.path.exists(p)]: a string or bytes is looked up, an int (or bool)
    is taken as a file descriptor, anything else raises. *)
Definition path_exists (p : yaml) : M bool :=
  fun w =>
    match p with
    | YStr s => (Ok (bool_decide (is_Some (stat (fs w) s))), w)
    | YBytes s => (Ok (bool_decide (is_Some (stat (fs w) s))), w)
    | YInt n => fd_exists n w
    | YBool b => (Ok (bool_decide ((if b then 1%Z else 0%Z) ∈ fds w)), w)
    | _ => (Raise TypeError, w)
    end.

(** One directory on the way: entered when it is there, created when
    nothing is there. *)
Definition enter_or_create (k : string) : M unit :=
  fun w =>
    match fs w !! k with
    | Some Dir => (Ok tt, w)
    | Some (File _) => (Raise NotADirectoryError, w)
    | None => (Ok tt, set_fs (<[k := Dir]> (fs w)) w)
    end.

(** The last directory: [os.mkdir], whose [FileExistsError] is let pass
    when a directory is there. *)
Definition create_leaf (k : string) : M unit :=
  fun w =>
    match fs w !! k with
    | Some Dir => (Ok tt, w)
    | Some (File _) => (Raise FileExistsError, w)
    | None => (Ok tt, set_fs (<[k := Dir]> (fs w)) w)
    end.

(** [os.makedirs(s, exist_ok=True)]: every missing directory on the way
    is created, outermost first. *)
Definition makedirs_str (s : string) : M unit :=
  fun w =>
    if is_empty s then (Raise (FileNotFoundError s), w)
    else if has_nul s then (Raise (ValueError "embedded null byte"), w)
    else (for_each (ancestors s) enter_or_create;;; create_leaf (norm s)) w.

Definition makedirs (p : yaml) : M unit :=
  match fspath p with
  | Some s => makedirs_str s
  | None => raise TypeError
  end.

(** The directory a new entry [p] would be created in must exist; the
    empty directory name is the current directory.  When it does not
    exist, the error tells whether a regular file is in the way. *)
Definition parent_status (m : gmap string node) (p : string) : result unit :=
  let d := dirname p in
  if is_empty d then Ok tt
  else
    match m !! norm d with
    | Some Dir => Ok tt
    | Some (File _) => Raise NotADirectoryError
    | None =>
        if under_file m d then Raise NotADirectoryError
        else Raise (FileNotFoundError p)
    end.

(** Creating or truncating the regular file [p] with [content]. *)
Definition create_file (p content : string) : M unit :=
  fun w =>
    if is_empty p then (Raise (FileNotFoundError p), w)
    else if ends_with_sep p then (Raise IsADirectoryError, w)
    else
      match fs w !! p with
      | Some Dir => (Raise IsADirectoryError, w)
      | _ =>
          match parent_status (fs w) p with
          | Ok _ => (Ok tt, set_fs (<[p := File content]> (fs w)) w)
          | Raise e => (Raise e, w)
          end
      end.

(** [with open(p, 'wb') as f: f.write(content)] *)
Definition write_file (p content : string) : M unit :=
  fun w =>
    if has_nul p then (Raise (ValueError "embedded null byte"), w)
    else create_file p content w.

(** [open(p, 'r').read()], also the read behind [zipfile.ZipFile(p, 'r')]. *)
Definition read_file (p : string) : M string :=
  fun w =>
    if is_empty p then (Raise (FileNotFoundError p), w)
    else if has_nul p then (Raise (ValueError "embedded null byte"), w)
    else
      match fs w !! norm p with
      | Some Dir => (Raise IsADirectoryError, w)
      | Some (File c) =>
          if ends_with_sep p then (Raise NotADirectoryError, w) else (Ok c, w)
      | None =>
          if under_file (fs w) p then (Raise NotADirectoryError, w)
          else (Raise (FileNotFoundError p), w)
      end.

(** [os.mkdir(p)] *)
Definition mkdir (p : string) : M unit :=
  fun w =>
    if is_empty p then (Raise (FileNotFoundError p), w)
    else if has_nul p then (Raise (ValueError "embedded null byte"), w)
    else
      match fs w !! norm p with
      | Some _ => (Raise FileExistsError, w)
      | None =>
          match parent_status (fs w) (norm p) with
          | Ok _ => (Ok tt, set_fs (<[norm p := Dir]> (fs w)) w)
          | Raise e => (Raise e, w)
          end
      end.

(** [os.path.join(d, name)] for a string literal [name]: bytes and
    strings do not mix. *)
Definition path_join (d : yaml) (name : string) : result string :=
  match d with
  | YStr s => Ok (join s name)
  | _ => Raise TypeError
  end.

End Os.

(** ** What the external libraries compute *)

(** A decoded video frame; its pixels are not looked at. *)
Definition image := string.

(** An archive entry as [zipfile] extracts it: the name already cleaned
    (relative, without empty, [.] or [..] components), the bytes it
    decompresses to, and whether they pass the CRC check at their end. *)
Record zip_member := ZipMember {
  arcname : string;
  member_is_dir : bool;
  member_data : string;
  member_crc_ok : bool
}.

Record Env := {
  (* str(v) for a value that is not a string *)
  py_repr : yaml -> string;
  (* yaml.safe_load on the text of the configuration file *)
  yaml_safe_load : string -> result yaml;
  (* requests.get(url).content *)
  requests_get : yaml -> result string;
  (* the entries zipfile.ZipFile finds in an archive *)
  zip_read : string -> result (list zip_member);
  (* the frames OpenCV decodes from a video file, if it can open it *)
  video_decode : string -> option (list image);
  (* the PNG encoding cv2.imwrite stores *)
  png_encode : image -> string;
  (* CaptionOntology(mapping) and GroundedSAM(ontology=...) may raise *)
  caption_ontology_init : yaml -> result unit;
  grounded_sam_init : yaml -> result unit;
  (* GroundedSAM(...).label(input_folder, output_folder) on the files *)
  grounded_sam_label :
    yaml -> yaml -> yaml -> gmap string node -> result unit * gmap string node;
  (* the text argparse prints for --help *)
  help_text : string
}.

(** ** [zipfile], [supervision] and OpenCV on the world *)

Module Zipfile.
Import PosixPath.

(** The parent of the target is created when it does not exist. *)
Definition ensure_upperdirs (upperdirs : string) : M unit :=
  if is_empty upperdirs then ret tt
  else
    ex <- Os.path_exists (YStr upperdirs);;
    if ex then ret tt else Os.makedirs_str upperdirs.

(** [ZipFile._extract_member]: missing parent directories are created,
    a directory entry becomes a directory, a file entry is written; a
    failed CRC check is reported when the bytes have been copied.  The
    target is used as joined (no [normpath]). *)
Definition extract_member (dir : string) (m : zip_member) : M unit :=
  let targetpath := join dir (arcname m) in
  let upperdirs := dirname targetpath in
  ensure_upperdirs upperdirs;;;
  if member_is_dir m then
    fun w => if Os.is_dir (fs w) targetpath then (Ok tt, w) else Os.mkdir targetpath w
  else
    Os.write_file targetpath (member_data m);;;
    if member_crc_ok m then ret tt else raise (LibraryError "zipfile.BadZipFile").

Definition extractall (dir : yaml) (members : list zip_member) : M unit :=
  match dir with
  | YStr d => for_each members (extract_member d)
  | _ => raise TypeError
  end.

End Zipfile.

Module Sv.
Import PosixPath.

(** The entries [Path(d).glob("*" + suffix)] yields: the keys directly
    under [d] ending in [suffix], in the map's enumeration order. *)
Definition child_with_suffix (d suffix p : string) : bool :=
  let name := basename p in
  negb (is_empty name) && String.eqb p (join (Os.norm d) name) && ends_with suffix name.

Definition glob_suffix (m : gmap string node) (d suffix : string) : list string :=
  List.filter (child_with_suffix d suffix) (List.map fst (map_to_list m)).

(** [sv.list_files_with_extensions(directory, extensions)] as in the
    releases of supervision that run one glob per extension and
    concatenate: the match is case-sensitive there and a directory named
    like a video is listed too.  (Later releases match the extension in
    any letter case and list regular files only.) *)
Definition list_files_with_extensions
    (directory : yaml) (extensions : list string) : M (list string) :=
  fun w =>
    match directory with
    | YStr d =>
        (Ok (List.concat
               (List.map (fun ext => glob_suffix (fs w) d ("." ++ ext)) extensions)), w)
    | _ => (Raise TypeError, w)
    end.

(** The reads of [sv.get_video_frames_generator]'s loop: a frame is
    yielded, then [grabs] frames are grabbed and dropped; [skip] is what
    is left to drop before the next yield. *)
Fixpoint sample {A} (grabs skip : nat) (frames : list A) : list A :=
  match frames with
  | [] => []
  | f :: rest =>
      match skip with
      | O => f :: sample grabs grabs rest
      | S k => sample grabs k rest
      end
  end.

(** The frames the generator yields and the exception that ends it, if
    any.  With an int stride the loop grabs [range(stride - 1)] frames
    after each yield (none when [stride <= 1]); a bool is an int; for
    any other value [stride - 1] or [range] raises [TypeError] right
    after the first yield. *)
Definition frames_generator (stride : yaml) (frames : list image)
    : list image * option exn :=
  match stride with
  | YInt s => (sample (Z.to_nat (s - 1)) 0 frames, None)
  | YBool _ => (sample 0 0 frames, None)
  | _ =>
      match frames with
      | [] => ([], None)
      | f :: _ => ([f], Some TypeError)
      end
  end.

(** [cv2.VideoCapture(path)] followed by the [isOpened] check. *)
Definition open_video (E : Env) (path : string) : M (list image) :=
  fun w =>
    match Os.stat (fs w) path with
    | Some (File c) =>
        match video_decode E c with
        | Some frames => (Ok frames, w)
        | None => (Raise (LibraryError "Could not open video"), w)
        end
    | _ => (Raise (LibraryError "Could not open video"), w)
    end.

(** [cv2.imwrite(path, img)]: the file is written when it can be; when it
    cannot, the call returns [False], which [ImageSink] ignores. *)
Definition imwrite (E : Env) (path : string) (img : image) : M unit :=
  fun w =>
    let w1 := add_imwrite path w in
    match Os.create_file path (png_encode E img) w1 with
    | (Ok _, w2) => (Ok tt, w2)
    | (Raise _, _) => (Ok tt, w1)
    end.

Record ImageSink := MkImageSink {
  target_dir_path : yaml;
  image_name_pattern : string;
  image_count : N
}.

(** [ImageSink.__enter__] with [overwrite=False].  Its [os.makedirs] has no
    [exist_ok], which makes no difference where nothing exists. *)
Definition sink_enter (sink : ImageSink) : M unit :=
  ex <- Os.path_exists (target_dir_path sink);;
  if ex then ret tt else Os.makedirs (target_dir_path sink).

(** [ImageSink.save_image(image)]; the updated sink is returned. *)
Definition save_image (E : Env) (sink : ImageSink) (img : image) : M ImageSink :=
  image_name <- lift (Format.format (image_name_pattern sink) (image_count sink));;
  image_path <- lift (Os.path_join (target_dir_path sink) image_name);;
  imwrite E image_path img;;;
  ret (MkImageSink (target_dir_path sink) (image_name_pattern sink)
         (image_count sink + 1)).

End Sv.

(** ** autodistill

    The two constructors and [label], as far as the script can tell them
    apart: each call is logged with the arguments it receives, may raise
    what [Env] says, and hands on an object that keeps what it was built
    from; [label] changes the files as [Env] says for the mapping of the
    model's ontology and the two folders.  What the library prints on its
    way is not kept: the world holds the script's own lines. *)

Module Autodistill.

Record ontology := Ontology { prompt_map : yaml }.
Record base_model := BaseModel { model_ontology : ontology }.

(** [CaptionOntology(mapping)] *)
Definition CaptionOntology (E : Env) (mapping : yaml) : M ontology :=
  emit (CaptionOntologyNew mapping);;;
  lift (caption_ontology_init E mapping);;;
  ret (Ontology mapping).

(** [GroundedSAM(ontology=o)] *)
Definition GroundedSAM (E : Env) (o : ontology) : M base_model :=
  emit (GroundedSAMNew (prompt_map o));;;
  lift (grounded_sam_init E (prompt_map o));;;
  ret (BaseModel o).

(** [model.label(input_folder=..., output_folder=...)] *)
Definition label (E : Env) (model : base_model) (input_folder output_folder : yaml)
    : M unit :=
  emit (LabelCall input_folder output_folder);;;
  fun w =>
    let (r, m) := grounded_sam_label E (prompt_map (model_ontology model))
                    input_folder output_folder (fs w) in
    (r, set_fs m w).

End Autodistill.

(** ** The script *)

Section Script.
Variable E : Env.

Definition py_str (v : yaml) : string :=
  match v with
  | YStr s => s
  | _ => py_repr E v
  end.

Definition subscript2 (v : yaml) (a b : string) : result yaml :=
  match subscript v a with
  | Ok x => subscript x b
  | Raise e => Raise e
  end.

Definition subscript3 (v : yaml) (a b c : string) : result yaml :=
  match subscript2 v a b with
  | Ok x => subscript x c
  | Raise e => Raise e
  end.

Definition load_config (config_path : string) : M yaml :=
  traced F_load_config
    (text <- Os.read_file config_path;;
     lift (yaml_safe_load E text)).

Definition download_and_extract_videos (video_url video_dir : yaml) : M unit :=
  traced F_download_and_extract_videos
    (video_zip_path <- lift (Os.path_join video_dir "videos.zip");;
     print ("Downloading videos from " ++ py_str video_url ++ "...");;;
     content <- lift (requests_get E video_url);;
     Os.write_file video_zip_path content;;;
     print ("Extracting videos to " ++ py_str video_dir ++ "...");;;
     archive <- Os.read_file video_zip_path;;
     members <- lift (zip_read E archive);;
     Zipfile.extractall video_dir members;;;
     print "Video download and extraction complete.").

(** [for image in generator: sink.save_image(image=image)] *)
Fixpoint save_frames (sink : Sv.ImageSink) (frames : list image) : M Sv.ImageSink :=
  match frames with
  | [] => ret sink
  | img :: rest =>
      sink' <- Sv.save_image E sink img;;
      save_frames sink' rest
  end.

Definition video_name_of (video_path : string) : string :=
  fst (PosixPath.splitext (PosixPath.basename video_path)).

(** The body of the loop over [video_paths]. *)
Definition extract_frames_from_video
    (image_dir frame_stride : yaml) (video_path : string) : M unit :=
  let video_name := video_name_of video_path in
  let image_name_pattern := video_name ++ "-{:05d}.png" in
  let sink := Sv.MkImageSink image_dir image_name_pattern 0 in
  Sv.sink_enter sink;;;
  decoded <- Sv.open_video E video_path;;
  let (frames, failure) := Sv.frames_generator frame_stride decoded in
  save_frames sink frames;;;
  match failure with
  | Some e => raise e
  | None => ret tt
  end.

(** [tqdm] only draws a progress bar on standard error, which the world
    does not record: the loop runs over [video_paths] as listed. *)
Definition extract_frames_from_videos
    (video_dir image_dir frame_stride : yaml) : M unit :=
  traced F_extract_frames_from_videos
    (video_paths <- Sv.list_files_with_extensions video_dir ["mov"; "mp4"];;
     for_each video_paths (extract_frames_from_video image_dir frame_stride)).

Definition auto_label_images (image_dir dataset_dir ontology_mapping : yaml) : M unit :=
  traced F_auto_label_images
    (ontology <- Autodistill.CaptionOntology E ontology_mapping;;
     base_model <- Autodistill.GroundedSAM E ontology;;
     print "Starting auto-labeling of images...";;;
     Autodistill.label E base_model image_dir dataset_dir).

Definition process_dataset (input_type config : yaml) : M unit :=
  traced F_process_dataset
    (dataset_dir <- lift (subscript2 config "data" "dataset_dir");;
     if eq_str input_type "video" then
       print "Dataset type is 'video'. Processing video dataset...";;;
       video_config <- lift (subscript2 config "data" "video");;
       video_url <- lift (subscript video_config "video_url");;
       video_dir <- lift (subscript video_config "video_dir");;
       frame_stride <- lift (subscript video_config "frame_stride");;
       Os.makedirs video_dir;;;
       Os.makedirs dataset_dir;;;
       download_and_extract_videos video_url video_dir;;;
       extract_frames_from_videos video_dir dataset_dir frame_stride
     else if eq_str input_type "image" then
       print "Dataset type is 'image'. Processing existing image dataset...";;;
       image_dir <- lift (subscript3 config "data" "image" "image_dir");;
       ex <- Os.path_exists image_dir;;
       if negb ex then
         raise (FileNotFoundError
                  ("Image directory " ++ py_str image_dir ++ " does not exist."))
       else Os.makedirs dataset_dir
     else raise (ValueError "Invalid input type. Must be 'video' or 'image'.")).

Definition main (config_path : string) : M unit :=
  traced F_main
    (config <- load_config config_path;;
     input_type <- lift (subscript2 config "data" "input_type");;
     process_dataset input_type config;;;
     ontology_mapping <- lift (subscript config "ontology");;
     image_dir <- lift (subscript3 config "data" "image" "image_dir");;
     dataset_dir <- lift (subscript2 config "data" "dataset_dir");;
     auto_label_images image_dir dataset_dir ontology_mapping;;;
     print "Dataset construction complete.").

(** What argparse makes of the command line, for a parser with the one
    option [--config] (plus the [-h/--help] it adds itself). *)
Inductive command_line :=
| NoConfigOption
| ConfigOption (path : string)
| HelpOption
| BadUsage.

(** [parser.parse_args().config] *)
Definition parse_args (cl : command_line) : M string :=
  match cl with
  | NoConfigOption => ret "config.yaml"
  | ConfigOption path => ret path
  | HelpOption => print (help_text E);;; raise (SystemExit 0)
  | BadUsage => raise (SystemExit 2)
  end.

(** The interpreter's exit status. *)
Definition exit_status {A} (r : result A) : Z :=
  match r with
  | Ok _ => 0
  | Raise (SystemExit code) => code
  | Raise _ => 1
  end.

(** The [if __name__ == "__main__":] block. *)
Definition script (cl : command_line) (w : world) : Z * world :=
  let (r, w') := (config <- parse_args cl;; main config) w in
  (exit_status r, w').

End Script.

(** ** Concrete scenarios

    A small environment and a few configurations and worlds on which the
    definitions above can be run. *)

Module Scenario.

Definition video_section : yaml :=
  YMap [(YStr "video_url", YStr "http://host/videos.zip");
        (YStr "video_dir", YStr "videos/");
        (YStr "frame_stride", YInt 2)].

Definition ontology : yaml := YMap [(YStr "a person", YStr "person")].

(** Video mode, no [image] section. *)
Definition video_config : yaml :=
  YMap [(YStr "data", YMap [(YStr "input_type", YStr "video");
                            (YStr "dataset_dir", YStr "out");
                            (YStr "video", video_section)]);
        (YStr "ontology", ontology)].

(** Video mode with an [image] section naming a folder of its own. *)
Definition video_config_full : yaml :=
  YMap [(YStr "data", YMap [(YStr "input_type", YStr "video");
                            (YStr "dataset_dir", YStr "out");
                            (YStr "video", video_section);
                            (YStr "image", YMap [(YStr "image_dir", YStr "imgs")])]);
        (YStr "ontology", ontology)].

Definition image_config : yaml :=
  YMap [(YStr "data", YMap [(YStr "input_type", YStr "image");
                            (YStr "dataset_dir", YStr "out");
                            (YStr "image", YMap [(YStr "image_dir", YStr "imgs")])]);
        (YStr "ontology", ontology)].

(** Image mode without [dataset_dir]. *)
Definition image_config_no_dataset : yaml :=
  YMap [(YStr "data", YMap [(YStr "input_type", YStr "image");
                            (YStr "image", YMap [(YStr "image_dir", YStr "imgs")])]);
        (YStr "ontology", ontology)].

(** Video mode with an [image:] line and nothing under it. *)
Definition video_config_empty_image : yaml :=
  YMap [(YStr "data", YMap [(YStr "input_type", YStr "video");
                            (YStr "dataset_dir", YStr "out");
                            (YStr "video", video_section);
                            (YStr "image", YNull)]);
        (YStr "ontology", ontology)].

(** Video mode with [image_dir] set to the dataset directory. *)
Definition video_config_same_dir : yaml :=
  YMap [(YStr "data", YMap [(YStr "input_type", YStr "video");
                            (YStr "dataset_dir", YStr "out");
                            (YStr "video", video_section);
                            (YStr "image", YMap [(YStr "image_dir", YStr "out")])]);
        (YStr "ontology", ontology)].

(** An unknown input type and no [dataset_dir]. *)
Definition tiff_config : yaml :=
  YMap [(YStr "data", YMap [(YStr "input_type", YStr "tiff")]);
        (YStr "ontology", ontology)].

Definition tiff_config_with_dir : yaml :=
  YMap [(YStr "data", YMap [(YStr "input_type", YStr "tiff");
                            (YStr "dataset_dir", YStr "out")]);
        (YStr "ontology", ontology)].

Definition five_frames : list image := ["f0"; "f1"; "f2"; "f3"; "f4"].

(** A video of 100001 frames (about an hour at 30 frames per second). *)
Definition long_video : list image := List.repeat "f" (N.to_nat 100001).

Definition env : Env := {|
  py_repr := fun _ => "<value>";
  yaml_safe_load := fun text =>
    if String.eqb text "VIDEO" then Ok video_config
    else if String.eqb text "VIDEO-FULL" then Ok video_config_full
    else if String.eqb text "VIDEO-EMPTY-IMAGE" then Ok video_config_empty_image
    else if String.eqb text "VIDEO-SAME-DIR" then Ok video_config_same_dir
    else if String.eqb text "IMAGE" then Ok image_config
    else if String.eqb text "TIFF" then Ok tiff_config
    else Raise (LibraryError "yaml.YAMLError");
  requests_get := fun url =>
    if eq_str url "http://host/videos.zip" then Ok "ZIP"
    else Raise (LibraryError "requests.ConnectionError");
  zip_read := fun archive =>
    if String.eqb archive "ZIP" then Ok [ZipMember "clip.mp4" false "VID" true]
    else Raise (LibraryError "zipfile.BadZipFile");
  video_decode := fun content =>
    if String.eqb content "VID" then Some five_frames
    else if String.eqb content "ONE" then Some ["f0"]
    else if String.eqb content "LONG" then Some long_video
    else None;
  png_encode := fun img => "png:" ++ img;
  caption_ontology_init := fun _ => Ok tt;
  grounded_sam_init := fun _ => Ok tt;
  grounded_sam_label := fun _ _ output m =>
    match output with
    | YStr d => (Ok tt, <[PosixPath.join d "annotations.json" := File "{}"]> m)
    | _ => (Raise TypeError, m)
    end;
  help_text := "usage: main.py [-h] [--config CONFIG]"
|}.

Definition std_fds : gset Z := {[0%Z; 1%Z; 2%Z]}.

Definition world_of (m : gmap string node) : world := World m std_fds [] [] [].

Definition empty_world : world := world_of ∅.

(** A world holding one configuration file. *)
Definition world_with_config (text : string) : world :=
  world_of {["config.yaml" := File text]}.

(** An image-mode world whose image folder is there. *)
Definition world_with_images : world :=
  world_of {["config.yaml" := File "IMAGE"; "imgs" := Dir;
             "imgs/a.png" := File "png:a"]}.

(** A world ready for extraction: both directories and one video. *)
Definition extraction_world (video_path content : string) : world :=
  world_of {["out" := Dir; "videos" := Dir; video_path := File content]}.

End Scenario.

(** ** More scenarios *)

Module Cases.

(** The environment of [Scenario] with a parser that yields [cfg] and a
    server that answers as told. *)
Definition env_with (cfg : yaml) (response : result string) : Env := {|
  py_repr := py_repr Scenario.env;
  yaml_safe_load := fun _ => Ok cfg;
  requests_get := fun _ => response;
  zip_read := zip_read Scenario.env;
  video_decode := video_decode Scenario.env;
  png_encode := png_encode Scenario.env;
  caption_ontology_init := caption_ontology_init Scenario.env;
  grounded_sam_init := grounded_sam_init Scenario.env;
  grounded_sam_label := grounded_sam_label Scenario.env;
  help_text := help_text Scenario.env
|}.

(** A [data] section without [input_type]. *)
Definition untyped_config : yaml :=
  YMap [(YStr "data", YMap [(YStr "dataset_dir", YStr "out")]);
        (YStr "ontology", Scenario.ontology)].

(** Video mode without [frame_stride]. *)
Definition video_config_no_stride : yaml :=
  YMap [(YStr "data",
         YMap [(YStr "input_type", YStr "video");
               (YStr "dataset_dir", YStr "out");
               (YStr "video", YMap [(YStr "video_url", YStr "http://host/videos.zip");
                                    (YStr "video_dir", YStr "videos")])]);
        (YStr "ontology", Scenario.ontology)].

End Cases.

(** ** Vocabulary of the properties *)

Definition invalid_input_type_msg : string :=
  "Invalid input type. Must be 'video' or 'image'.".

Definition completion_msg : string := "Dataset construction complete.".

Definition is_ok {A} (r : result A) : bool :=
  match r with Ok _ => true | Raise _ => false end.

(** A relation between the world before and the world after that a
    computation respects from every start. *)
Definition stable (R : world -> world -> Prop) {A} (m : M A) : Prop :=
  forall w, R w (snd (m w)).

(** The call log is left alone. *)
Definition same_calls (w w' : world) : Prop := calls w' = calls w.

Abbreviation quiet := (stable same_calls).

(** Nothing on disk is removed or changes its kind: a directory stays a
    directory and a file stays a file (its content may be replaced). *)
Definition kind_kept (a b : option node) : Prop :=
  match a with
  | Some Dir => b = Some Dir
  | Some (File _) => exists c, b = Some (File c)
  | None => True
  end.

Definition kept_map (m m' : gmap string node) : Prop :=
  forall k, kind_kept (m !! k) (m' !! k).

Definition kept (w w' : world) : Prop := kept_map (fs w) (fs w').

(** The log of a function whose body is quiet: its entry, and its exit
    when it returns. *)
Definition closing {A} (f : fn) (r : result A) : list event :=
  match r with
  | Ok _ => [Leave f]
  | Raise _ => []
  end.

(** Nothing or a directory is at [k]. *)
Definition free_or_dir (m : gmap string node) (k : string) : bool :=
  match m !! k with
  | Some (File _) => false
  | _ => true
  end.

(** [pat] occurs in [s]. *)
Fixpoint contains (pat s : string) : bool :=
  String.prefix pat s
  || match s with
     | EmptyString => false
     | String _ r => contains pat r
     end.

(** A path written without empty, [.] or [..] components (trailing
    separators apart), so that its directories have no other spelling. *)
Definition plain (p : string) : bool :=
  let q := Os.norm p in
  negb (contains "//" q)
  && negb (contains "/./" ("/" ++ q ++ "/"))
  && negb (contains "/../" ("/" ++ q ++ "/")).

(** A path at which [os.makedirs(..., exist_ok=True)] can act: not empty,
    without NUL, plainly written, and with no regular file at the path or
    on the way to it. *)
Definition creatable (m : gmap string node) (p : string) : bool :=
  negb (PosixPath.is_empty p) && negb (PosixPath.has_nul p) && plain p
  && forallb (free_or_dir m) (Os.chain p).

(** The keys [os.makedirs] visits for a value, if it names a path. *)
Definition chain_of (v : yaml) : list string :=
  match Os.fspath v with
  | Some s => Os.chain s
  | None => []
  end.

(** Nothing changed but for directories created at keys of [ks] that
    held nothing. *)
Definition new_dirs (ks : list string) (m m' : gmap string node) : Prop :=
  forall k, m' !! k = m !! k
            \/ (In k ks /\ m !! k = None /\ m' !! k = Some Dir).

(** The name [save_image] gives frame number [i] of a video. *)
Definition frame_file (name : string) (i : N) : string :=
  name ++ "-" ++ Format.pad5 i ++ ".png".

(** The paths of [k] consecutive frames, the first numbered [first]. *)
Definition frame_paths (dir name : string) (first : N) (k : nat) : list string :=
  List.map (fun i => PosixPath.join dir (frame_file name (first + N.of_nat i)))
           (List.seq 0 k).

(** The frames the generator hands to the sink for one video: none when
    the sink cannot be entered or the video cannot be opened. *)
Definition yielded_frames (E : Env) (image_dir stride : yaml) (video_path : string)
    (w : world) : list image :=
  let sink := Sv.MkImageSink image_dir (video_name_of video_path ++ "-{:05d}.png") 0 in
  match (Sv.sink_enter sink;;; Sv.open_video E video_path) w with
  | (Ok decoded, _) => fst (Sv.frames_generator stride decoded)
  | (Raise _, _) => []
  end.

Definition ceil_div (n s : nat) : nat := ((n + s - 1) / s)%nat.

(** The call log of a complete run of each function. *)
Definition pd_full (input_type : yaml) : list event :=
  (Enter F_process_dataset
   :: (if eq_str input_type "video"
       then [Enter F_download_and_extract_videos; Leave F_download_and_extract_videos;
             Enter F_extract_frames_from_videos; Leave F_extract_frames_from_videos]
       else [])
   ++ [Leave F_process_dataset])%list.

Definition auto_full (mapping image_dir dataset_dir : yaml) : list event :=
  [Enter F_auto_label_images; CaptionOntologyNew mapping; GroundedSAMNew mapping;
   LabelCall image_dir dataset_dir; Leave F_auto_label_images].

Definition main_full (input_type mapping image_dir dataset_dir : yaml) : list event :=
  ([Enter F_main; Enter F_load_config; Leave F_load_config]
   ++ pd_full input_type
   ++ auto_full mapping image_dir dataset_dir
   ++ [Leave F_main])%list.

(** [a] comes before every occurrence of [b]. *)
Definition before (t : list event) (a b : event) : Prop :=
  forall t1 t2, t = (t1 ++ b :: t2)%list -> In a t1.

(** Strings without a path separator, and without a dot. *)
Fixpoint sep_free (s : string) : bool :=
  match s with
  | EmptyString => true
  | String c r => negb (PosixPath.is_sep c) && sep_free r
  end.

Fixpoint dot_free (s : string) : bool :=
  match s with
  | EmptyString => true
  | String c r => negb (PosixPath.is_dot c) && dot_free r
  end.

(** [s.lower()] on ASCII letters. *)
Definition lower_ascii (c : ascii) : ascii :=
  let n := nat_of_ascii c in
  if (65 <=? n)%nat && (n <=? 90)%nat then ascii_of_nat (n + 32) else c.

Fixpoint lower (s : string) : string :=
  match s with
  | EmptyString => EmptyString
  | String c r => String (lower_ascii c) (lower r)
  end.

(** A file name with a video extension, in any letter case. *)
Definition video_named (name : string) : bool :=
  PosixPath.ends_with ".mov" (lower name) || PosixPath.ends_with ".mp4" (lower name).

(** Standard output is left alone. *)
Definition same_stdout (w w' : world) : Prop := stdout w' = stdout w.

(** Lines were printed, none of them the completion message. *)
Definition no_completion (w w' : world) : Prop :=
  exists t, stdout w' = (stdout w ++ t)%list /\ ~ In completion_msg t.

(** Paths were handed to the image writer, and every other path holds
    what it held, but for directories created at keys of [dirkeys] that
    held nothing. *)
Definition writes_only (dirkeys : list string) (w w' : world) : Prop :=
  exists t,
    imwrites w' = (imwrites w ++ t)%list
    /\ forall k, ~ In k t ->
          fs w' !! k = fs w !! k
          \/ (In k dirkeys /\ fs w !! k = None /\ fs w' !! k = Some Dir).

Example plain_ex :
  plain "runs/exp1/out/" = true /\ plain "/srv/data" = true
  /\ plain "a/../b" = false /\ plain "./out" = false /\ plain "a//b" = false.
Proof. repeat split; reflexivity. Qed.

Example ancestors_ex :
  Os.ancestors "runs/exp1/out/" = ["runs"; "runs/exp1"]
  /\ Os.ancestors "/srv/data" = ["/"; "/srv"]
  /\ Os.ancestors "out" = [].
Proof. repeat split; reflexivity. Qed.

Example path_exists_ex :
  fst (Os.path_exists (YInt 2147483648) Scenario.empty_world) = Raise OverflowError
  /\ fst (Os.path_exists (YInt 7) Scenario.empty_world) = Ok false
  /\ fst (Os.path_exists (YBytes "imgs") Scenario.world_with_images) = Ok true
  /\ fst (Os.path_exists (YOther "1.5") Scenario.empty_world) = Raise TypeError.
Proof. repeat split; vm_compute; reflexivity. Qed.

Example read_file_ex :
  fst (Os.read_file "config.yaml/x" (Scenario.world_with_config "IMAGE"))
  = Raise NotADirectoryError
  /\ fst (Os.read_file "config.yaml/" (Scenario.world_with_config "IMAGE"))
     = Raise NotADirectoryError
  /\ fst (Os.read_file "other.yaml" (Scenario.world_with_config "IMAGE"))
     = Raise (FileNotFoundError "other.yaml").
Proof. repeat split; vm_compute; reflexivity. Qed.

Example basename_ex : PosixPath.basename "videos/clip.v2.mp4" = "clip.v2.mp4".
Proof. reflexivity. Qed.
Example splitext_ex : PosixPath.splitext "clip.v2.mp4" = ("clip.v2", ".mp4").
Proof. reflexivity. Qed.
Example splitext_hidden : PosixPath.splitext ".mp4" = (".mp4", "").
Proof. reflexivity. Qed.
Example dirname_ex : PosixPath.dirname "videos//videos.zip" = "videos".
Proof. reflexivity. Qed.
Example join_ex : PosixPath.join "videos/" "videos.zip" = "videos/videos.zip".
Proof. reflexivity. Qed.
Example decimal_ex : Format.decimal 90210 = "90210".
Proof. reflexivity. Qed.
Example decimal_zero : Format.decimal 0 = "0".
Proof. reflexivity. Qed.
Example format_ex : Format.format "clip-{:05d}.png" 42 = Ok "clip-00042.png".
Proof. reflexivity. Qed.
Example format_wide : Format.format "clip-{:05d}.png" 123456 = Ok "clip-123456.png".
Proof. reflexivity. Qed.
Example format_esc : Format.format "a{{b-{:05d}.png" 0 = Ok "a{b-00000.png".
Proof. reflexivity. Qed.
Example format_two : Format.format "{}-{:05d}.png" 0 = Raise IndexError.
Proof. reflexivity. Qed.

(** * Properties *)

Local Open Scope py_scope.

Ltac unfold_m :=
  unfold traced, bind, ret, raise, lift, print, emit in *.

(** ** The router on an unknown input type (C1) *)

(** C1, counterexample: with [input_type = "tiff"] and a configuration
    without [data.dataset_dir], the router does not raise [ValueError]: the
    lookup of [dataset_dir] on its first line raises [KeyError] first. *)
Lemma process_dataset_unknown_type_keyerror :
  fst (process_dataset Scenario.env (YStr "tiff") Scenario.tiff_config
         Scenario.empty_world) = Raise (KeyError "dataset_dir")
  /\ forall msg,
       fst (process_dataset Scenario.env (YStr "tiff") Scenario.tiff_config
              Scenario.empty_world) <> Raise (ValueError msg).
Proof. split; [reflexivity | intros msg; vm_compute; discriminate]. Qed.

(** C1, amended: for an [input_type] that is neither "video" nor "image",
    the router raises, and changes neither the filesystem nor the list of
    image writes; the exception is the [ValueError] whenever
    [config['data']['dataset_dir']] can be read, and otherwise the
    exception of that lookup. *)
Theorem process_dataset_unknown_type (E : Env) (input_type config : yaml) (w : world) :
  eq_str input_type "video" = false ->
  eq_str input_type "image" = false ->
  let (r, w') := process_dataset E input_type config w in
  r = match subscript2 config "data" "dataset_dir" with
      | Ok _ => Raise (ValueError invalid_input_type_msg)
      | Raise e => Raise e
      end
  /\ fs w' = fs w /\ imwrites w' = imwrites w /\ stdout w' = stdout w.
Proof.
  intros Hv Hi. unfold process_dataset. unfold_m. simpl.
  destruct (subscript2 config "data" "dataset_dir") as [d|e]; simpl.
  - rewrite Hv, Hi. simpl. auto.
  - auto.
Qed.

Lemma process_dataset_unknown_type_witness :
  let (r, w') := process_dataset Scenario.env (YStr "tiff")
                   Scenario.tiff_config_with_dir Scenario.empty_world in
  r = Raise (ValueError invalid_input_type_msg)
  /\ fs w' = fs Scenario.empty_world
  /\ imwrites w' = imwrites Scenario.empty_world
  /\ stdout w' = stdout Scenario.empty_world.
Proof.
  exact (process_dataset_unknown_type Scenario.env (YStr "tiff")
           Scenario.tiff_config_with_dir Scenario.empty_world eq_refl eq_refl).
Defined.

(** ** The router on a missing image directory (C2) *)

(** C2, counterexample: in image mode, with an image directory that does
    not exist and a configuration without [data.dataset_dir], the router
    raises [KeyError], not [FileNotFoundError]: [dataset_dir] is looked up
    on its first line. *)
Lemma process_dataset_image_no_dataset_dir :
  subscript3 Scenario.image_config_no_dataset "data" "image" "image_dir"
  = Ok (YStr "imgs")
  /\ fst (Os.path_exists (YStr "imgs") Scenario.empty_world) = Ok false
  /\ fst (process_dataset Scenario.env (YStr "image") Scenario.image_config_no_dataset
            Scenario.empty_world) = Raise (KeyError "dataset_dir").
Proof. repeat split; vm_compute; reflexivity. Qed.

(** C2, amended: in image mode, for a configuration that names an image
    directory for which [os.path.exists] answers no, the router raises and
    leaves the filesystem as it was; the exception is [FileNotFoundError]
    whenever [config['data']['dataset_dir']] can be read, and otherwise the
    exception of that lookup.  And whenever the call changes the
    filesystem, the existence check had answered yes. *)
Theorem process_dataset_image_dir_missing
    (E : Env) (config image_dir : yaml) (w : world) :
  subscript3 config "data" "image" "image_dir" = Ok image_dir ->
  let (r, w') := process_dataset E (YStr "image") config w in
  (fst (Os.path_exists image_dir w) = Ok false ->
     match subscript2 config "data" "dataset_dir" with
     | Ok _ => exists msg, r = Raise (FileNotFoundError msg)
     | Raise e => r = Raise e
     end
     /\ fs w' = fs w)
  /\ (fs w' <> fs w -> fst (Os.path_exists image_dir w) = Ok true).
Proof.
  intros Hi. unfold process_dataset. unfold_m. simpl.
  destruct (subscript2 config "data" "dataset_dir") as [dataset_dir|e0]; simpl;
    [|split; [auto | intros Hne; exfalso; apply Hne; reflexivity]].
  rewrite Hi. simpl.
  assert (Hex : forall w1, fs w1 = fs w -> fds w1 = fds w ->
            Os.path_exists image_dir w1
            = (fst (Os.path_exists image_dir w), w1)).
  { intros w1 Hfs Hfd. unfold Os.path_exists, Os.fd_exists.
    destruct image_dir; simpl; rewrite ?Hfs, ?Hfd; try reflexivity.
    destruct (_ || _); reflexivity. }
  rewrite Hex by reflexivity.
  destruct (fst (Os.path_exists image_dir w)) as [[|]|e]; simpl.
  - destruct (Os.makedirs dataset_dir _) as [[u|e] w1]; split;
      solve [discriminate | reflexivity].
  - split; [intros _; split; [eexists; reflexivity | reflexivity]
           | intros Hne; exfalso; apply Hne; reflexivity].
  - split; [discriminate | intros Hne; exfalso; apply Hne; reflexivity].
Qed.

Lemma process_dataset_image_dir_missing_witness :
  let (r, w') := process_dataset Scenario.env (YStr "image") Scenario.image_config
                   (Scenario.world_with_config "IMAGE") in
  (exists msg, r = Raise (FileNotFoundError msg))
  /\ fs w' = fs (Scenario.world_with_config "IMAGE").
Proof.
  pose proof (process_dataset_image_dir_missing Scenario.env Scenario.image_config
                (YStr "imgs") (Scenario.world_with_config "IMAGE") eq_refl) as H.
  destruct (process_dataset Scenario.env (YStr "image") Scenario.image_config
              (Scenario.world_with_config "IMAGE")) as [r w'].
  destruct H as [H _]. apply H. reflexivity.
Defined.

(** ** Invariants of computations

    A relation between the world before and the world after that every
    step of a computation respects is respected by the whole. *)

Section Stable.
Variable R : world -> world -> Prop.
Hypothesis R_refl : forall w, R w w.
Hypothesis R_trans : forall a b c, R a b -> R b c -> R a c.

Lemma stable_ret {A} (a : A) : stable R (ret a).
Proof. intros w. apply R_refl. Qed.

Lemma stable_raise {A} (e : exn) : stable R (@raise A e).
Proof. intros w. apply R_refl. Qed.

Lemma stable_lift {A} (r : result A) : stable R (lift r).
Proof. intros w. apply R_refl. Qed.

Lemma stable_bind {A B} (m : M A) (k : A -> M B) :
  stable R m -> (forall a, stable R (k a)) -> stable R (bind m k).
Proof.
  intros Hm Hk w. unfold bind. specialize (Hm w).
  destruct (m w) as [[a|e] w1]; simpl in *.
  - eapply R_trans; [exact Hm | apply Hk].
  - exact Hm.
Qed.

Lemma stable_for_each {A} (xs : list A) (body : A -> M unit) :
  (forall x, stable R (body x)) -> stable R (for_each xs body).
Proof.
  intros Hb. induction xs as [|x xs IH]; simpl.
  - apply stable_ret.
  - apply stable_bind; [apply Hb | intros _; exact IH].
Qed.

Lemma stable_if {A} (b : bool) (m1 m2 : M A) :
  stable R m1 -> stable R m2 -> stable R (if b then m1 else m2).
Proof. destruct b; auto. Qed.

Lemma stable_makedirs_str s :
  (forall k, stable R (Os.enter_or_create k)) ->
  (forall k, stable R (Os.create_leaf k)) ->
  stable R (Os.makedirs_str s).
Proof.
  intros He Hl w. unfold Os.makedirs_str.
  destruct (PosixPath.is_empty s); [apply R_refl|].
  destruct (PosixPath.has_nul s); [apply R_refl|].
  apply (stable_bind _ _ (stable_for_each _ _ He) (fun _ => Hl _)).
Qed.

Lemma stable_makedirs p :
  (forall s, stable R (Os.makedirs_str s)) -> stable R (Os.makedirs p).
Proof.
  intros H. unfold Os.makedirs.
  destruct (Os.fspath p); [apply H | apply stable_raise].
Qed.

Lemma stable_write_file p c :
  stable R (Os.create_file p c) -> stable R (Os.write_file p c).
Proof.
  intros H w. unfold Os.write_file.
  destruct (PosixPath.has_nul p); [apply R_refl | apply H].
Qed.

End Stable.

(** *** Steps that leave the call log alone *)

Lemma same_calls_refl w : same_calls w w.
Proof. reflexivity. Qed.

Lemma same_calls_trans a b c : same_calls a b -> same_calls b c -> same_calls a c.
Proof. unfold same_calls. congruence. Qed.

Ltac quiet_bind :=
  repeat match goal with
    | |- stable _ (bind _ _) =>
        apply (stable_bind same_calls same_calls_trans); [|intros ?]
    | |- stable _ (ret _) => apply (stable_ret same_calls same_calls_refl)
    | |- stable _ (raise _) => apply (stable_raise same_calls same_calls_refl)
    | |- stable _ (lift _) => apply (stable_lift same_calls same_calls_refl)
    | |- stable _ (if _ then _ else _) => apply (stable_if same_calls)
    | |- stable _ (for_each _ _) =>
        apply (stable_for_each same_calls same_calls_refl same_calls_trans);
        intros ?
    end.

Ltac prim_cases :=
  intros w; unfold same_calls; simpl;
  repeat (case_match; simpl; try reflexivity).

Create HintDb quiet.

Lemma quiet_print line : quiet (print line).
Proof. intros w. reflexivity. Qed.

Lemma quiet_path_exists p : quiet (Os.path_exists p).
Proof. unfold Os.path_exists, Os.fd_exists. prim_cases. Qed.

Lemma quiet_enter_or_create k : quiet (Os.enter_or_create k).
Proof. unfold Os.enter_or_create. prim_cases. Qed.

Lemma quiet_create_leaf k : quiet (Os.create_leaf k).
Proof. unfold Os.create_leaf. prim_cases. Qed.

Lemma quiet_makedirs_str s : quiet (Os.makedirs_str s).
Proof.
  apply (stable_makedirs_str same_calls same_calls_refl same_calls_trans);
    [apply quiet_enter_or_create | apply quiet_create_leaf].
Qed.

Lemma quiet_makedirs p : quiet (Os.makedirs p).
Proof. apply (stable_makedirs same_calls same_calls_refl), quiet_makedirs_str. Qed.

Lemma quiet_create_file p c : quiet (Os.create_file p c).
Proof. unfold Os.create_file. prim_cases. Qed.

Lemma quiet_write_file p c : quiet (Os.write_file p c).
Proof. apply (stable_write_file same_calls same_calls_refl), quiet_create_file. Qed.

Lemma quiet_read_file p : quiet (Os.read_file p).
Proof. unfold Os.read_file. prim_cases. Qed.

Lemma quiet_mkdir p : quiet (Os.mkdir p).
Proof. unfold Os.mkdir. prim_cases. Qed.

#[local] Hint Resolve quiet_print quiet_path_exists quiet_makedirs_str
  quiet_makedirs quiet_write_file quiet_read_file quiet_mkdir : quiet.

Lemma quiet_extract_member d m : quiet (Zipfile.extract_member d m).
Proof.
  unfold Zipfile.extract_member, Zipfile.ensure_upperdirs.
  quiet_bind; auto with quiet.
  intros w. unfold same_calls. cbv beta. case_match; [reflexivity | apply quiet_mkdir].
Qed.
#[local] Hint Resolve quiet_extract_member : quiet.

Lemma quiet_extractall d ms : quiet (Zipfile.extractall d ms).
Proof. destruct d; simpl; quiet_bind; auto with quiet. Qed.

Lemma quiet_list_files d exts : quiet (Sv.list_files_with_extensions d exts).
Proof. unfold Sv.list_files_with_extensions. prim_cases. Qed.

Lemma quiet_open_video E p : quiet (Sv.open_video E p).
Proof. unfold Sv.open_video. prim_cases. Qed.

Lemma quiet_imwrite E p img : quiet (Sv.imwrite E p img).
Proof.
  intros w. unfold Sv.imwrite.
  pose proof (quiet_create_file p (png_encode E img) (add_imwrite p w)) as H.
  destruct (Os.create_file _ _ _) as [[u|e] w2]; simpl in *; [exact H | reflexivity].
Qed.
#[local] Hint Resolve quiet_extractall quiet_list_files quiet_open_video
  quiet_imwrite : quiet.

Lemma quiet_sink_enter sink : quiet (Sv.sink_enter sink).
Proof. unfold Sv.sink_enter. quiet_bind; auto with quiet. Qed.

Lemma quiet_save_image E sink img : quiet (Sv.save_image E sink img).
Proof. unfold Sv.save_image. quiet_bind; auto with quiet. Qed.
#[local] Hint Resolve quiet_sink_enter quiet_save_image : quiet.

Lemma quiet_save_frames E frames : forall sink, quiet (save_frames E sink frames).
Proof.
  induction frames as [|img rest IH]; intros sink; simpl; quiet_bind;
    auto with quiet.
Qed.
#[local] Hint Resolve quiet_save_frames : quiet.

Lemma quiet_extract_frames_from_video E d s p :
  quiet (extract_frames_from_video E d s p).
Proof.
  unfold extract_frames_from_video. quiet_bind; auto with quiet.
  destruct (Sv.frames_generator _ _) as [frames failure].
  quiet_bind; auto with quiet. destruct failure; quiet_bind.
Qed.
#[local] Hint Resolve quiet_extract_frames_from_video : quiet.

Lemma traced_quiet_calls {A} (f : fn) (body : M A) (w : world) :
  quiet body ->
  calls (snd (traced f body w))
  = (calls w ++ Enter f :: closing f (fst (traced f body w)))%list.
Proof.
  intros Hq. unfold traced, bind, emit, ret.
  specialize (Hq (add_call (Enter f) w)). unfold same_calls in Hq.
  destruct (body _) as [[a|e] w1]; simpl in *; rewrite Hq.
  - rewrite <- app_assoc. reflexivity.
  - reflexivity.
Qed.

(** *** Steps that keep what is on disk *)

Lemma kept_map_refl m : kept_map m m.
Proof. intros k. unfold kind_kept. destruct (m !! k) as [[|c]|]; eauto. Qed.

Lemma kept_map_trans m1 m2 m3 : kept_map m1 m2 -> kept_map m2 m3 -> kept_map m1 m3.
Proof.
  intros H12 H23 k. specialize (H12 k). specialize (H23 k).
  unfold kind_kept in *.
  destruct (m1 !! k) as [[|c]|]; [| |exact I].
  - rewrite H12 in H23. exact H23.
  - destruct H12 as [c' Hc']. rewrite Hc' in H23. exact H23.
Qed.

Lemma kept_map_insert_fresh m k n : m !! k = None -> kept_map m (<[k := n]> m).
Proof.
  intros Hk j. destruct (decide (k = j)) as [->|Hne].
  - rewrite Hk. exact I.
  - rewrite lookup_insert_ne by exact Hne. apply kept_map_refl.
Qed.

Lemma kept_map_insert_file m k c : m !! k <> Some Dir -> kept_map m (<[k := File c]> m).
Proof.
  intros Hk j. destruct (decide (k = j)) as [->|Hne].
  - rewrite lookup_insert_eq. unfold kind_kept.
    destruct (m !! j) as [[|c']|]; [congruence | eauto | exact I].
  - rewrite lookup_insert_ne by exact Hne. apply kept_map_refl.
Qed.

Lemma kept_refl w : kept w w.
Proof. apply kept_map_refl. Qed.

Lemma kept_trans a b c : kept a b -> kept b c -> kept a c.
Proof. apply kept_map_trans. Qed.

Ltac kept_bind :=
  repeat match goal with
    | |- stable _ (traced _ _) => unfold traced
    | |- stable _ (bind _ _) => apply (stable_bind kept kept_trans); [|intros ?]
    | |- stable _ (ret _) => apply (stable_ret kept kept_refl)
    | |- stable _ (raise _) => apply (stable_raise kept kept_refl)
    | |- stable _ (lift _) => apply (stable_lift kept kept_refl)
    | |- stable _ (if _ then _ else _) => apply (stable_if kept)
    | |- stable _ (for_each _ _) =>
        apply (stable_for_each kept kept_refl kept_trans); intros ?
    end.

Create HintDb kept.

Lemma kept_print line : stable kept (print line).
Proof. intros w. unfold kept. simpl. apply kept_map_refl. Qed.

Lemma kept_emit e : stable kept (emit e).
Proof. intros w. unfold kept. simpl. apply kept_map_refl. Qed.

Lemma kept_path_exists p : stable kept (Os.path_exists p).
Proof.
  intros w. unfold Os.path_exists, Os.fd_exists.
  destruct p; try apply kept_refl. destruct (_ || _); apply kept_refl.
Qed.

Lemma kept_enter_or_create k : stable kept (Os.enter_or_create k).
Proof.
  intros w. unfold Os.enter_or_create.
  destruct (fs w !! k) as [[|c]|] eqn:Hk; try apply kept_refl.
  apply kept_map_insert_fresh. exact Hk.
Qed.

Lemma kept_create_leaf k : stable kept (Os.create_leaf k).
Proof.
  intros w. unfold Os.create_leaf.
  destruct (fs w !! k) as [[|c]|] eqn:Hk; try apply kept_refl.
  apply kept_map_insert_fresh. exact Hk.
Qed.

Lemma kept_makedirs_str s : stable kept (Os.makedirs_str s).
Proof.
  apply (stable_makedirs_str kept kept_refl kept_trans);
    [apply kept_enter_or_create | apply kept_create_leaf].
Qed.

Lemma kept_makedirs p : stable kept (Os.makedirs p).
Proof. apply (stable_makedirs kept kept_refl), kept_makedirs_str. Qed.

Lemma kept_create_file p c : stable kept (Os.create_file p c).
Proof.
  intros w. unfold Os.create_file.
  destruct (PosixPath.is_empty p); [apply kept_refl|].
  destruct (PosixPath.ends_with_sep p); [apply kept_refl|].
  destruct (fs w !! p) as [[|c']|] eqn:Hk; try apply kept_refl;
    destruct (Os.parent_status (fs w) p); try apply kept_refl;
    apply kept_map_insert_file; rewrite Hk; discriminate.
Qed.

Lemma kept_write_file p c : stable kept (Os.write_file p c).
Proof. apply (stable_write_file kept kept_refl), kept_create_file. Qed.

Lemma kept_read_file p : stable kept (Os.read_file p).
Proof.
  intros w. unfold Os.read_file. repeat case_match; apply kept_refl.
Qed.

Lemma kept_mkdir p : stable kept (Os.mkdir p).
Proof.
  intros w. unfold Os.mkdir.
  destruct (PosixPath.is_empty p); [apply kept_refl|].
  destruct (PosixPath.has_nul p); [apply kept_refl|].
  destruct (fs w !! Os.norm p) eqn:Hk; [apply kept_refl|].
  destruct (Os.parent_status (fs w) (Os.norm p)); [|apply kept_refl].
  apply kept_map_insert_fresh. exact Hk.
Qed.

#[local] Hint Resolve kept_print kept_emit kept_path_exists kept_makedirs_str
  kept_makedirs kept_write_file kept_read_file kept_mkdir : kept.

Lemma kept_extract_member d m : stable kept (Zipfile.extract_member d m).
Proof.
  unfold Zipfile.extract_member, Zipfile.ensure_upperdirs.
  kept_bind; auto with kept.
  intros w. cbv beta.
  destruct (Os.is_dir (fs w) (PosixPath.join d (arcname m)));
    [apply kept_refl | apply kept_mkdir].
Qed.
#[local] Hint Resolve kept_extract_member : kept.

Lemma kept_extractall d ms : stable kept (Zipfile.extractall d ms).
Proof. destruct d; simpl; kept_bind; auto with kept. Qed.

Lemma kept_list_files d exts : stable kept (Sv.list_files_with_extensions d exts).
Proof.
  intros w. unfold Sv.list_files_with_extensions. destruct d; apply kept_refl.
Qed.

Lemma kept_open_video E p : stable kept (Sv.open_video E p).
Proof.
  intros w. unfold Sv.open_video.
  destruct (Os.stat (fs w) p) as [[|c]|]; try apply kept_refl.
  destruct (video_decode E c); apply kept_refl.
Qed.

Lemma kept_imwrite E p img : stable kept (Sv.imwrite E p img).
Proof.
  intros w. unfold Sv.imwrite.
  pose proof (kept_create_file p (png_encode E img) (add_imwrite p w)) as H.
  unfold kept in *.
  destruct (Os.create_file _ _ _) as [[u|e] w2]; simpl in *;
    [exact H | apply kept_map_refl].
Qed.
#[local] Hint Resolve kept_extractall kept_list_files kept_open_video
  kept_imwrite : kept.

Lemma kept_sink_enter sink : stable kept (Sv.sink_enter sink).
Proof. unfold Sv.sink_enter. kept_bind; auto with kept. Qed.

Lemma kept_save_image E sink img : stable kept (Sv.save_image E sink img).
Proof. unfold Sv.save_image. kept_bind; auto with kept. Qed.
#[local] Hint Resolve kept_sink_enter kept_save_image : kept.

Lemma kept_save_frames E frames : forall sink, stable kept (save_frames E sink frames).
Proof.
  induction frames as [|img rest IH]; intros sink; simpl; kept_bind;
    auto with kept.
Qed.
#[local] Hint Resolve kept_save_frames : kept.

Lemma kept_extract_frames_from_video E d s p :
  stable kept (extract_frames_from_video E d s p).
Proof.
  unfold extract_frames_from_video. kept_bind; auto with kept.
  destruct (Sv.frames_generator _ _) as [frames failure].
  kept_bind; auto with kept. destruct failure; kept_bind.
Qed.
#[local] Hint Resolve kept_extract_frames_from_video : kept.

Lemma kept_extract_frames_from_videos E vd d s :
  stable kept (extract_frames_from_videos E vd d s).
Proof. unfold extract_frames_from_videos. kept_bind; auto with kept. Qed.

Lemma kept_download_and_extract_videos E url d :
  stable kept (download_and_extract_videos E url d).
Proof. unfold download_and_extract_videos. kept_bind; auto with kept. Qed.
#[local] Hint Resolve kept_extract_frames_from_videos
  kept_download_and_extract_videos : kept.

Lemma kept_is_dir w w' p : kept w w' -> Os.is_dir (fs w) p = true -> Os.is_dir (fs w') p = true.
Proof.
  intros Hk. unfold Os.is_dir, Os.stat.
  destruct (PosixPath.is_empty p); [discriminate|].
  specialize (Hk (Os.norm p)). unfold kind_kept in Hk.
  destruct (fs w !! Os.norm p) as [[|c]|].
  - rewrite Hk. auto.
  - destruct (PosixPath.ends_with_sep p); discriminate.
  - discriminate.
Qed.

Lemma kept_file_key w w' k c :
  kept w w' -> fs w !! k = Some (File c) -> exists c', fs w' !! k = Some (File c').
Proof. intros Hk Hc. specialize (Hk k). rewrite Hc in Hk. exact Hk. Qed.

(** ** Directory creation in the video branch (C3) *)

Lemma new_dirs_refl ks m : new_dirs ks m m.
Proof. intros k. left. reflexivity. Qed.

Lemma new_dirs_trans ks m1 m2 m3 :
  new_dirs ks m1 m2 -> new_dirs ks m2 m3 -> new_dirs ks m1 m3.
Proof.
  intros H12 H23 k.
  destruct (H23 k) as [E23|(Hin & Hn & Hd)];
    destruct (H12 k) as [E12|(Hin' & Hn' & Hd')].
  - left. congruence.
  - right. rewrite E23. auto.
  - right. rewrite <- E12. auto.
  - congruence.
Qed.

Lemma new_dirs_incl ks ks' m m' :
  incl ks ks' -> new_dirs ks m m' -> new_dirs ks' m m'.
Proof.
  intros Hi H k. destruct (H k) as [Ek|(Hin & Hn & Hd)]; [left; exact Ek|].
  right. auto.
Qed.

Lemma new_dirs_insert ks m k :
  In k ks -> m !! k = None -> new_dirs ks m (<[k := Dir]> m).
Proof.
  intros Hin Hk j. destruct (decide (k = j)) as [<-|Hne].
  - right. rewrite lookup_insert_eq. auto.
  - left. apply lookup_insert_ne. exact Hne.
Qed.

Lemma new_dirs_kept ks m m' : new_dirs ks m m' -> kept_map m m'.
Proof.
  intros H k. unfold kind_kept.
  destruct (H k) as [->|(_ & -> & _)]; [|exact I].
  destruct (m !! k) as [[|c]|]; eauto.
Qed.

Lemma new_dirs_other ks m m' k : new_dirs ks m m' -> ~ In k ks -> m' !! k = m !! k.
Proof. intros H Hk. destruct (H k) as [Ek|(Hin & _)]; [exact Ek | contradiction]. Qed.

Lemma new_dirs_free_or_dir ks m m' k :
  new_dirs ks m m' -> free_or_dir m k = true -> free_or_dir m' k = true.
Proof.
  intros H. unfold free_or_dir.
  destruct (H k) as [->|(_ & _ & ->)]; auto.
Qed.

Lemma enter_or_create_new_dirs ks k w :
  In k ks -> new_dirs ks (fs w) (fs (snd (Os.enter_or_create k w))).
Proof.
  intros Hin. unfold Os.enter_or_create.
  destruct (fs w !! k) as [[|c]|] eqn:Hk; simpl; try apply new_dirs_refl.
  apply new_dirs_insert; assumption.
Qed.

Lemma create_leaf_new_dirs ks k w :
  In k ks -> new_dirs ks (fs w) (fs (snd (Os.create_leaf k w))).
Proof.
  intros Hin. unfold Os.create_leaf.
  destruct (fs w !! k) as [[|c]|] eqn:Hk; simpl; try apply new_dirs_refl.
  apply new_dirs_insert; assumption.
Qed.

Lemma enter_chain_new_dirs ks l :
  incl l ks ->
  forall w, new_dirs ks (fs w) (fs (snd (for_each l Os.enter_or_create w))).
Proof.
  induction l as [|k l IH]; intros Hincl w; simpl; [apply new_dirs_refl|].
  unfold bind.
  pose proof (enter_or_create_new_dirs ks k w (Hincl k (or_introl eq_refl))) as H.
  destruct (Os.enter_or_create k w) as [[[]|e] w1]; simpl in *; [|exact H].
  eapply new_dirs_trans; [exact H|].
  apply IH. intros j Hj. apply Hincl. right. exact Hj.
Qed.

(** [os.makedirs] changes nothing but for directories it creates on the
    way to its argument, where nothing was. *)
Lemma makedirs_str_new_dirs s w :
  new_dirs (Os.chain s) (fs w) (fs (snd (Os.makedirs_str s w))).
Proof.
  unfold Os.makedirs_str.
  destruct (PosixPath.is_empty s); [apply new_dirs_refl|].
  destruct (PosixPath.has_nul s); [apply new_dirs_refl|].
  unfold bind.
  assert (Hincl : incl (Os.ancestors s) (Os.chain s))
    by (unfold Os.chain; apply List.incl_appl, List.incl_refl).
  pose proof (enter_chain_new_dirs (Os.chain s) (Os.ancestors s) Hincl w) as H.
  destruct (for_each _ _ w) as [[[]|e] w1]; simpl in *; [|exact H].
  eapply new_dirs_trans; [exact H|].
  apply create_leaf_new_dirs. unfold Os.chain. apply List.in_or_app. right. left.
  reflexivity.
Qed.

Lemma makedirs_new_dirs p w :
  new_dirs (chain_of p) (fs w) (fs (snd (Os.makedirs p w))).
Proof.
  unfold Os.makedirs, chain_of.
  destruct (Os.fspath p); [apply makedirs_str_new_dirs | apply new_dirs_refl].
Qed.

(** [os.makedirs] looks at the filesystem only. *)
Lemma for_each_fs {A} (l : list A) (body : A -> M unit) :
  (forall a w w1, fs w1 = fs w ->
     fst (body a w1) = fst (body a w) /\ fs (snd (body a w1)) = fs (snd (body a w))) ->
  forall w w1, fs w1 = fs w ->
    fst (for_each l body w1) = fst (for_each l body w)
    /\ fs (snd (for_each l body w1)) = fs (snd (for_each l body w)).
Proof.
  intros Hb. induction l as [|a l IH]; intros w w1 Hfs; simpl; [auto|].
  unfold bind. destruct (Hb a w w1 Hfs) as [Hr Hm].
  destruct (body a w1) as [r1 v1]. destruct (body a w) as [r v].
  simpl in Hr, Hm. subst r1. destruct r as [[]|e]; simpl; [|auto].
  apply IH. exact Hm.
Qed.

Lemma enter_or_create_fs k w w1 :
  fs w1 = fs w ->
  fst (Os.enter_or_create k w1) = fst (Os.enter_or_create k w)
  /\ fs (snd (Os.enter_or_create k w1)) = fs (snd (Os.enter_or_create k w)).
Proof.
  intros Hfs. unfold Os.enter_or_create. rewrite Hfs.
  destruct (fs w !! k) as [[|c]|]; simpl; rewrite ?Hfs; auto.
Qed.

Lemma create_leaf_fs k w w1 :
  fs w1 = fs w ->
  fst (Os.create_leaf k w1) = fst (Os.create_leaf k w)
  /\ fs (snd (Os.create_leaf k w1)) = fs (snd (Os.create_leaf k w)).
Proof.
  intros Hfs. unfold Os.create_leaf. rewrite Hfs.
  destruct (fs w !! k) as [[|c]|]; simpl; rewrite ?Hfs; auto.
Qed.

Lemma makedirs_str_fs s w w1 :
  fs w1 = fs w ->
  fst (Os.makedirs_str s w1) = fst (Os.makedirs_str s w)
  /\ fs (snd (Os.makedirs_str s w1)) = fs (snd (Os.makedirs_str s w)).
Proof.
  intros Hfs. unfold Os.makedirs_str.
  destruct (PosixPath.is_empty s); [auto|].
  destruct (PosixPath.has_nul s); [auto|].
  unfold bind.
  destruct (for_each_fs (Os.ancestors s) Os.enter_or_create enter_or_create_fs
              w w1 Hfs) as [Hr Hm].
  destruct (for_each _ _ w1) as [r1 v1]. destruct (for_each _ _ w) as [r v].
  simpl in Hr, Hm. subst r1. destruct r as [[]|e]; simpl; [|auto].
  apply create_leaf_fs. exact Hm.
Qed.

Lemma makedirs_fs p w w1 :
  fs w1 = fs w ->
  fst (Os.makedirs p w1) = fst (Os.makedirs p w)
  /\ fs (snd (Os.makedirs p w1)) = fs (snd (Os.makedirs p w)).
Proof.
  intros Hfs. unfold Os.makedirs.
  destruct (Os.fspath p); [apply makedirs_str_fs; exact Hfs | auto].
Qed.

Lemma makedirs_str_ok s w w' :
  Os.makedirs_str s w = (Ok tt, w') -> Os.is_dir (fs w') s = true.
Proof.
  unfold Os.makedirs_str, Os.is_dir, Os.stat.
  destruct (PosixPath.is_empty s); [discriminate|].
  destruct (PosixPath.has_nul s); [discriminate|].
  unfold bind. destruct (for_each _ _ w) as [[[]|e] w1]; [|discriminate].
  unfold Os.create_leaf.
  destruct (fs w1 !! Os.norm s) as [[|c]|] eqn:Hk; intros H; inversion H; subst.
  - rewrite Hk. reflexivity.
  - simpl. rewrite lookup_insert_eq. reflexivity.
Qed.

Lemma makedirs_ok p w w' :
  Os.makedirs p w = (Ok tt, w') ->
  exists s, Os.fspath p = Some s /\ Os.is_dir (fs w') s = true.
Proof.
  unfold Os.makedirs. destruct (Os.fspath p) as [s|]; [|discriminate].
  intros H. exists s. split; [reflexivity | exact (makedirs_str_ok s w w' H)].
Qed.

Lemma enter_chain_ok l :
  forall w, forallb (free_or_dir (fs w)) l = true ->
            fst (for_each l Os.enter_or_create w) = Ok tt.
Proof.
  induction l as [|k l IH]; intros w H; [reflexivity|].
  simpl in H. apply andb_prop in H as [Hk Hl].
  simpl. unfold bind.
  pose proof (enter_or_create_new_dirs [k] k w (or_introl eq_refl)) as N.
  assert (Hok : fst (Os.enter_or_create k w) = Ok tt).
  { unfold Os.enter_or_create. unfold free_or_dir in Hk.
    destruct (fs w !! k) as [[|c]|]; [reflexivity | discriminate | reflexivity]. }
  destruct (Os.enter_or_create k w) as [r w1]. simpl in *. subst r.
  apply IH. apply forallb_forall. intros j Hj.
  apply (new_dirs_free_or_dir _ _ _ _ N).
  exact (proj1 (forallb_forall _ _) Hl j Hj).
Qed.

Lemma makedirs_str_creatable s w :
  creatable (fs w) s = true -> fst (Os.makedirs_str s w) = Ok tt.
Proof.
  unfold creatable, Os.makedirs_str. intros H.
  apply andb_prop in H as [H Hc]. apply andb_prop in H as [H _].
  apply andb_prop in H as [He Hn].
  apply negb_true_iff in He, Hn. rewrite He, Hn.
  unfold Os.chain in Hc. rewrite forallb_app in Hc.
  apply andb_prop in Hc as [Ha Hl]. simpl in Hl. rewrite andb_true_r in Hl.
  unfold bind.
  pose proof (enter_chain_ok _ w Ha) as Hok.
  pose proof (enter_chain_new_dirs _ _ (List.incl_refl (Os.ancestors s)) w) as N.
  destruct (for_each _ _ w) as [r w1]. simpl in *. subst r.
  pose proof (new_dirs_free_or_dir _ _ _ _ N Hl) as Hl1.
  unfold Os.create_leaf. unfold free_or_dir in Hl1.
  destruct (fs w1 !! Os.norm s) as [[|c]|]; [reflexivity | discriminate | reflexivity].
Qed.

Lemma new_dirs_creatable ks m m' p :
  new_dirs ks m m' -> creatable m p = true -> creatable m' p = true.
Proof.
  intros N. unfold creatable. intros H.
  apply andb_prop in H as [H Hc]. rewrite H. simpl.
  apply forallb_forall. intros j Hj.
  apply (new_dirs_free_or_dir _ _ _ _ N).
  exact (proj1 (forallb_forall _ _) Hc j Hj).
Qed.

Lemma makedirs_str_keeps_creatable s p w :
  creatable (fs w) p = true -> creatable (fs (snd (Os.makedirs_str s w))) p = true.
Proof. apply new_dirs_creatable with (ks := Os.chain s), makedirs_str_new_dirs. Qed.

Lemma creation_step_returns vdv ddv vd dd w :
  Os.fspath vdv = Some vd -> Os.fspath ddv = Some dd ->
  creatable (fs w) vd = true -> creatable (fs w) dd = true ->
  fst ((Os.makedirs vdv;;; Os.makedirs ddv) w) = Ok tt.
Proof.
  intros Hv Hd Cv Cd. unfold bind, Os.makedirs. rewrite Hv, Hd.
  pose proof (makedirs_str_creatable vd w Cv) as Ok1.
  pose proof (makedirs_str_keeps_creatable vd dd w Cd) as Cd2.
  destruct (Os.makedirs_str vd w) as [r1 v2]. simpl in *. subst r1.
  apply makedirs_str_creatable. exact Cd2.
Qed.

Example makedirs_creates_parents :
  fs (snd (Os.makedirs_str "runs/exp1/out" Scenario.empty_world))
  = {["runs" := Dir; "runs/exp1" := Dir; "runs/exp1/out" := Dir]}.
Proof. vm_compute. reflexivity. Qed.

Example makedirs_under_a_file :
  Os.makedirs_str "config.yaml/videos" (Scenario.world_with_config "VIDEO")
  = (Raise NotADirectoryError, Scenario.world_with_config "VIDEO")
  /\ creatable (fs (Scenario.world_with_config "VIDEO")) "config.yaml/videos" = false.
Proof. split; vm_compute; reflexivity. Qed.

Lemma video_directories_made
    (E : Env) (config vcfg url stride vdv ddv : yaml) (w : world) :
  subscript2 config "data" "dataset_dir" = Ok ddv ->
  subscript2 config "data" "video" = Ok vcfg ->
  subscript vcfg "video_url" = Ok url ->
  subscript vcfg "video_dir" = Ok vdv ->
  subscript vcfg "frame_stride" = Ok stride ->
  let (r, w') := process_dataset E (YStr "video") config w in
  match (Os.makedirs vdv;;; Os.makedirs ddv) w with
  | (Ok _, wc) =>
      exists vd dd,
        Os.fspath vdv = Some vd /\ Os.fspath ddv = Some dd
        /\ Os.is_dir (fs wc) vd = true /\ Os.is_dir (fs wc) dd = true
        /\ Os.is_dir (fs w') vd = true /\ Os.is_dir (fs w') dd = true
  | (Raise e, wc) => r = Raise e /\ fs w' = fs wc
  end.
Proof.
  intros Hdd Hv Hurl Hvd Hst.
  unfold process_dataset. unfold_m. simpl. rewrite Hdd, Hv. simpl.
  rewrite Hurl, Hvd, Hst. simpl.
  set (w1 := add_stdout _ (add_call _ w)).
  assert (Hfs1 : fs w1 = fs w) by reflexivity.
  destruct (makedirs_fs vdv w w1 Hfs1) as [Hr1 Hm1].
  destruct (Os.makedirs vdv w1) as [r1 w2] eqn:H1.
  destruct (Os.makedirs vdv w) as [q1 v2] eqn:G1.
  simpl in Hr1, Hm1. subst q1.
  destruct r1 as [[]|e1]; [|rewrite Hm1; auto].
  destruct (makedirs_fs ddv v2 w2 Hm1) as [Hr2 Hm2].
  destruct (Os.makedirs ddv w2) as [r2 w3] eqn:H2.
  destruct (Os.makedirs ddv v2) as [q2 v3] eqn:G2.
  simpl in Hr2, Hm2. subst q2.
  destruct r2 as [[]|e2]; [|rewrite Hm2; auto].
  destruct (makedirs_ok vdv w v2 G1) as (vd & Fv & Dv).
  destruct (makedirs_ok ddv v2 v3 G2) as (dd & Fd & Dd).
  assert (Hvd3 : Os.is_dir (fs v3) vd = true).
  { apply (kept_is_dir v2 v3); [|exact Dv].
    pose proof (kept_makedirs ddv v2) as K. rewrite G2 in K. exact K. }
  pose proof (kept_download_and_extract_videos E url vdv w3) as K1.
  destruct (download_and_extract_videos E url vdv w3) as [r3 w4].
  simpl in K1.
  assert (K : forall w5, kept w4 w5 ->
            Os.is_dir (fs w5) vd = true /\ Os.is_dir (fs w5) dd = true).
  { intros w5 K2. pose proof (kept_trans _ _ _ K1 K2) as K3.
    split; apply (kept_is_dir w3 w5 _ K3); unfold Os.is_dir;
      rewrite Hm2; assumption. }
  destruct r3 as [[]|e3].
  - pose proof (kept_extract_frames_from_videos E vdv ddv stride w4) as K2.
    destruct (extract_frames_from_videos E vdv ddv stride w4)
      as [[[]|e4] w5]; simpl in K2; destruct (K w5 K2);
      exists vd, dd; repeat (split; [assumption|]); assumption.
  - destruct (K w4 (kept_refl w4)).
    exists vd, dd; repeat (split; [assumption|]); assumption.
Qed.

(** C3: in video mode, for a configuration from which the router can read
    its settings, with video directory [vdv] and dataset directory [ddv],
    the router runs
    [os.makedirs(vdv, exist_ok=True); os.makedirs(ddv, exist_ok=True)] on the
    filesystem it was called with.  When that step returns, both values
    name paths and both paths are directories, right after the step and
    still when the call ends (however the download or the extraction end);
    when it raises, the call raises the same exception there.  The step
    does return whenever both values name paths that are not empty, hold
    no NUL, are written without [.], [..] or doubled separators, and have
    no regular file at them or on the way to them. *)
Theorem process_dataset_video_directories
    (E : Env) (config vcfg url stride vdv ddv : yaml) (w : world) :
  subscript2 config "data" "dataset_dir" = Ok ddv ->
  subscript2 config "data" "video" = Ok vcfg ->
  subscript vcfg "video_url" = Ok url ->
  subscript vcfg "video_dir" = Ok vdv ->
  subscript vcfg "frame_stride" = Ok stride ->
  let (r, w') := process_dataset E (YStr "video") config w in
  match (Os.makedirs vdv;;; Os.makedirs ddv) w with
  | (Ok _, wc) =>
      exists vd dd,
        Os.fspath vdv = Some vd /\ Os.fspath ddv = Some dd
        /\ Os.is_dir (fs wc) vd = true /\ Os.is_dir (fs wc) dd = true
        /\ Os.is_dir (fs w') vd = true /\ Os.is_dir (fs w') dd = true
  | (Raise e, wc) => r = Raise e /\ fs w' = fs wc
  end
  /\ (forall vd dd,
        Os.fspath vdv = Some vd -> Os.fspath ddv = Some dd ->
        creatable (fs w) vd = true -> creatable (fs w) dd = true ->
        fst ((Os.makedirs vdv;;; Os.makedirs ddv) w) = Ok tt).
Proof.
  intros Hdd Hv Hurl Hvd Hst.
  pose proof (video_directories_made E config vcfg url stride vdv ddv w
                Hdd Hv Hurl Hvd Hst) as H.
  destruct (process_dataset E (YStr "video") config w) as [r w'].
  split; [exact H|].
  intros vd dd Fv Fd. apply creation_step_returns; assumption.
Qed.

Lemma process_dataset_video_directories_witness :
  let w' := snd (process_dataset Scenario.env (YStr "video") Scenario.video_config
                   (Scenario.world_with_config "VIDEO")) in
  Os.is_dir (fs w') "videos/" = true /\ Os.is_dir (fs w') "out" = true.
Proof.
  pose proof (process_dataset_video_directories Scenario.env Scenario.video_config
                Scenario.video_section (YStr "http://host/videos.zip") (YInt 2)
                (YStr "videos/") (YStr "out") (Scenario.world_with_config "VIDEO")
                eq_refl eq_refl eq_refl eq_refl eq_refl) as H.
  destruct (process_dataset Scenario.env (YStr "video") Scenario.video_config
              (Scenario.world_with_config "VIDEO")) as [r w'].
  destruct H as [H _]. vm_compute in H.
  destruct H as (vd & dd & Fv & Fd & _ & _ & Hv & Hd).
  inversion Fv; subst vd. inversion Fd; subst dd.
  split; [exact Hv | exact Hd].
Defined.

(** ** The archive after acquisition (C8) *)

Lemma norm_no_trailing_sep p : PosixPath.ends_with_sep p = false -> Os.norm p = p.
Proof.
  unfold Os.norm. intros H.
  assert (Hr : PosixPath.rstrip_sep p = p).
  { induction p as [|c r IH]; [reflexivity|]. simpl in *.
    destruct r as [|c' r'].
    - simpl. rewrite H. reflexivity.
    - rewrite (IH H). reflexivity. }
  rewrite Hr. destruct (PosixPath.all_seps p); reflexivity.
Qed.

Lemma write_file_ok p c w w' :
  Os.write_file p c w = (Ok tt, w') -> fs w' !! p = Some (File c) /\ Os.norm p = p
  /\ PosixPath.is_empty p = false.
Proof.
  unfold Os.write_file, Os.create_file.
  destruct (PosixPath.has_nul p); [discriminate|].
  destruct (PosixPath.is_empty p); [discriminate|].
  destruct (PosixPath.ends_with_sep p) eqn:Hs; [discriminate|].
  intros H.
  assert (Hw : fs w' = <[p := File c]> (fs w)).
  { destruct (fs w !! p) as [[|c']|]; try discriminate;
      destruct (Os.parent_status (fs w) p); inversion H; reflexivity. }
  rewrite Hw, lookup_insert_eq. auto using norm_no_trailing_sep.
Qed.

Lemma write_file_ok_path p c w w' :
  Os.write_file p c w = (Ok tt, w') ->
  PosixPath.has_nul p = false /\ PosixPath.ends_with_sep p = false.
Proof.
  unfold Os.write_file, Os.create_file.
  destruct (PosixPath.has_nul p); [discriminate|].
  destruct (PosixPath.is_empty p); [discriminate|].
  destruct (PosixPath.ends_with_sep p); [discriminate | auto].
Qed.

Lemma read_file_of_key p c w :
  fs w !! p = Some (File c) -> Os.norm p = p -> PosixPath.is_empty p = false ->
  PosixPath.has_nul p = false ->
  PosixPath.ends_with_sep p = false ->
  Os.read_file p w = (Ok c, w).
Proof.
  intros Hk Hn He Hz Hs. unfold Os.read_file.
  rewrite He, Hz, Hn, Hk, Hs. reflexivity.
Qed.

Lemma extractall_members d members : forall w w',
  for_each members (Zipfile.extract_member d) w = (Ok tt, w') ->
  forall m, In m members -> member_is_dir m = false ->
  exists c, fs w' !! PosixPath.join d (arcname m) = Some (File c).
Proof.
  induction members as [|m0 rest IH]; intros w w' Hrun m Hin Hfile.
  - destruct Hin.
  - simpl in Hrun. unfold bind in Hrun.
    destruct (Zipfile.extract_member d m0 w) as [[[]|e] w1] eqn:H0; [|discriminate].
    destruct Hin as [->|Hin].
    + pose proof (stable_for_each kept kept_refl kept_trans rest
                    (Zipfile.extract_member d) (kept_extract_member d) w1) as K.
      rewrite Hrun in K. simpl in K.
      unfold Zipfile.extract_member, bind in H0. rewrite Hfile in H0.
      destruct (Zipfile.ensure_upperdirs _ w) as [[[]|e] w0]; [|discriminate].
      destruct (Os.write_file _ _ w0) as [[[]|e] w2] eqn:Hw; [|discriminate].
      apply write_file_ok in Hw. destruct Hw as [Hw _].
      assert (w2 = w1) as ->
        by (destruct (member_crc_ok m); inversion H0; reflexivity).
      exact (kept_file_key w1 w' _ _ K Hw).
    + exact (IH w1 w' Hrun m Hin Hfile).
Qed.

(** C8: whenever [download_and_extract_videos] returns, the target
    directory was given as a string [d], the request produced a body, and
    [os.path.join(d, "videos.zip")] still holds a regular file, next to
    every file entry of the archive extracted under [d]; no step of the
    function removes an entry. *)
Theorem download_leaves_archive (E : Env) (video_url video_dir : yaml) (w w' : world) :
  download_and_extract_videos E video_url video_dir w = (Ok tt, w') ->
  exists d body members,
    video_dir = YStr d
    /\ requests_get E video_url = Ok body
    /\ zip_read E body = Ok members
    /\ (exists c, fs w' !! PosixPath.join d "videos.zip" = Some (File c))
    /\ Os.is_file (fs w') (PosixPath.join d "videos.zip") = true
    /\ forall m, In m members -> member_is_dir m = false ->
         exists c, fs w' !! PosixPath.join d (arcname m) = Some (File c).
Proof.
  unfold download_and_extract_videos. unfold_m. simpl.
  destruct video_dir as [| | |d| | | |]; simpl; try discriminate.
  destruct (requests_get E video_url) as [body|e] eqn:Hget; simpl; [|discriminate].
  set (zp := PosixPath.join d "videos.zip").
  destruct (Os.write_file zp body _) as [[[]|e] w1] eqn:Hw; [|discriminate].
  pose proof (write_file_ok _ _ _ _ Hw) as (Hk & Hn & He).
  pose proof (write_file_ok_path _ _ _ _ Hw) as (Hz & Hs).
  rewrite (read_file_of_key zp body (add_stdout _ w1)) by assumption.
  destruct (zip_read E body) as [members|e] eqn:Hzip; simpl; [|discriminate].
  destruct (for_each members (Zipfile.extract_member d) _) as [[[]|e] w2] eqn:Hx;
    [|discriminate].
  intros H. inversion H; subst w'; clear H. simpl.
  pose proof (stable_for_each kept kept_refl kept_trans members
                (Zipfile.extract_member d) (kept_extract_member d)
                (add_stdout ("Extracting videos to " ++ d ++ "...") w1)) as K.
  rewrite Hx in K. simpl in K.
  destruct (kept_file_key _ w2 zp body K Hk) as [c Hc].
  exists d, body, members.
  split; [reflexivity|]. split; [reflexivity|]. split; [exact Hzip|].
  split; [|split].
  - exists c. exact Hc.
  - unfold Os.is_file, Os.stat. fold zp. rewrite He, Hn, Hc, Hs. reflexivity.
  - intros m Hin Hfile. exact (extractall_members d members _ _ Hx m Hin Hfile).
Qed.

Lemma download_leaves_archive_witness :
  Os.is_file
    (fs (snd (download_and_extract_videos Scenario.env
                (YStr "http://host/videos.zip") (YStr "videos")
                (Scenario.world_of {["videos" := Dir]}))))
    "videos/videos.zip" = true.
Proof.
  destruct (download_leaves_archive Scenario.env (YStr "http://host/videos.zip")
              (YStr "videos") (Scenario.world_of {["videos" := Dir]})
              (snd (download_and_extract_videos Scenario.env
                      (YStr "http://host/videos.zip") (YStr "videos")
                      (Scenario.world_of {["videos" := Dir]}))))
    as (d & body & members & Hd & _ & _ & _ & Hf & _).
  - vm_compute. reflexivity.
  - inversion Hd; subst d. exact Hf.
Defined.

(** ** Frame file names (C4) *)

Module FormatFacts.
Import Format.

Lemma length_app_string (s1 s2 : string) :
  String.length (s1 ++ s2) = (String.length s1 + String.length s2)%nat.
Proof. induction s1 as [|c r IH]; simpl; [reflexivity | rewrite IH; reflexivity]. Qed.

Lemma app_assoc_string (s1 s2 s3 : string) : (s1 ++ s2) ++ s3 = s1 ++ (s2 ++ s3).
Proof.
  induction s1 as [|c r IH]; [reflexivity|].
  change (String c ((r ++ s2) ++ s3) = String c (r ++ (s2 ++ s3))).
  rewrite IH. reflexivity.
Qed.

Lemma app_cancel_l (s a b : string) : s ++ a = s ++ b -> a = b.
Proof.
  induction s as [|c r IH]; intros H; [exact H|].
  change (String c (r ++ a) = String c (r ++ b)) in H. inversion H. auto.
Qed.

Lemma length_zeros k : String.length (zeros k) = k.
Proof. induction k as [|k IH]; simpl; [reflexivity | rewrite IH; reflexivity]. Qed.

(** A number below [10^k] has at most [k] digits. *)
Lemma decimal_go_length_le fuel : forall (k : nat) (n : N) (acc : string),
  (1 <= k)%nat -> (n < 10 ^ N.of_nat k)%N ->
  (String.length (decimal_go fuel n acc) <= k + String.length acc)%nat.
Proof.
  induction fuel as [|f IH]; intros k n acc Hk Hn; simpl.
  - lia.
  - destruct (N.ltb_spec n 10) as [Hlt|Hge]; simpl.
    + lia.
    + destruct k as [|[|k']]; [lia| |].
      * simpl in Hn. lia.
      * specialize (IH (S k') (n / 10)%N
                      (String (digit_char (n mod 10)) acc)).
        simpl String.length in IH.
        assert (Hdiv : (n / 10 < 10 ^ N.of_nat (S k'))%N).
        { apply N.Div0.div_lt_upper_bound.
          replace (N.of_nat (S (S k'))) with (N.succ (N.of_nat (S k'))) in Hn by lia.
          rewrite N.pow_succ_r' in Hn. exact Hn. }
        specialize (IH ltac:(lia) Hdiv). lia.
Qed.

Lemma pad5_length_ge n : (5 <= String.length (pad5 n))%nat.
Proof. unfold pad5, zfill. rewrite length_app_string, length_zeros. lia. Qed.

Lemma pad5_length_five n : (n < 100000)%N -> String.length (pad5 n) = 5%nat.
Proof.
  intros Hn. unfold pad5, zfill. rewrite length_app_string, length_zeros.
  pose proof (decimal_go_length_le (S (N.to_nat (N.log2 n))) 5 n EmptyString
                ltac:(lia) Hn) as H.
  fold (decimal n) in H. simpl in H. lia.
Qed.

(** Reading the digits back. *)
Lemma parse_go_app a s1 s2 : parse_go a (s1 ++ s2) = parse_go (parse_go a s1) s2.
Proof.
  revert a. induction s1 as [|c r IH]; intros a; simpl; [reflexivity | apply IH].
Qed.

Lemma decimal_go_acc fuel : forall n acc,
  decimal_go fuel n acc = decimal_go fuel n EmptyString ++ acc.
Proof.
  induction fuel as [|f IH]; intros n acc; simpl; [reflexivity|].
  destruct (n <? 10)%N; [reflexivity|].
  rewrite (IH _ (String _ acc)), (IH _ (String _ EmptyString)).
  rewrite app_assoc_string. reflexivity.
Qed.

Lemma digit_value_char d : (d < 10)%N -> digit_value (digit_char d) = d.
Proof.
  intros Hd. unfold digit_value, digit_char.
  rewrite N_ascii_embedding by lia. lia.
Qed.

Lemma parse_decimal_go fuel : forall n,
  (n < 2 ^ N.of_nat fuel)%N -> parse_go 0 (decimal_go fuel n EmptyString) = n.
Proof.
  induction fuel as [|f IH]; intros n Hn.
  - simpl in *. lia.
  - simpl decimal_go.
    assert (Hmod : (n mod 10 < 10)%N) by (apply N.mod_lt; lia).
    destruct (N.ltb_spec n 10) as [Hlt|Hge].
    + simpl. rewrite digit_value_char by exact Hmod.
      rewrite N.mod_small by exact Hlt. lia.
    + rewrite decimal_go_acc, parse_go_app. rewrite IH.
      * simpl. rewrite digit_value_char by exact Hmod.
        pose proof (N.div_mod n 10 ltac:(lia)). lia.
      * replace (N.of_nat (S f)) with (N.succ (N.of_nat f)) in Hn by lia.
        rewrite N.pow_succ_r' in Hn.
        apply N.Div0.div_lt_upper_bound. lia.
Qed.

Lemma parse_decimal_decimal n : parse_decimal (decimal n) = n.
Proof.
  unfold parse_decimal, decimal. apply parse_decimal_go.
  destruct (N.eq_dec n 0%N) as [->|Hn]; [reflexivity|].
  pose proof (N.log2_spec n ltac:(lia)) as [_ Hlt].
  replace (N.of_nat (S (N.to_nat (N.log2 n)))) with (N.succ (N.log2 n)) by lia.
  exact Hlt.
Qed.

Lemma parse_zeros k s : parse_go 0 (zeros k ++ s) = parse_go 0 s.
Proof. induction k as [|k IH]; simpl; [reflexivity | exact IH]. Qed.

Lemma parse_pad5 n : parse_decimal (pad5 n) = n.
Proof.
  unfold pad5, zfill, parse_decimal. rewrite parse_zeros.
  apply parse_decimal_decimal.
Qed.

Lemma pad5_inj n m : pad5 n = pad5 m -> n = m.
Proof. intros H. rewrite <- (parse_pad5 n), <- (parse_pad5 m), H. reflexivity. Qed.

Lemma result_map_compose {A B C} (f : B -> C) (g : A -> B) (r : result A) :
  result_map f (result_map g r) = result_map (fun a => f (g a)) r.
Proof. destruct r; reflexivity. Qed.

Lemma format_go_plain autos n name suffix :
  brace_free name = true ->
  format_go 0 autos n (name ++ suffix)
  = result_map (String.append name) (format_go 0 autos n suffix).
Proof.
  induction name as [|c r IH]; intros Hb.
  - change (EmptyString ++ suffix) with suffix.
    destruct (format_go 0 autos n suffix); reflexivity.
  - simpl in Hb. apply andb_prop in Hb as [Hc Hr]. apply andb_prop in Hc as [Hl Hrb].
    apply negb_true_iff in Hl, Hrb.
    change (String c r ++ suffix) with (String c (r ++ suffix)).
    simpl format_go. rewrite Hl, Hrb, (IH Hr), result_map_compose. reflexivity.
Qed.

Lemma format_frame_pattern name n :
  brace_free name = true ->
  format (name ++ "-{:05d}.png") n = Ok (name ++ "-" ++ pad5 n ++ ".png").
Proof.
  intros Hb. unfold format. rewrite (format_go_plain 0 n name _ Hb). reflexivity.
Qed.

End FormatFacts.

Lemma create_file_imwrites p c w : imwrites (snd (Os.create_file p c w)) = imwrites w.
Proof.
  unfold Os.create_file.
  destruct (PosixPath.is_empty p); [reflexivity|].
  destruct (PosixPath.ends_with_sep p); [reflexivity|].
  destruct (fs w !! p) as [[|c']|]; try reflexivity;
    destruct (Os.parent_status (fs w) p); reflexivity.
Qed.

Lemma imwrite_run E p img w :
  exists w', Sv.imwrite E p img w = (Ok tt, w')
             /\ imwrites w' = (imwrites w ++ [p])%list.
Proof.
  unfold Sv.imwrite.
  pose proof (create_file_imwrites p (png_encode E img) (add_imwrite p w)) as H.
  destruct (Os.create_file _ _ _) as [[u|e] w2]; simpl in H; eauto.
Qed.

Lemma frame_paths_cons dir name first k :
  frame_paths dir name first (S k)
  = PosixPath.join dir (frame_file name first) :: frame_paths dir name (first + 1) k.
Proof.
  unfold frame_paths. simpl. f_equal.
  - f_equal. f_equal. lia.
  - rewrite <- seq_shift, List.map_map. apply List.map_ext. intros i.
    f_equal. f_equal. lia.
Qed.

Lemma save_frames_imwrites E dir name frames :
  Format.brace_free name = true ->
  forall (c : N) (w : world),
  exists sink' w',
    save_frames E (Sv.MkImageSink (YStr dir) (name ++ "-{:05d}.png") c) frames w
    = (Ok sink', w')
    /\ imwrites w' = (imwrites w ++ frame_paths dir name c (length frames))%list.
Proof.
  intros Hb. induction frames as [|img rest IH]; intros c w.
  - exists (Sv.MkImageSink (YStr dir) (name ++ "-{:05d}.png") c), w.
    split; [reflexivity|]. simpl. rewrite app_nil_r. reflexivity.
  - simpl save_frames. unfold bind at 1. unfold Sv.save_image. unfold_m. simpl.
    rewrite (FormatFacts.format_frame_pattern name c Hb).
    destruct (imwrite_run E (PosixPath.join dir (name ++ "-" ++ Format.pad5 c ++ ".png"))
                img w) as (w1 & Hrun & Hlog).
    rewrite Hrun.
    destruct (IH (c + 1)%N w1) as (sink' & w' & Hrest & Hlog').
    exists sink', w'. split; [exact Hrest|].
    rewrite Hlog', Hlog. simpl length. rewrite frame_paths_cons.
    rewrite <- app_assoc. reflexivity.
Qed.

Lemma makedirs_imwrites p w : imwrites (snd (Os.makedirs p w)) = imwrites w.
Proof.
  revert w.
  apply (stable_makedirs (fun a b => imwrites b = imwrites a) (fun _ => eq_refl)).
  intros s.
  apply (stable_makedirs_str (fun a b => imwrites b = imwrites a) (fun _ => eq_refl)).
  - intros a b c H1 H2. congruence.
  - intros k w. unfold Os.enter_or_create.
    destruct (fs w !! k) as [[|c]|]; reflexivity.
  - intros k w. unfold Os.create_leaf.
    destruct (fs w !! k) as [[|c]|]; reflexivity.
Qed.

(** What one pass of the loop body hands to [cv2.imwrite]. *)
Lemma extract_video_imwrites E dir stride video_path w :
  Format.brace_free (video_name_of video_path) = true ->
  imwrites (snd (extract_frames_from_video E (YStr dir) stride video_path w))
  = (imwrites w
     ++ frame_paths dir (video_name_of video_path) 0
          (length (yielded_frames E (YStr dir) stride video_path w)))%list.
Proof.
  intros Hb. unfold extract_frames_from_video, yielded_frames.
  set (sink := Sv.MkImageSink _ _ _).
  assert (Hq : forall w0, imwrites (snd (Sv.sink_enter sink w0)) = imwrites w0).
  { intros w0. unfold Sv.sink_enter, bind, Os.path_exists. simpl.
    destruct (bool_decide _); [reflexivity|]. apply makedirs_imwrites. }
  unfold bind. specialize (Hq w).
  destruct (Sv.sink_enter sink w) as [[[]|e] w1]; simpl in Hq;
    [|simpl; rewrite Hq, app_nil_r; reflexivity].
  unfold Sv.open_video.
  destruct (Os.stat (fs w1) video_path) as [[|c]|];
    try (simpl; rewrite Hq, app_nil_r; reflexivity).
  destruct (video_decode E c) as [decoded|];
    [|simpl; rewrite Hq, app_nil_r; reflexivity].
  destruct (Sv.frames_generator stride decoded) as [frames failure].
  destruct (save_frames_imwrites E dir (video_name_of video_path) frames Hb 0%N w1)
    as (sink' & w2 & Hrun & Hlog).
  subst sink. rewrite Hrun. simpl fst.
  destruct failure; simpl; rewrite Hlog, Hq; reflexivity.
Qed.

Lemma sample_length {A} (grabs : nat) (frames : list A) : forall skip,
  length (Sv.sample grabs skip frames)
  = ((length frames - skip + grabs) / S grabs)%nat.
Proof.
  induction frames as [|f rest IH]; intros skip.
  - cbn [Sv.sample length]. symmetry. apply Nat.div_small. lia.
  - destruct skip as [|k]; cbn [Sv.sample length].
    + rewrite IH.
      replace (S (length rest) - 0 + grabs)%nat
        with (length rest + 1 * S grabs)%nat by lia.
      rewrite Nat.div_add by lia.
      destruct (le_lt_dec grabs (length rest)) as [Hle|Hlt].
      * replace (length rest - grabs + grabs)%nat with (length rest) by lia. lia.
      * replace (length rest - grabs + grabs)%nat with grabs by lia.
        rewrite (Nat.div_small grabs) by lia.
        rewrite (Nat.div_small (length rest)) by lia. lia.
    + rewrite IH. reflexivity.
Qed.

(** With a positive stride [s], [n] frames give [ceil(n / s)] yields. *)
Lemma frames_generator_count (s : Z) (frames : list image) :
  (1 <= s)%Z ->
  Sv.frames_generator (YInt s) frames
  = (Sv.sample (Z.to_nat (s - 1)) 0 frames, None)
  /\ length (Sv.sample (Z.to_nat (s - 1)) 0 frames)
     = ceil_div (length frames) (Z.to_nat s).
Proof.
  intros Hs. split; [reflexivity|].
  rewrite sample_length. unfold ceil_div.
  replace (Z.to_nat s) with (S (Z.to_nat (s - 1))) by lia.
  f_equal. lia.
Qed.

(** A video's name starts with no separator: it is cut out of a base
    name, which contains none. *)
Lemma split_last_sep_tail p :
  let (h, t) := PosixPath.split_last_sep p in
  PosixPath.starts_with_sep t = false
  /\ (PosixPath.is_empty h = true -> t = p).
Proof.
  induction p as [|c r IH]; simpl; [auto|].
  destruct (PosixPath.split_last_sep r) as [h t]. destruct IH as [IH1 IH2].
  destruct (PosixPath.is_empty h) eqn:Hh.
  - rewrite (IH2 eq_refl) in *.
    destruct (PosixPath.is_sep c) eqn:Hc; simpl; split; auto; discriminate.
  - simpl. split; [exact IH1 | discriminate].
Qed.

Lemma split_last_dot_app s a b :
  PosixPath.split_last_dot s = Some (a, b) -> s = a ++ b.
Proof.
  revert a b. induction s as [|c r IH]; intros a b H; simpl in H; [discriminate|].
  destruct (PosixPath.split_last_dot r) as [[a' b']|].
  - inversion H; subst a b. change (String c r = String c (a' ++ b')).
    f_equal. apply IH. reflexivity.
  - destruct (PosixPath.is_dot c); inversion H; reflexivity.
Qed.

Lemma video_name_no_leading_sep p :
  PosixPath.starts_with_sep (video_name_of p) = false.
Proof.
  unfold video_name_of, PosixPath.basename, PosixPath.splitext.
  pose proof (split_last_sep_tail p) as H.
  destruct (PosixPath.split_last_sep p) as [h t]. destruct H as [Ht _]. simpl.
  destruct (PosixPath.split_last_dot t) as [[root ext]|] eqn:Hd; [|exact Ht].
  destruct (PosixPath.all_dots root) eqn:Hall; [exact Ht|]. simpl.
  apply split_last_dot_app in Hd. subst t.
  destruct root as [|c r]; [discriminate | exact Ht].
Qed.

Lemma frame_paths_nodup dir name first k :
  Format.brace_free name = true ->
  PosixPath.starts_with_sep name = false ->
  List.NoDup (frame_paths dir name first k).
Proof.
  intros Hb Hs. unfold frame_paths.
  apply Finite.Injective_map_NoDup_in; [|apply List.seq_NoDup].
  intros i j _ _ Heq.
  assert (Hfile : frame_file name (first + N.of_nat i)
                  = frame_file name (first + N.of_nat j)).
  { unfold PosixPath.join in Heq.
    assert (Hst : forall n, PosixPath.starts_with_sep (frame_file name n) = false).
    { intros n. unfold frame_file. destruct name as [|c r]; [reflexivity | exact Hs]. }
    rewrite !Hst in Heq.
    destruct (PosixPath.is_empty dir || PosixPath.ends_with_sep dir).
    - apply FormatFacts.app_cancel_l in Heq. exact Heq.
    - apply FormatFacts.app_cancel_l in Heq.
      apply FormatFacts.app_cancel_l in Heq. exact Heq. }
  unfold frame_file in Hfile.
  apply FormatFacts.app_cancel_l in Hfile.
  apply FormatFacts.app_cancel_l in Hfile.
  assert (Hpad : Format.pad5 (first + N.of_nat i) = Format.pad5 (first + N.of_nat j)).
  { pose proof (f_equal String.length Hfile) as Hlen.
    rewrite !FormatFacts.length_app_string in Hlen. simpl in Hlen.
    revert Hfile Hlen.
    generalize (Format.pad5 (first + N.of_nat i)) (Format.pad5 (first + N.of_nat j)).
    intros a. induction a as [|x a IHa]; intros [|y b] Hfile Hlen;
      simpl in Hlen; try lia; [reflexivity|].
    inversion Hfile. f_equal. apply IHa; [assumption | lia]. }
  apply FormatFacts.pad5_inj in Hpad. lia.
Qed.

(** With a positive stride, an enterable sink and a decodable video of a
    brace-free name, one pass of the loop body hands [ceil(n / s)] paths to
    [cv2.imwrite], all different. *)
Lemma extract_video_count E dir (s : Z) video_path w decoded w1 :
  Format.brace_free (video_name_of video_path) = true ->
  (1 <= s)%Z ->
  (Sv.sink_enter
     (Sv.MkImageSink (YStr dir) (video_name_of video_path ++ "-{:05d}.png") 0);;;
   Sv.open_video E video_path) w = (Ok decoded, w1) ->
  imwrites (snd (extract_frames_from_video E (YStr dir) (YInt s) video_path w))
  = (imwrites w
     ++ frame_paths dir (video_name_of video_path) 0
          (ceil_div (length decoded) (Z.to_nat s)))%list
  /\ length (frame_paths dir (video_name_of video_path) 0
               (ceil_div (length decoded) (Z.to_nat s)))
     = ceil_div (length decoded) (Z.to_nat s)
  /\ List.NoDup (frame_paths dir (video_name_of video_path) 0
                   (ceil_div (length decoded) (Z.to_nat s))).
Proof.
  intros Hb Hs Hopen. split; [|split].
  - rewrite (extract_video_imwrites E dir (YInt s) video_path w Hb).
    unfold yielded_frames. rewrite Hopen.
    destruct (frames_generator_count s decoded Hs) as [Hgen Hlen].
    rewrite Hgen. simpl fst. rewrite Hlen. reflexivity.
  - unfold frame_paths. rewrite List.length_map, List.length_seq. reflexivity.
  - apply frame_paths_nodup; [exact Hb | apply video_name_no_leading_sep].
Qed.

(** C4, counterexample: the last of the 100001 frames of a video [v.mp4]
    extracted with stride 1 is written to [out/v-100000.png], and no index
    of five characters gives that name. *)
Lemma frame_index_six_digits :
  let w := Scenario.extraction_world "videos/v.mp4" "LONG" in
  let w' := snd (extract_frames_from_video Scenario.env (YStr "out") (YInt 1)
                   "videos/v.mp4" w) in
  In "out/v-100000.png" (imwrites w')
  /\ forall index,
       "out/v-100000.png" = PosixPath.join "out" ("v" ++ "-" ++ index ++ ".png") ->
       String.length index <> 5%nat.
Proof.
  split.
  - rewrite (proj1 (extract_video_count Scenario.env "out" 1 "videos/v.mp4"
                      (Scenario.extraction_world "videos/v.mp4" "LONG")
                      Scenario.long_video
                      (Scenario.extraction_world "videos/v.mp4" "LONG")
                      eq_refl ltac:(lia) eq_refl)).
    unfold Scenario.long_video. rewrite List.repeat_length.
    unfold ceil_div. replace (N.to_nat 100001 + Z.to_nat 1 - 1)%nat
      with (N.to_nat 100001) by lia.
    change (Z.to_nat 1) with 1%nat. rewrite Nat.div_1_r.
    replace (N.to_nat 100001) with (S (N.to_nat 100000)) by lia.
    unfold frame_paths. rewrite List.seq_S, List.map_app.
    apply List.in_or_app. right. apply List.in_or_app. right.
    left. simpl Nat.add. rewrite N2Nat.id. vm_compute. reflexivity.
  - intros index H. vm_compute in H.
    apply (f_equal String.length) in H. simpl in H.
    injection H as H. rewrite FormatFacts.length_app_string in H. simpl in H. lia.
Qed.

(** C4, amended: for a video whose base name has no brace, the paths the
    loop body hands to [cv2.imwrite] are, in order, the sink directory
    joined with [<base name>-<index>.png] for the indices 0, 1, 2, ...;
    the index is written in decimal and padded with zeros on the left to
    at least five characters, exactly five for every index below 100000. *)
Theorem frame_files_named (E : Env) (dir : string) (stride : yaml)
    (video_path : string) (w : world) :
  Format.brace_free (video_name_of video_path) = true ->
  exists k,
    imwrites (snd (extract_frames_from_video E (YStr dir) stride video_path w))
    = (imwrites w
       ++ List.map (fun i => PosixPath.join dir
                      (video_name_of video_path ++ "-"
                       ++ Format.pad5 (N.of_nat i) ++ ".png"))
            (List.seq 0 k))%list
    /\ forall i : N,
         (5 <= String.length (Format.pad5 i))%nat
         /\ ((i < 100000)%N -> String.length (Format.pad5 i) = 5%nat)
         /\ Format.parse_decimal (Format.pad5 i) = i.
Proof.
  intros Hb.
  exists (length (yielded_frames E (YStr dir) stride video_path w)).
  split.
  - rewrite (extract_video_imwrites E dir stride video_path w Hb). reflexivity.
  - intros i. split; [apply FormatFacts.pad5_length_ge|].
    split; [apply FormatFacts.pad5_length_five | apply FormatFacts.parse_pad5].
Qed.

Lemma frame_files_named_witness :
  imwrites (snd (extract_frames_from_video Scenario.env (YStr "out") (YInt 2)
                   "videos/clip.mp4"
                   (Scenario.extraction_world "videos/clip.mp4" "VID")))
  = ["out/clip-00000.png"; "out/clip-00001.png"; "out/clip-00002.png"].
Proof.
  destruct (frame_files_named Scenario.env "out" (YInt 2) "videos/clip.mp4"
              (Scenario.extraction_world "videos/clip.mp4" "VID") eq_refl)
    as (k & Hk & _).
  assert (Hlen : k = 3%nat).
  { apply (f_equal (@length string)) in Hk.
    rewrite List.length_app, List.length_map, List.length_seq in Hk.
    vm_compute in Hk. exact (eq_sym Hk). }
  subst k. rewrite Hk. vm_compute. reflexivity.
Defined.

(** ** The number of frames written (C5) *)

(** C5, at the failing input: a one-frame video named [{}.mp4], stride 1.
    [ceil(1 / 1) = 1] file is due; the pattern ["{}-{:05d}.png"] makes
    [str.format] raise [IndexError] at the first frame: the function
    raises, and the world it leaves is the one it was called in (same
    files, nothing handed to [cv2.imwrite]) but for its own entry in the
    call log. *)
Theorem extract_frames_brace_name_fails :
  let w := Scenario.extraction_world "videos/{}.mp4" "ONE" in
  video_decode Scenario.env "ONE" = Some ["f0"]
  /\ ceil_div 1 (Z.to_nat 1) = 1%nat
  /\ extract_frames_from_videos Scenario.env (YStr "videos") (YStr "out") (YInt 1) w
     = (Raise IndexError, add_call (Enter F_extract_frames_from_videos) w).
Proof.
  split; [reflexivity|]. split; [reflexivity|]. vm_compute. reflexivity.
Qed.

(** ** The order of calls (C6, C7, C10) *)

Lemma before_prefix t full a b : t `prefix_of` full -> before full a b -> before t a b.
Proof.
  intros [k ->] Hfull t1 t2 Ht. apply (Hfull t1 (t2 ++ k)%list).
  rewrite Ht, <- app_assoc. reflexivity.
Qed.

Lemma nodup_prefix (t full : list event) : t `prefix_of` full -> List.NoDup full -> List.NoDup t.
Proof. intros [k ->] H. exact (List.NoDup_app_remove_r _ _ H). Qed.

Lemma in_prefix (t full : list event) x : t `prefix_of` full -> In x t -> In x full.
Proof. intros [k ->] H. apply List.in_or_app. left. exact H. Qed.

Ltac prefix_tac := eexists; simpl; reflexivity.

Lemma download_calls E url d w :
  calls (snd (download_and_extract_videos E url d w))
  = (calls w ++ Enter F_download_and_extract_videos
       :: closing F_download_and_extract_videos
            (fst (download_and_extract_videos E url d w)))%list.
Proof.
  apply traced_quiet_calls. quiet_bind; auto with quiet.
Qed.

Lemma extract_calls E vd d s w :
  calls (snd (extract_frames_from_videos E vd d s w))
  = (calls w ++ Enter F_extract_frames_from_videos
       :: closing F_extract_frames_from_videos
            (fst (extract_frames_from_videos E vd d s w)))%list.
Proof.
  apply traced_quiet_calls. quiet_bind; auto with quiet.
Qed.

Lemma load_config_calls E p w :
  calls (snd (load_config E p w))
  = (calls w ++ Enter F_load_config :: closing F_load_config (fst (load_config E p w)))%list.
Proof.
  apply traced_quiet_calls. quiet_bind; auto with quiet.
Qed.

Lemma read_file_world p w : snd (Os.read_file p w) = w.
Proof.
  unfold Os.read_file.
  destruct (PosixPath.is_empty p); [reflexivity|].
  destruct (PosixPath.has_nul p); [reflexivity|].
  destruct (fs w !! Os.norm p) as [[|c]|]; try reflexivity.
  - destruct (PosixPath.ends_with_sep p); reflexivity.
  - destruct (Os.under_file (fs w) p); reflexivity.
Qed.

Lemma read_file_fs p w1 w2 :
  fs w1 = fs w2 -> fst (Os.read_file p w1) = fst (Os.read_file p w2).
Proof.
  intros Hfs. unfold Os.read_file. rewrite Hfs.
  destruct (PosixPath.is_empty p); [reflexivity|].
  destruct (PosixPath.has_nul p); [reflexivity|].
  destruct (fs w2 !! Os.norm p) as [[|c]|]; try reflexivity.
  - destruct (PosixPath.ends_with_sep p); reflexivity.
  - destruct (Os.under_file (fs w2) p); reflexivity.
Qed.

(** What [load_config] returns depends on the files only. *)
Lemma load_config_fst E p w1 w2 :
  fs w1 = fs w2 -> fst (load_config E p w1) = fst (load_config E p w2).
Proof.
  intros Hfs. unfold load_config. unfold_m. simpl.
  pose proof (read_file_fs p (add_call (Enter F_load_config) w1)
                (add_call (Enter F_load_config) w2) Hfs) as H.
  destruct (Os.read_file p (add_call (Enter F_load_config) w1)) as [r1 v1].
  destruct (Os.read_file p (add_call (Enter F_load_config) w2)) as [r2 v2].
  simpl in H. subst r2. destruct r1 as [text|e]; simpl; [|reflexivity].
  destruct (yaml_safe_load E text); reflexivity.
Qed.

Lemma load_config_ok E p w cfg :
  fst (load_config E p w) = Ok cfg ->
  load_config E p w
  = (Ok cfg, add_call (Leave F_load_config) (add_call (Enter F_load_config) w)).
Proof.
  unfold load_config. unfold_m. simpl.
  pose proof (read_file_world p (add_call (Enter F_load_config) w)) as H.
  destruct (Os.read_file p (add_call (Enter F_load_config) w)) as [r1 v1].
  simpl in H. subst v1. destruct r1 as [text|e]; simpl; [|discriminate].
  destruct (yaml_safe_load E text); simpl; intros H; inversion H; reflexivity.
Qed.

Lemma load_config_fs E p w : fs (snd (load_config E p w)) = fs w.
Proof.
  unfold load_config. unfold_m. simpl.
  pose proof (read_file_world p (add_call (Enter F_load_config) w)) as H.
  destruct (Os.read_file p (add_call (Enter F_load_config) w)) as [r1 v1].
  simpl in H. subst v1. destruct r1 as [text|e]; simpl; [|reflexivity].
  destruct (yaml_safe_load E text); reflexivity.
Qed.

Lemma process_dataset_calls E input_type config w :
  let (r, w') := process_dataset E input_type config w in
  exists t,
    calls w' = (calls w ++ t)%list
    /\ t `prefix_of` pd_full input_type
    /\ (is_ok r = true -> t = pd_full input_type)
    /\ In (Enter F_process_dataset) t.
Proof.
  unfold process_dataset, pd_full. unfold_m. simpl.
  destruct (subscript2 config "data" "dataset_dir") as [dd|e]; simpl;
    [|exists [Enter F_process_dataset]; simpl; repeat split;
      [prefix_tac | discriminate | auto]].
  destruct (eq_str input_type "video") eqn:Hv.
  - simpl.
    destruct (subscript2 config "data" "video") as [vc|e]; simpl;
      [|exists [Enter F_process_dataset]; simpl; repeat split;
        [prefix_tac | discriminate | auto]].
    destruct (subscript vc "video_url") as [url|e]; simpl;
      [|exists [Enter F_process_dataset]; simpl; repeat split;
        [prefix_tac | discriminate | auto]].
    destruct (subscript vc "video_dir") as [vd|e]; simpl;
      [|exists [Enter F_process_dataset]; simpl; repeat split;
        [prefix_tac | discriminate | auto]].
    destruct (subscript vc "frame_stride") as [st|e]; simpl;
      [|exists [Enter F_process_dataset]; simpl; repeat split;
        [prefix_tac | discriminate | auto]].
    set (w1 := add_stdout _ _).
    pose proof (quiet_makedirs vd w1) as Q1. unfold same_calls in Q1.
    destruct (Os.makedirs vd w1) as [[[]|e] w2]; simpl in Q1;
      [|exists [Enter F_process_dataset]; simpl; rewrite Q1; repeat split;
        [prefix_tac | discriminate | auto]].
    pose proof (quiet_makedirs dd w2) as Q2. unfold same_calls in Q2.
    destruct (Os.makedirs dd w2) as [[[]|e] w3]; simpl in Q2;
      [|exists [Enter F_process_dataset]; simpl; rewrite Q2, Q1; repeat split;
        [prefix_tac | discriminate | auto]].
    pose proof (download_calls E url vd w3) as Q3.
    destruct (download_and_extract_videos E url vd w3) as [[[]|e] w4]; simpl in Q3;
      [|exists [Enter F_process_dataset; Enter F_download_and_extract_videos];
        simpl; rewrite Q3, Q2, Q1; simpl; rewrite <- app_assoc; repeat split;
        [prefix_tac | discriminate | auto]].
    pose proof (extract_calls E vd dd st w4) as Q4.
    destruct (extract_frames_from_videos E vd dd st w4) as [[[]|e] w5]; simpl in Q4.
    + eexists. simpl. rewrite Q4, Q3, Q2, Q1. simpl.
      rewrite <- !app_assoc. simpl. repeat split; [prefix_tac | simpl; auto].
    + exists [Enter F_process_dataset; Enter F_download_and_extract_videos;
              Leave F_download_and_extract_videos; Enter F_extract_frames_from_videos].
      simpl. rewrite Q4, Q3, Q2, Q1. simpl. rewrite <- !app_assoc. simpl.
      repeat split; [prefix_tac | discriminate | auto].
  - destruct (eq_str input_type "image"); simpl;
      [|exists [Enter F_process_dataset]; simpl; repeat split;
        [prefix_tac | discriminate | auto]].
    destruct (subscript3 config "data" "image" "image_dir") as [idir|e]; simpl;
      [|exists [Enter F_process_dataset]; simpl; repeat split;
        [prefix_tac | discriminate | auto]].
    set (w1 := add_stdout _ _).
    pose proof (quiet_path_exists idir w1) as Q1. unfold same_calls in Q1.
    destruct (Os.path_exists idir w1) as [[ex|e] w2]; simpl in Q1;
      [|exists [Enter F_process_dataset]; simpl; rewrite Q1; repeat split;
        [prefix_tac | discriminate | auto]].
    destruct ex; simpl;
      [|exists [Enter F_process_dataset]; simpl; rewrite Q1; repeat split;
        [prefix_tac | discriminate | auto]].
    pose proof (quiet_makedirs dd w2) as Q2. unfold same_calls in Q2.
    destruct (Os.makedirs dd w2) as [[[]|e] w3]; simpl in Q2.
    + eexists. simpl. rewrite Q2, Q1. simpl. rewrite <- !app_assoc. simpl.
      repeat split; [prefix_tac | simpl; auto].
    + exists [Enter F_process_dataset]. simpl. rewrite Q2, Q1. repeat split;
        [prefix_tac | discriminate | auto].
Qed.

Lemma auto_label_calls E image_dir dataset_dir mapping w :
  let (r, w') := auto_label_images E image_dir dataset_dir mapping w in
  exists t,
    calls w' = (calls w ++ t)%list
    /\ t `prefix_of` auto_full mapping image_dir dataset_dir
    /\ (is_ok r = true -> t = auto_full mapping image_dir dataset_dir)
    /\ In (Enter F_auto_label_images) t
    /\ In (CaptionOntologyNew mapping) t.
Proof.
  unfold auto_label_images, auto_full, Autodistill.CaptionOntology,
    Autodistill.GroundedSAM, Autodistill.label. unfold_m. simpl.
  destruct (caption_ontology_init E mapping) as [[]|e]; simpl;
    [|eexists; rewrite <- !app_assoc; simpl; repeat split;
      [prefix_tac | discriminate | simpl; auto | simpl; auto]].
  destruct (grounded_sam_init E mapping) as [[]|e]; simpl;
    [|eexists; rewrite <- !app_assoc; simpl; repeat split;
      [prefix_tac | discriminate | simpl; auto | simpl; auto]].
  destruct (grounded_sam_label E mapping image_dir dataset_dir _) as [[[]|e] m]; simpl;
    eexists; rewrite <- !app_assoc; simpl; repeat split;
    solve [prefix_tac | discriminate | simpl; auto].
Qed.

(** What a returning [auto_label_images] has asked of the library. *)
Lemma auto_label_ok E image_dir dataset_dir mapping w w' :
  auto_label_images E image_dir dataset_dir mapping w = (Ok tt, w') ->
  caption_ontology_init E mapping = Ok tt
  /\ grounded_sam_init E mapping = Ok tt
  /\ grounded_sam_label E mapping image_dir dataset_dir (fs w) = (Ok tt, fs w').
Proof.
  unfold auto_label_images, Autodistill.CaptionOntology,
    Autodistill.GroundedSAM, Autodistill.label. unfold_m. simpl.
  destruct (caption_ontology_init E mapping) as [[]|e]; simpl; [|discriminate].
  destruct (grounded_sam_init E mapping) as [[]|e]; simpl; [|discriminate].
  destruct (grounded_sam_label E mapping image_dir dataset_dir (fs w))
    as [[[]|e] m]; simpl; [|discriminate].
  intros H. inversion H. auto.
Qed.

(** What [auto_label_images] does depends on what the library answers
    for its three arguments. *)
Lemma auto_label_result E image_dir dataset_dir mapping w :
  let (r, w') := auto_label_images E image_dir dataset_dir mapping w in
  match caption_ontology_init E mapping with
  | Raise e => r = Raise e /\ fs w' = fs w
  | Ok _ =>
      match grounded_sam_init E mapping with
      | Raise e => r = Raise e /\ fs w' = fs w
      | Ok _ =>
          (r, fs w') = grounded_sam_label E mapping image_dir dataset_dir (fs w)
      end
  end.
Proof.
  unfold auto_label_images, Autodistill.CaptionOntology,
    Autodistill.GroundedSAM, Autodistill.label. unfold_m. simpl.
  destruct (caption_ontology_init E mapping) as [[]|e]; simpl; [|auto].
  destruct (grounded_sam_init E mapping) as [[]|e]; simpl; [|auto].
  destruct (grounded_sam_label E mapping image_dir dataset_dir (fs w))
    as [[[]|e] m]; reflexivity.
Qed.

(** The steps of a run of [main] that returns. *)
Lemma main_ok_run E p w w' :
  main E p w = (Ok tt, w') ->
  exists cfg it m i o wp wl,
    fst (load_config E p w) = Ok cfg
    /\ subscript2 cfg "data" "input_type" = Ok it
    /\ process_dataset E it cfg (snd (load_config E p (add_call (Enter F_main) w)))
       = (Ok tt, wp)
    /\ subscript cfg "ontology" = Ok m
    /\ subscript3 cfg "data" "image" "image_dir" = Ok i
    /\ subscript2 cfg "data" "dataset_dir" = Ok o
    /\ auto_label_images E i o m wp = (Ok tt, wl)
    /\ w' = add_call (Leave F_main) (add_stdout completion_msg wl).
Proof.
  unfold main. unfold traced at 1. unfold_m. simpl.
  pose proof (load_config_fst E p (add_call (Enter F_main) w) w eq_refl) as QF.
  destruct (load_config E p (add_call (Enter F_main) w)) as [[cfg|e] w1];
    [|discriminate].
  simpl in QF. simpl.
  destruct (subscript2 cfg "data" "input_type") as [it|e] eqn:Hit; simpl;
    [|discriminate].
  destruct (process_dataset E it cfg w1) as [[[]|e] wp] eqn:Hpd; [|discriminate].
  destruct (subscript cfg "ontology") as [m|e] eqn:Hm; simpl; [|discriminate].
  destruct (subscript3 cfg "data" "image" "image_dir") as [i|e] eqn:Hi; simpl;
    [|discriminate].
  destruct (subscript2 cfg "data" "dataset_dir") as [o|e] eqn:Ho; simpl;
    [|discriminate].
  destruct (auto_label_images E i o m wp) as [[[]|e] wl] eqn:Hal; [|discriminate].
  intros H. inversion H.
  exists cfg, it, m, i, o, wp, wl. repeat split; auto.
Qed.

Lemma not_in_pd_full input_type x :
  In x (pd_full input_type) ->
  x <> Enter F_auto_label_images /\ (forall m, x <> CaptionOntologyNew m)
  /\ (forall m, x <> GroundedSAMNew m) /\ (forall i o, x <> LabelCall i o)
  /\ x <> Leave F_main.
Proof.
  unfold pd_full. destruct (eq_str input_type "video"); simpl;
    intuition (subst; discriminate).
Qed.

Lemma main_calls E p w :
  let (r, w') := main E p w in
  exists t it m i o,
    calls w' = (calls w ++ t)%list
    /\ t `prefix_of` main_full it m i o
    /\ (is_ok r = true -> t = main_full it m i o)
    /\ (In (Enter F_process_dataset) t ->
        exists cfg, fst (load_config E p w) = Ok cfg
                    /\ subscript2 cfg "data" "input_type" = Ok it)
    /\ (forall cfg it0, fst (load_config E p w) = Ok cfg ->
        subscript2 cfg "data" "input_type" = Ok it0 ->
        In (Enter F_process_dataset) t)
    /\ (In (Enter F_auto_label_images) t ->
        exists cfg, fst (load_config E p w) = Ok cfg
                    /\ subscript cfg "ontology" = Ok m
                    /\ subscript3 cfg "data" "image" "image_dir" = Ok i
                    /\ subscript2 cfg "data" "dataset_dir" = Ok o).
Proof.
  unfold main. unfold traced at 1. unfold_m. simpl.
  pose proof (load_config_calls E p (add_call (Enter F_main) w)) as QL.
  pose proof (load_config_fst E p (add_call (Enter F_main) w) w eq_refl) as QF.
  destruct (load_config E p (add_call (Enter F_main) w)) as [[cfg|e] w1];
    simpl in QL, QF.
  2:{ exists [Enter F_main; Enter F_load_config], YNull, YNull, YNull, YNull.
      rewrite QL. simpl. rewrite <- app_assoc. simpl.
      split; [reflexivity|]. split; [prefix_tac|]. split; [discriminate|].
      split; [intuition discriminate|].
      split; [intros cfg it0 H; rewrite <- QF in H; discriminate|].
      intuition discriminate. }
  destruct (subscript2 cfg "data" "input_type") as [it|e] eqn:Hit; simpl.
  2:{ exists [Enter F_main; Enter F_load_config; Leave F_load_config],
        YNull, YNull, YNull, YNull.
      rewrite QL. simpl. rewrite <- app_assoc. simpl.
      split; [reflexivity|]. split; [prefix_tac|]. split; [discriminate|].
      split; [intuition discriminate|].
      split; [intros cfg' it0 H; rewrite <- QF in H; inversion H; subst cfg';
              rewrite Hit; discriminate|].
      intuition discriminate. }
  pose proof (process_dataset_calls E it cfg w1) as QP.
  destruct (process_dataset E it cfg w1) as [rp w2].
  destruct QP as (tpd & Hcalls2 & Hpre & Hfull & Hin).
  assert (Hcfg : exists cfg0, fst (load_config E p w) = Ok cfg0
                   /\ subscript2 cfg0 "data" "input_type" = Ok it).
  { exists cfg. split; [symmetry; exact QF | exact Hit]. }
  assert (Hnot : forall suffix, (forall x, In x suffix -> False) ->
            In (Enter F_auto_label_images)
              ([Enter F_main; Enter F_load_config; Leave F_load_config]
               ++ tpd ++ suffix)%list -> False).
  { intros suffix Hs H. simpl in H.
    destruct H as [H|[H|[H|H]]]; try discriminate.
    apply List.in_app_or in H. destruct H as [H|H]; [|exact (Hs _ H)].
    apply (in_prefix _ _ _ Hpre) in H. apply not_in_pd_full in H. tauto. }
  assert (Hcalls : calls w2
            = (calls w ++ [Enter F_main; Enter F_load_config; Leave F_load_config]
               ++ tpd)%list).
  { rewrite Hcalls2, QL. simpl. rewrite <- !app_assoc. reflexivity. }
  assert (Hpd_in : forall suffix,
            In (Enter F_process_dataset)
              ([Enter F_main; Enter F_load_config; Leave F_load_config]
               ++ tpd ++ suffix)%list).
  { intros suffix. simpl. right. right. right. apply List.in_or_app. left. exact Hin. }
  destruct rp as [[]|e].
  2:{ exists ([Enter F_main; Enter F_load_config; Leave F_load_config] ++ tpd)%list,
        it, YNull, YNull, YNull.
      split; [exact Hcalls|].
      split; [unfold main_full; apply prefix_app, prefix_app_r; exact Hpre|].
      split; [discriminate|]. split; [intros _; exact Hcfg|].
      split; [intros; rewrite <- (app_nil_r tpd); apply Hpd_in|].
      intros H. exfalso. rewrite <- (app_nil_r tpd) in H.
      apply (Hnot [] (fun x Hx => Hx) H). }
  specialize (Hfull eq_refl). subst tpd.
  assert (Hstop : forall r0 : result unit, is_ok r0 = false ->
            exists t it0 m i o,
              calls w2 = (calls w ++ t)%list
              /\ t `prefix_of` main_full it0 m i o
              /\ (is_ok r0 = true -> t = main_full it0 m i o)
              /\ (In (Enter F_process_dataset) t ->
                  exists cfg0, fst (load_config E p w) = Ok cfg0
                               /\ subscript2 cfg0 "data" "input_type" = Ok it0)
              /\ (forall cfg0 it1, fst (load_config E p w) = Ok cfg0 ->
                  subscript2 cfg0 "data" "input_type" = Ok it1 ->
                  In (Enter F_process_dataset) t)
              /\ (In (Enter F_auto_label_images) t ->
                  exists cfg0, fst (load_config E p w) = Ok cfg0
                               /\ subscript cfg0 "ontology" = Ok m
                               /\ subscript3 cfg0 "data" "image" "image_dir" = Ok i
                               /\ subscript2 cfg0 "data" "dataset_dir" = Ok o)).
  { intros r0 Hr0.
    exists ([Enter F_main; Enter F_load_config; Leave F_load_config]
            ++ pd_full it)%list, it, YNull, YNull, YNull.
    split; [exact Hcalls|].
    split; [unfold main_full; apply prefix_app, prefix_app_r; reflexivity|].
    split; [rewrite Hr0; discriminate|]. split; [intros _; exact Hcfg|].
    split; [intros; rewrite <- (app_nil_r (pd_full it)); apply Hpd_in|].
    intros H. exfalso. rewrite <- (app_nil_r (pd_full it)) in H.
    apply (Hnot [] (fun x Hx => Hx) H). }
  destruct (subscript cfg "ontology") as [m|e] eqn:Hm; simpl;
    [|exact (Hstop (Raise e) eq_refl)].
  destruct (subscript3 cfg "data" "image" "image_dir") as [i|e] eqn:Hi; simpl;
    [|exact (Hstop (Raise e) eq_refl)].
  destruct (subscript2 cfg "data" "dataset_dir") as [o|e] eqn:Ho; simpl;
    [|exact (Hstop (Raise e) eq_refl)].
  clear Hstop.
  pose proof (auto_label_calls E i o m w2) as QA.
  destruct (auto_label_images E i o m w2) as [ra w3].
  destruct QA as (tal & Hcalls3 & Hpre3 & Hfull3 & Hin3 & _).
  assert (Hlab : exists cfg0, fst (load_config E p w) = Ok cfg0
                   /\ subscript cfg0 "ontology" = Ok m
                   /\ subscript3 cfg0 "data" "image" "image_dir" = Ok i
                   /\ subscript2 cfg0 "data" "dataset_dir" = Ok o).
  { exists cfg. split; [symmetry; exact QF | auto]. }
  destruct ra as [[]|e]; simpl.
  - specialize (Hfull3 eq_refl). subst tal.
    exists (main_full it m i o), it, m, i, o.
    split; [rewrite Hcalls3, Hcalls; unfold main_full; rewrite <- !app_assoc;
            reflexivity|].
    split; [reflexivity|]. split; [reflexivity|]. split; [intros _; exact Hcfg|].
    split; [intros; apply Hpd_in|]. intros _. exact Hlab.
  - exists ([Enter F_main; Enter F_load_config; Leave F_load_config]
            ++ pd_full it ++ tal)%list, it, m, i, o.
    split; [rewrite Hcalls3, Hcalls; rewrite <- !app_assoc; reflexivity|].
    split; [unfold main_full; do 2 apply prefix_app; apply prefix_app_r; exact Hpre3|].
    split; [discriminate|]. split; [intros _; exact Hcfg|].
    split; [intros; apply Hpd_in|]. intros _. exact Hlab.
Qed.

Ltac before_tac :=
  let H := fresh "H" in
  let t1 := fresh "t1" in
  let t2 := fresh "t2" in
  intros t1 t2 H;
  repeat (destruct t1 as [|? t1]; simpl in H;
          [ try discriminate H; try (simpl; tauto) | injection H as <- H ]);
  try (destruct t1; discriminate H).

Lemma main_full_nodup it m i o : List.NoDup (main_full it m i o).
Proof.
  unfold main_full, pd_full, auto_full.
  destruct (eq_str it "video"); simpl;
    repeat (constructor; [simpl; intuition discriminate|]); constructor.
Qed.

Lemma main_full_order it m i o :
  before (main_full it m i o) (Leave F_load_config) (Enter F_process_dataset)
  /\ before (main_full it m i o) (Leave F_process_dataset) (Enter F_auto_label_images)
  /\ before (main_full it m i o) (Leave F_download_and_extract_videos)
       (Enter F_extract_frames_from_videos)
  /\ before (main_full it m i o) (Enter F_process_dataset)
       (Enter F_download_and_extract_videos)
  /\ before (main_full it m i o) (Enter F_auto_label_images)
       (CaptionOntologyNew m)
  /\ before (main_full it m i o) (Enter F_auto_label_images)
       (LabelCall i o).
Proof.
  unfold main_full, pd_full, auto_full.
  destruct (eq_str it "video"); simpl; repeat split; before_tac.
Qed.

(** C7: the functions a run of [main] enters and leaves form one
    sequence without repetition: no function is entered twice;
    [process_dataset] is entered only after [load_config] has returned, and
    it is entered in every run in which the configuration loads and names
    an input type; the download is entered only inside [process_dataset],
    the extraction only after the download has returned, and
    [auto_label_images] only after [process_dataset] has returned; a run
    that completes went through both. *)
Theorem main_runs_in_sequence (E : Env) (p : string) (w : world) :
  let (r, w') := main E p w in
  exists t,
    calls w' = (calls w ++ t)%list
    /\ List.NoDup t
    /\ before t (Leave F_load_config) (Enter F_process_dataset)
    /\ before t (Leave F_process_dataset) (Enter F_auto_label_images)
    /\ before t (Leave F_download_and_extract_videos)
         (Enter F_extract_frames_from_videos)
    /\ before t (Enter F_process_dataset) (Enter F_download_and_extract_videos)
    /\ (forall cfg it, fst (load_config E p w) = Ok cfg ->
        subscript2 cfg "data" "input_type" = Ok it ->
        In (Enter F_process_dataset) t)
    /\ (is_ok r = true ->
        In (Leave F_process_dataset) t /\ In (Enter F_auto_label_images) t).
Proof.
  pose proof (main_calls E p w) as MC.
  destruct (main E p w) as [r w'].
  destruct MC as (t & it & m & i & o & Hcalls & Hpre & Hfull & _ & Hpd & _).
  destruct (main_full_order it m i o) as (O1 & O2 & O3 & O4 & _).
  exists t. split; [exact Hcalls|].
  split; [exact (nodup_prefix _ _ Hpre (main_full_nodup it m i o))|].
  split; [exact (before_prefix _ _ _ _ Hpre O1)|].
  split; [exact (before_prefix _ _ _ _ Hpre O2)|].
  split; [exact (before_prefix _ _ _ _ Hpre O3)|].
  split; [exact (before_prefix _ _ _ _ Hpre O4)|].
  split; [exact Hpd|].
  intros Hok. rewrite (Hfull Hok). unfold main_full, pd_full, auto_full.
  destruct (eq_str it "video"); simpl; tauto.
Qed.

Lemma main_runs_in_sequence_witness :
  let w' := snd (main Scenario.env "config.yaml" Scenario.world_with_images) in
  In (Leave F_process_dataset) (calls w')
  /\ In (Enter F_auto_label_images) (calls w').
Proof.
  cbv zeta.
  pose proof (main_runs_in_sequence Scenario.env "config.yaml"
                Scenario.world_with_images) as H.
  assert (Hok : is_ok (fst (main Scenario.env "config.yaml"
                              Scenario.world_with_images)) = true)
    by (vm_compute; reflexivity).
  destruct (main Scenario.env "config.yaml" Scenario.world_with_images) as [r w'].
  destruct H as (t & Hcalls & _ & _ & _ & _ & _ & _ & Hfin).
  destruct (Hfin Hok) as [H1 H2]. simpl. rewrite Hcalls.
  split; apply List.in_or_app; right; assumption.
Defined.

(** C6: [auto_label_images] hands the mapping it receives to the
    [CaptionOntology] constructor, and constructs no ontology from anything
    else: the constructor is called once, on that mapping, and when it
    raises the call raises the same with no file touched; the model is
    built on the ontology of that mapping, and what [label] does is what
    the library does for that mapping and the two folders.  In a run of
    [main], every mapping handed to the constructor is the value
    [config['ontology']] of the configuration that was loaded, and a run
    that completes did construct it. *)
Theorem ontology_passed_unmodified (E : Env) :
  (forall image_dir dataset_dir mapping w,
     let (r, w') := auto_label_images E image_dir dataset_dir mapping w in
     (exists t,
        calls w' = (calls w ++ t)%list
        /\ In (CaptionOntologyNew mapping) t
        /\ (forall m', In (CaptionOntologyNew m') t -> m' = mapping)
        /\ (forall m', In (GroundedSAMNew m') t -> m' = mapping))
     /\ match caption_ontology_init E mapping with
        | Raise e => r = Raise e /\ fs w' = fs w
        | Ok _ =>
            match grounded_sam_init E mapping with
            | Raise e => r = Raise e /\ fs w' = fs w
            | Ok _ =>
                (r, fs w')
                = grounded_sam_label E mapping image_dir dataset_dir (fs w)
            end
        end)
  /\ (forall p w,
        let (r, w') := main E p w in
        exists t,
          calls w' = (calls w ++ t)%list
          /\ (forall m', In (CaptionOntologyNew m') t ->
              exists cfg, fst (load_config E p w) = Ok cfg
                          /\ subscript cfg "ontology" = Ok m')
          /\ (is_ok r = true -> exists m', In (CaptionOntologyNew m') t)).
Proof.
  split.
  - intros image_dir dataset_dir mapping w.
    pose proof (auto_label_calls E image_dir dataset_dir mapping w) as AC.
    pose proof (auto_label_result E image_dir dataset_dir mapping w) as AR.
    destruct (auto_label_images E image_dir dataset_dir mapping w) as [r w'].
    split; [|exact AR].
    destruct AC as (t & Hcalls & Hpre & _ & _ & Hin).
    exists t. split; [exact Hcalls|]. split; [exact Hin|]. split.
    + intros m' Hm'. apply (in_prefix _ _ _ Hpre) in Hm'. unfold auto_full in Hm'.
      simpl in Hm'. intuition congruence.
    + intros m' Hm'. apply (in_prefix _ _ _ Hpre) in Hm'. unfold auto_full in Hm'.
      simpl in Hm'. intuition congruence.
  - intros p w. pose proof (main_calls E p w) as MC.
    destruct (main E p w) as [r w'].
    destruct MC as (t & it & m & i & o & Hcalls & Hpre & Hfull & _ & _ & Hauto).
    exists t. split; [exact Hcalls|]. split.
    + intros m' Hm'.
      assert (m' = m) as ->.
      { pose proof (in_prefix _ _ _ Hpre Hm') as H. unfold main_full in H.
        apply List.in_app_or in H.
        destruct H as [H|H]; [simpl in H; intuition discriminate|].
        apply List.in_app_or in H. destruct H as [H|H].
        - apply not_in_pd_full in H. destruct H as (_ & H & _).
          exfalso. exact (H m' eq_refl).
        - simpl in H. intuition congruence. }
      destruct (main_full_order it m i o) as (_ & _ & _ & _ & O5 & _).
      pose proof (before_prefix _ _ _ _ Hpre O5) as B.
      destruct (List.in_split _ _ Hm') as (t1 & t2 & Ht).
      assert (Henter : In (Enter F_auto_label_images) t).
      { rewrite Ht. apply List.in_or_app. left. exact (B t1 t2 Ht). }
      destruct (Hauto Henter) as (cfg & Hl & Ho & _). eauto.
    + intros Hok. exists m. rewrite (Hfull Hok). unfold main_full, pd_full, auto_full.
      destruct (eq_str it "video"); simpl; tauto.
Qed.

Lemma ontology_passed_unmodified_witness :
  exists m,
    In (CaptionOntologyNew m)
       (calls (snd (main Scenario.env "config.yaml" Scenario.world_with_images)))
    /\ subscript Scenario.image_config "ontology" = Ok m.
Proof.
  destruct (ontology_passed_unmodified Scenario.env) as [_ H].
  specialize (H "config.yaml" Scenario.world_with_images).
  assert (Hok : is_ok (fst (main Scenario.env "config.yaml"
                              Scenario.world_with_images)) = true)
    by (vm_compute; reflexivity).
  destruct (main Scenario.env "config.yaml" Scenario.world_with_images) as [r w'].
  destruct H as (t & Hcalls & Harg & Hrun).
  destruct (Hrun Hok) as (m & Hm). exists m. split.
  - simpl. rewrite Hcalls. apply List.in_or_app. right. exact Hm.
  - destruct (Harg m Hm) as (cfg & Hload & Hont).
    vm_compute in Hload. inversion Hload; subst cfg. exact Hont.
Defined.

(** ** The labeling input directory (C10) *)

(** C10, counterexample: a video-mode configuration whose [image:]
    section is empty omits [image_dir]; [main] then raises [TypeError]
    (subscripting [None]), not [KeyError], after the extraction.  And with
    [image_dir] set to the dataset directory, the folder labeled is the
    folder the frames were extracted into. *)
Lemma main_empty_image_section_typeerror :
  (fst (main Scenario.env "config.yaml"
          (Scenario.world_with_config "VIDEO-EMPTY-IMAGE")) = Raise TypeError
   /\ In (Leave F_extract_frames_from_videos)
         (calls (snd (main Scenario.env "config.yaml"
                        (Scenario.world_with_config "VIDEO-EMPTY-IMAGE")))))
  /\ List.filter (fun e => match e with LabelCall _ _ => true | _ => false end)
       (calls (snd (main Scenario.env "config.yaml"
                      (Scenario.world_with_config "VIDEO-SAME-DIR"))))
     = [LabelCall (YStr "out") (YStr "out")].
Proof.
  split; [split|].
  - vm_compute. reflexivity.
  - vm_compute. do 7 right. left. reflexivity.
  - vm_compute. reflexivity.
Qed.

(** C10, amended: in a run of [main], whatever the input type, every
    call of the labeler's [label] gets [config['data']['image']['image_dir']]
    as its input folder and [config['data']['dataset_dir']] as its output
    folder (in video mode the folder the frames were extracted into is
    the output folder, and is the folder labeled only if the configuration
    gives both the same path); a run that completes made that call, and
    its files are what the library's [label] made, for these two folders
    and [config['ontology']], of the files [process_dataset] left.  When
    the [image_dir] lookup raises -- [KeyError] if [data.image] is missing
    or is a mapping without [image_dir], [TypeError] if [data.image] is no
    mapping -- and [process_dataset] returns, [main] raises that exception
    (or the [KeyError] of a missing [ontology], which is looked up first)
    with the filesystem exactly as [process_dataset] left it: in video
    mode download and extraction were entered and left, and the labeler
    was never entered.  When [process_dataset] raises, [main] raises the
    same. *)
Theorem labeling_reads_image_dir (E : Env) (p : string) (w : world) (cfg it : yaml) :
  fst (load_config E p w) = Ok cfg ->
  subscript2 cfg "data" "input_type" = Ok it ->
  let w0 := snd (load_config E p (add_call (Enter F_main) w)) in
  let (rp, wp) := process_dataset E it cfg w0 in
  let (r, w') := main E p w in
  exists t,
    calls w' = (calls w ++ t)%list
    /\ (forall i o, In (LabelCall i o) t ->
        subscript3 cfg "data" "image" "image_dir" = Ok i
        /\ subscript2 cfg "data" "dataset_dir" = Ok o)
    /\ (is_ok r = true ->
        exists m i o,
          subscript cfg "ontology" = Ok m
          /\ subscript3 cfg "data" "image" "image_dir" = Ok i
          /\ subscript2 cfg "data" "dataset_dir" = Ok o
          /\ In (LabelCall i o) t
          /\ grounded_sam_label E m i o (fs wp) = (Ok tt, fs w'))
    /\ (forall e, subscript3 cfg "data" "image" "image_dir" = Raise e ->
        (e = KeyError "image" \/ e = KeyError "image_dir" \/ e = TypeError)
        /\ match rp with
           | Ok _ =>
               (r = Raise e \/ r = Raise (KeyError "ontology"))
               /\ fs w' = fs wp /\ imwrites w' = imwrites wp
               /\ (eq_str it "video" = true ->
                   In (Leave F_download_and_extract_videos) t
                   /\ In (Leave F_extract_frames_from_videos) t)
               /\ ~ In (Enter F_auto_label_images) t
           | Raise e0 => r = Raise e0
           end).
Proof.
  intros Hl Hit. cbv zeta.
  pose proof (load_config_calls E p (add_call (Enter F_main) w)) as QL.
  pose proof (load_config_fst E p (add_call (Enter F_main) w) w eq_refl) as QF.
  pose proof (process_dataset_calls E it cfg
                (snd (load_config E p (add_call (Enter F_main) w)))) as QP.
  destruct (process_dataset E it cfg
              (snd (load_config E p (add_call (Enter F_main) w)))) as [rp wp] eqn:Hpd.
  destruct QP as (tpd & Hcalls2 & _ & Hfull2 & _).
  pose proof (main_calls E p w) as MC.
  destruct (main E p w) as [r w'] eqn:Hmain.
  destruct MC as (t & it0 & m & i & o & Hcalls & Hpre & Hfull & _ & _ & Hauto).
  exists t. split; [exact Hcalls|]. split; [|split].
  - intros i' o' Hin.
    assert (i' = i /\ o' = o) as [-> ->].
    { pose proof (in_prefix _ _ _ Hpre Hin) as H. unfold main_full in H.
      apply List.in_app_or in H.
      destruct H as [H|H]; [simpl in H; intuition discriminate|].
      apply List.in_app_or in H. destruct H as [H|H].
      - apply not_in_pd_full in H. destruct H as (_ & _ & _ & H & _).
        exfalso. exact (H i' o' eq_refl).
      - simpl in H. intuition congruence. }
    destruct (main_full_order it0 m i o) as (_ & _ & _ & _ & _ & O6).
    pose proof (before_prefix _ _ _ _ Hpre O6) as B.
    destruct (List.in_split _ _ Hin) as (t1 & t2 & Ht).
    assert (Henter : In (Enter F_auto_label_images) t).
    { rewrite Ht. apply List.in_or_app. left. exact (B t1 t2 Ht). }
    destruct (Hauto Henter) as (cfg0 & Hl0 & _ & Hi0 & Ho0).
    rewrite Hl in Hl0. inversion Hl0; subst cfg0. auto.
  - intros Hok. destruct r as [[]|e]; [|discriminate].
    destruct (main_ok_run E p w w' Hmain)
      as (cfg1 & it1 & m1 & i1 & o1 & wp1 & wl & Hl1 & Hit1 & Hpd1 & Hm1 & Hi1
          & Ho1 & Hal & Hw').
    rewrite Hl in Hl1. inversion Hl1; subst cfg1.
    rewrite Hit in Hit1. inversion Hit1; subst it1.
    rewrite Hpd in Hpd1. inversion Hpd1; subst rp wp1.
    exists m1, i1, o1. repeat (split; [assumption|]).
    specialize (Hfull eq_refl). subst t.
    assert (Henter : In (Enter F_auto_label_images) (main_full it0 m i o)).
    { unfold main_full, pd_full, auto_full.
      destruct (eq_str it0 "video"); simpl; tauto. }
    destruct (Hauto Henter) as (cfg0 & Hl0 & _ & Hi0 & Ho0).
    rewrite Hl in Hl0. inversion Hl0; subst cfg0.
    rewrite Hi1 in Hi0. inversion Hi0; subst i.
    rewrite Ho1 in Ho0. inversion Ho0; subst o.
    split.
    + unfold main_full, pd_full, auto_full.
      destruct (eq_str it0 "video"); simpl; tauto.
    + destruct (auto_label_ok E i1 o1 m1 wp wl Hal) as (_ & _ & Hlab).
      subst w'. exact Hlab.
  - intros e0 Hkey. split.
    { clear - Hit Hkey. unfold subscript3, subscript2, subscript in *.
      destruct cfg; try discriminate.
      destruct (dict_get "data" items) as [[]|]; try discriminate.
      destruct (dict_get "image" items0) as [[]|];
        try (inversion Hkey; auto; fail).
      destruct (dict_get "image_dir" items1); inversion Hkey; auto. }
    unfold main in Hmain. unfold traced at 1 in Hmain. unfold_m. simpl in Hmain.
    destruct (load_config E p (add_call (Enter F_main) w)) as [rl w1].
    simpl in QL, QF, Hpd, Hcalls2. rewrite Hl in QF. subst rl. simpl in Hmain.
    rewrite Hit in Hmain. simpl in Hmain. rewrite Hpd in Hmain.
    destruct rp as [[]|e]; [|inversion Hmain; reflexivity].
    specialize (Hfull2 eq_refl). subst tpd. rewrite Hkey in Hmain.
    assert (Hr : (r = Raise e0 \/ r = Raise (KeyError "ontology")) /\ w' = wp).
    { destruct cfg; simpl in Hit; try discriminate.
      simpl in Hmain. destruct (dict_get "ontology" items); simpl in Hmain;
        inversion Hmain; auto. }
    destruct Hr as [Hr ->]. split; [exact Hr|].
    split; [reflexivity|]. split; [reflexivity|].
    rewrite Hcalls2, QL in Hcalls. rewrite <- !app_assoc in Hcalls.
    apply List.app_inv_head in Hcalls. subst t.
    unfold pd_full. destruct (eq_str it "video"); simpl; intuition discriminate.
Qed.

Lemma labeling_reads_image_dir_witness :
  let w := Scenario.world_with_config "VIDEO" in
  let wp := snd (process_dataset Scenario.env (YStr "video") Scenario.video_config
                   (snd (load_config Scenario.env "config.yaml"
                           (add_call (Enter F_main) w)))) in
  let (r, w') := main Scenario.env "config.yaml" w in
  (exists key, r = Raise (KeyError key)) /\ fs w' = fs wp.
Proof.
  cbv zeta.
  pose proof (labeling_reads_image_dir Scenario.env "config.yaml"
                (Scenario.world_with_config "VIDEO") Scenario.video_config
                (YStr "video") eq_refl eq_refl) as H.
  cbv zeta in H.
  assert (Hrp : fst (process_dataset Scenario.env (YStr "video") Scenario.video_config
                       (snd (load_config Scenario.env "config.yaml"
                               (add_call (Enter F_main)
                                  (Scenario.world_with_config "VIDEO")))))
                = Ok tt) by (vm_compute; reflexivity).
  destruct (process_dataset Scenario.env (YStr "video") Scenario.video_config _)
    as [rp wp].
  simpl in Hrp. subst rp.
  destruct (main Scenario.env "config.yaml" (Scenario.world_with_config "VIDEO"))
    as [r w'].
  destruct H as (t & _ & _ & _ & H).
  destruct (H (KeyError "image") eq_refl) as (_ & Hr & Hfs & _).
  split; [|exact Hfs].
  destruct Hr as [Hr|Hr]; rewrite Hr; eauto.
Defined.

(** In that run the extracted frames and the archive are on disk when
    [main] stops. *)
Example video_run_leaves_files :
  let w' := snd (main Scenario.env "config.yaml" (Scenario.world_with_config "VIDEO")) in
  fs w' !! "out/clip-00002.png" = Some (File "png:f4")
  /\ fs w' !! "videos/videos.zip" = Some (File "ZIP").
Proof. split; vm_compute; reflexivity. Qed.

(** With an [image] section, the video-mode run labels the folder that
    section names, not the folder the frames went to. *)
Example video_mode_labels_image_dir :
  List.filter (fun e => match e with LabelCall _ _ => true | _ => false end)
    (calls (snd (main Scenario.env "config.yaml"
                   (Scenario.world_with_config "VIDEO-FULL"))))
  = [LabelCall (YStr "imgs") (YStr "out")].
Proof. vm_compute. reflexivity. Qed.

(** ** The command line and the last message (C9) *)

Lemma bind_ok {A B} (m : M A) (k : A -> M B) w b w' :
  bind m k w = (Ok b, w') -> exists a w1, m w = (Ok a, w1) /\ k a w1 = (Ok b, w').
Proof.
  unfold bind. destruct (m w) as [[a|e] w1]; intros H; [eauto | discriminate].
Qed.

Lemma main_ok_last E p w w' :
  main E p w = (Ok tt, w') ->
  exists w0, w' = add_call (Leave F_main) (add_stdout completion_msg w0).
Proof.
  unfold main, traced. intros H.
  apply bind_ok in H. destruct H as (u1 & w1 & _ & H).
  apply bind_ok in H. destruct H as (u2 & w2 & Hbody & H).
  apply bind_ok in H. destruct H as (u3 & w3 & Hleave & H).
  inversion H; subst. inversion Hleave; subst. clear H Hleave.
  do 7 (apply bind_ok in Hbody; destruct Hbody as (? & ? & _ & Hbody)).
  inversion Hbody. eauto.
Qed.

(** C9: without a [--config] option the script runs [main] on
    ["config.yaml"], in every world: the exit status and the final world
    are those of that run, whether it finds a configuration there or not;
    with the option, it runs [main] on the path given.  And whenever the
    command line yields a path and [main] returns on it, the exit status
    is 0 and the last thing the run did is print
    ["Dataset construction complete."]: the final world is the world
    [auto_label_images] left, plus that line (and the exit of [main] in
    the call log). *)
Theorem script_prints_completion (E : Env) (w : world) :
  script E NoConfigOption w
  = (exit_status (fst (main E "config.yaml" w)), snd (main E "config.yaml" w))
  /\ (forall path,
        script E (ConfigOption path) w
        = (exit_status (fst (main E path w)), snd (main E path w)))
  /\ (forall cl path,
        fst (parse_args E cl w) = Ok path ->
        fst (main E path w) = Ok tt ->
        let (status, w') := script E cl w in
        status = 0%Z
        /\ List.last (stdout w') EmptyString = completion_msg
        /\ exists w0, w' = add_call (Leave F_main) (add_stdout completion_msg w0)).
Proof.
  split; [|split].
  - unfold script, bind. simpl. destruct (main E "config.yaml" w); reflexivity.
  - intros path. unfold script, bind. simpl. destruct (main E path w); reflexivity.
  - intros cl path Hargs Hmain. unfold script, bind.
    assert (Hp : parse_args E cl w = (Ok path, w)).
    { destruct cl; simpl in *; try discriminate; inversion Hargs; reflexivity. }
    rewrite Hp. destruct (main E path w) as [r w'] eqn:Hrun. simpl in Hmain. subst r.
    destruct (main_ok_last E path w w' Hrun) as (w0 & ->).
    split; [reflexivity|].
    split; [simpl; apply List.last_last | eauto].
Qed.

Lemma script_prints_completion_witness :
  (let (status, w') := script Scenario.env NoConfigOption Scenario.world_with_images in
   status = 0%Z /\ List.last (stdout w') EmptyString = completion_msg)
  /\ script Scenario.env NoConfigOption Scenario.empty_world
     = (1%Z, add_call (Enter F_load_config)
               (add_call (Enter F_main) Scenario.empty_world)).
Proof.
  destruct (script_prints_completion Scenario.env Scenario.world_with_images)
    as (_ & _ & H).
  specialize (H NoConfigOption "config.yaml" eq_refl ltac:(vm_compute; reflexivity)).
  split.
  - destruct (script Scenario.env NoConfigOption Scenario.world_with_images)
      as [status w'].
    destruct H as (Hs & Hl & _). auto.
  - rewrite (proj1 (script_prints_completion Scenario.env Scenario.empty_world)).
    vm_compute. reflexivity.
Defined.

(** * Further properties of the script *)

(** ** Failures before the router *)

(** X1: when the configuration cannot be loaded, [main] raises the loader's
    exception at once: nothing is printed, no file is touched, and
    [process_dataset] is never entered.  When [os.stat] finds nothing at
    the path (which holds no NUL), the exception tells why:
    [FileNotFoundError] when nothing is at the path and no regular file
    is on the way to it; [NotADirectoryError] when a regular file is on
    the way, or at the path itself, written with a trailing separator. *)
Theorem main_config_unreadable (E : Env) (p : string) (w : world) (e : exn) :
  fst (load_config E p w) = Raise e ->
  main E p w
  = (Raise e, add_call (Enter F_load_config) (add_call (Enter F_main) w))
  /\ (PosixPath.has_nul p = false -> Os.stat (fs w) p = None ->
      (fs w !! Os.norm p = None -> Os.under_file (fs w) p = false ->
       e = FileNotFoundError p)
      /\ (PosixPath.is_empty p = false ->
          Os.under_file (fs w) p = true \/ is_Some (fs w !! Os.norm p) ->
          e = NotADirectoryError)).
Proof.
  unfold main, load_config, Os.read_file, Os.stat. unfold_m. simpl.
  destruct (PosixPath.is_empty p); simpl.
  { intros H. inversion H; subst. split; [reflexivity|].
    intros _ _. split; [reflexivity | discriminate]. }
  destruct (PosixPath.has_nul p); simpl.
  { intros H. inversion H; subst. split; [reflexivity | discriminate]. }
  destruct (fs w !! Os.norm p) as [[|c]|]; simpl.
  - intros H. inversion H; subst. split; [reflexivity | discriminate].
  - destruct (PosixPath.ends_with_sep p); simpl.
    + intros H. inversion H; subst. split; [reflexivity|].
      intros _ _. split; [discriminate | reflexivity].
    + destruct (yaml_safe_load E c); simpl; intros H; [discriminate|].
      inversion H; subst. split; [reflexivity | discriminate].
  - destruct (Os.under_file (fs w) p); simpl; intros H; inversion H; subst;
      (split; [reflexivity|]); intros _ _; split; try reflexivity; try discriminate.
    intros _ [Hu|[x Hx]]; discriminate.
Qed.

Lemma main_config_unreadable_witness :
  main Scenario.env "config.yaml/x" (Scenario.world_with_config "IMAGE")
  = (Raise NotADirectoryError,
     add_call (Enter F_load_config)
       (add_call (Enter F_main) (Scenario.world_with_config "IMAGE"))).
Proof.
  exact (proj1 (main_config_unreadable Scenario.env "config.yaml/x"
                  (Scenario.world_with_config "IMAGE") NotADirectoryError
                  ltac:(vm_compute; reflexivity))).
Defined.

(** X2: when the configuration loads but [config['data']['input_type']]
    cannot be read, [main] raises that lookup's exception -- a [KeyError]
    for [data] or [input_type], or [TypeError] when the configuration or
    its [data] is no mapping -- with nothing printed, no file touched and
    [process_dataset] never entered. *)
Theorem main_input_type_unreadable (E : Env) (p : string) (w : world)
    (cfg : yaml) (e : exn) :
  fst (load_config E p w) = Ok cfg ->
  subscript2 cfg "data" "input_type" = Raise e ->
  main E p w
  = (Raise e,
     add_call (Leave F_load_config)
       (add_call (Enter F_load_config) (add_call (Enter F_main) w)))
  /\ (e = KeyError "data" \/ e = KeyError "input_type" \/ e = TypeError).
Proof.
  intros Hload Hit. split.
  - rewrite <- (load_config_fst E p (add_call (Enter F_main) w) w eq_refl) in Hload.
    apply load_config_ok in Hload.
    unfold main. unfold traced at 1. unfold_m. simpl. rewrite Hload. simpl.
    rewrite Hit. reflexivity.
  - clear Hload. unfold subscript2, subscript in Hit.
    destruct cfg; try (inversion Hit; auto; fail).
    destruct (dict_get "data" items) as [[]|]; try (inversion Hit; auto; fail).
    destruct (dict_get "input_type" items0); inversion Hit; auto.
Qed.

Lemma main_input_type_unreadable_witness :
  fst (main (Cases.env_with Cases.untyped_config (Ok "ZIP")) "config.yaml"
         (Scenario.world_with_config "ANY"))
  = Raise (KeyError "input_type").
Proof.
  rewrite (proj1 (main_input_type_unreadable
                    (Cases.env_with Cases.untyped_config (Ok "ZIP")) "config.yaml"
                    (Scenario.world_with_config "ANY") Cases.untyped_config
                    (KeyError "input_type") eq_refl eq_refl)).
  reflexivity.
Defined.

(** ** The router's branches *)

(** X3: the video branch reads all of its settings before it touches
    anything: unless [data.dataset_dir], [data.video], [video_url],
    [video_dir] and [frame_stride] can all be read, [process_dataset]
    raises with the filesystem unchanged, nothing handed to the image
    writer, and neither download nor extraction entered. *)
Theorem video_branch_reads_settings_first (E : Env) (input_type config : yaml)
    (w : world) :
  eq_str input_type "video" = true ->
  let (r, w') := process_dataset E input_type config w in
  (exists dd vc url vd st,
     subscript2 config "data" "dataset_dir" = Ok dd
     /\ subscript2 config "data" "video" = Ok vc
     /\ subscript vc "video_url" = Ok url
     /\ subscript vc "video_dir" = Ok vd
     /\ subscript vc "frame_stride" = Ok st)
  \/ (is_ok r = false /\ fs w' = fs w /\ imwrites w' = imwrites w
      /\ calls w' = (calls w ++ [Enter F_process_dataset])%list).
Proof.
  intros Hv. unfold process_dataset. unfold_m. simpl.
  destruct (subscript2 config "data" "dataset_dir") as [dd|e]; simpl; [|auto].
  rewrite Hv. simpl.
  destruct (subscript2 config "data" "video") as [vc|e]; simpl; [|auto].
  destruct (subscript vc "video_url") as [url|e] eqn:H1; simpl; [|auto].
  destruct (subscript vc "video_dir") as [vd|e] eqn:H2; simpl; [|auto].
  destruct (subscript vc "frame_stride") as [st|e] eqn:H3; simpl; [|auto].
  match goal with |- (let (_, _) := ?X in _) => destruct X as [r w'] end.
  left. exists dd, vc, url, vd, st. auto.
Qed.

Lemma video_branch_reads_settings_first_witness :
  fs (snd (process_dataset Scenario.env (YStr "video") Cases.video_config_no_stride
             Scenario.empty_world))
  = fs Scenario.empty_world.
Proof.
  pose proof (video_branch_reads_settings_first Scenario.env (YStr "video")
                Cases.video_config_no_stride Scenario.empty_world eq_refl) as H.
  destruct (process_dataset Scenario.env (YStr "video") Cases.video_config_no_stride
              Scenario.empty_world) as [r w'].
  destruct H as [(dd & vc & url & vd & st & _ & Hvc & _ & _ & Hst)|(_ & H & _)].
  - inversion Hvc; subst vc. discriminate Hst.
  - exact H.
Defined.

(** X4: the image branch neither downloads nor extracts, and touches
    nothing but the way to the dataset directory: every path holds after
    the call what it held before, except that paths on the way to the
    dataset directory, and that directory, may be directories now where
    nothing was.  Whatever the image directory holds is left alone.  When
    the call returns, the dataset directory is a directory. *)
Theorem image_branch_creates_dataset_dir_only (E : Env) (config : yaml) (w : world) :
  let (r, w') := process_dataset E (YStr "image") config w in
  imwrites w' = imwrites w
  /\ calls w' = (calls w ++ Enter F_process_dataset :: closing F_process_dataset r)%list
  /\ match subscript2 config "data" "dataset_dir" with
     | Ok ddv =>
         new_dirs (chain_of ddv) (fs w) (fs w')
         /\ (r = Ok tt ->
             exists dd, Os.fspath ddv = Some dd /\ Os.is_dir (fs w') dd = true)
     | Raise _ => fs w' = fs w
     end.
Proof.
  unfold process_dataset. unfold_m. simpl.
  destruct (subscript2 config "data" "dataset_dir") as [dd|e]; simpl; [|auto].
  assert (R0 : new_dirs (chain_of dd) (fs w) (fs w)) by apply new_dirs_refl.
  destruct (subscript3 config "data" "image" "image_dir") as [idir|e]; simpl;
    [|repeat split; auto; discriminate].
  set (w1 := add_stdout _ _).
  assert (Hex : exists b, Os.path_exists idir w1 = (b, w1)).
  { unfold Os.path_exists, Os.fd_exists. destruct idir; eauto.
    destruct (_ || _); eauto. }
  destruct Hex as [b ->].
  destruct b as [[|]|e]; simpl; [|repeat split; auto; discriminate ..].
  pose proof (makedirs_new_dirs dd w1) as N.
  pose proof (makedirs_imwrites dd w1) as I.
  pose proof (quiet_makedirs dd w1) as Q. unfold same_calls in Q.
  destruct (Os.makedirs dd w1) as [[[]|e] w2] eqn:Hm; simpl in *.
  - rewrite Q, <- app_assoc. repeat split; auto.
    intros _. exact (makedirs_ok dd w1 w2 Hm).
  - rewrite Q. repeat split; auto. discriminate.
Qed.

Lemma image_branch_creates_dataset_dir_only_witness :
  let w' := snd (process_dataset Scenario.env (YStr "image") Scenario.image_config
                   Scenario.world_with_images) in
  Os.is_dir (fs w') "out" = true
  /\ fs w' !! "imgs/a.png" = fs Scenario.world_with_images !! "imgs/a.png".
Proof.
  cbv zeta.
  pose proof (image_branch_creates_dataset_dir_only Scenario.env Scenario.image_config
                Scenario.world_with_images) as H.
  assert (Hr : fst (process_dataset Scenario.env (YStr "image") Scenario.image_config
                      Scenario.world_with_images) = Ok tt)
    by (vm_compute; reflexivity).
  destruct (process_dataset Scenario.env (YStr "image") Scenario.image_config
              Scenario.world_with_images) as [r w'].
  simpl in Hr. destruct H as (_ & _ & H).
  change (subscript2 Scenario.image_config "data" "dataset_dir")
    with (@Ok yaml (YStr "out")) in H.
  destruct H as [N Hd]. simpl. split.
  - destruct (Hd Hr) as (dd & Fd & Dd). inversion Fd; subst dd. exact Dd.
  - destruct (N "imgs/a.png") as [Hk|(Hin & _)]; [exact Hk|].
    vm_compute in Hin. destruct Hin as [Hin|[]]. discriminate Hin.
Defined.

(** ** Acquisition *)

(** X5: when the request fails, [download_and_extract_videos] raises the
    request's exception and has written nothing: the archive file is only
    opened after the response has arrived.  (With a target directory that
    is no string it raises [TypeError] before the request is made.) *)
Theorem download_request_fails (E : Env) (video_url video_dir : yaml) (w : world)
    (e : exn) :
  requests_get E video_url = Raise e ->
  let (r, w') := download_and_extract_videos E video_url video_dir w in
  fs w' = fs w
  /\ r = match video_dir with
         | YStr _ => Raise e
         | _ => Raise TypeError
         end.
Proof.
  intros Hget. unfold download_and_extract_videos. unfold_m. simpl.
  destruct video_dir; simpl; try (split; reflexivity).
  rewrite Hget. simpl. split; reflexivity.
Qed.

Lemma download_request_fails_witness :
  download_and_extract_videos Scenario.env (YStr "http://elsewhere/") (YStr "videos")
    (Scenario.world_of {["videos" := Dir]})
  = (Raise (LibraryError "requests.ConnectionError"),
     add_stdout "Downloading videos from http://elsewhere/..."
       (add_call (Enter F_download_and_extract_videos)
          (Scenario.world_of {["videos" := Dir]}))).
Proof.
  pose proof (download_request_fails Scenario.env (YStr "http://elsewhere/")
                (YStr "videos") (Scenario.world_of {["videos" := Dir]})
                (LibraryError "requests.ConnectionError") eq_refl) as H.
  destruct H as [_ _]. reflexivity.
Defined.

Lemma write_file_fs p c w1 w2 :
  fs w1 = fs w2 ->
  fst (Os.write_file p c w1) = fst (Os.write_file p c w2)
  /\ fs (snd (Os.write_file p c w1)) = fs (snd (Os.write_file p c w2)).
Proof.
  intros Hfs. unfold Os.write_file, Os.create_file. rewrite Hfs.
  destruct (PosixPath.has_nul p); [auto|].
  destruct (PosixPath.is_empty p); [auto|].
  destruct (PosixPath.ends_with_sep p); [auto|].
  destruct (fs w2 !! p) as [[|c']|]; simpl; auto;
    destruct (Os.parent_status (fs w2) p); simpl; auto.
Qed.

Lemma write_file_result p c w :
  fst (Os.write_file p c w) = Ok tt ->
  fs (snd (Os.write_file p c w)) = <[p := File c]> (fs w)
  /\ Os.norm p = p /\ PosixPath.is_empty p = false
  /\ PosixPath.has_nul p = false
  /\ PosixPath.ends_with_sep p = false.
Proof.
  unfold Os.write_file, Os.create_file.
  destruct (PosixPath.has_nul p); [discriminate|].
  destruct (PosixPath.is_empty p); [discriminate|].
  destruct (PosixPath.ends_with_sep p) eqn:Hs; [discriminate|].
  destruct (fs w !! p) as [[|c']|]; simpl; try discriminate;
    destruct (Os.parent_status (fs w) p); simpl; try discriminate;
    auto using norm_no_trailing_sep.
Qed.

(** X6: when the response arrives and can be written but is no archive,
    [download_and_extract_videos] raises the archive reader's exception
    and leaves the response on disk as [videos.zip]; nothing else is
    changed. *)
Theorem download_bad_archive_stays (E : Env) (video_url : yaml) (d body : string)
    (w : world) (e : exn) :
  requests_get E video_url = Ok body ->
  zip_read E body = Raise e ->
  fst (Os.write_file (PosixPath.join d "videos.zip") body w) = Ok tt ->
  let (r, w') := download_and_extract_videos E video_url (YStr d) w in
  r = Raise e
  /\ fs w' = <[PosixPath.join d "videos.zip" := File body]> (fs w).
Proof.
  intros Hget Hzip Hw. unfold download_and_extract_videos. unfold_m. simpl.
  rewrite Hget. simpl.
  set (zp := PosixPath.join d "videos.zip") in *.
  set (w1 := add_stdout _ _).
  destruct (write_file_fs zp body w1 w eq_refl) as [Hr Hf].
  destruct (write_file_result zp body w Hw) as (Hfs & Hn & He & Hz & Hs).
  destruct (Os.write_file zp body w1) as [r1 w2]. simpl in Hr, Hf.
  rewrite Hw in Hr. subst r1.
  assert (Hk : fs w2 !! zp = Some (File body)).
  { rewrite Hf, Hfs. apply lookup_insert_eq. }
  rewrite (read_file_of_key zp body (add_stdout _ w2)) by assumption.
  rewrite Hzip. simpl. split; [reflexivity|]. rewrite Hf. exact Hfs.
Qed.

Lemma download_bad_archive_stays_witness :
  fs (snd (download_and_extract_videos
             (Cases.env_with Scenario.video_config (Ok "<html>not found</html>"))
             (YStr "http://host/videos.zip") (YStr "videos")
             (Scenario.world_of {["videos" := Dir]})))
  !! "videos/videos.zip"
  = Some (File "<html>not found</html>").
Proof.
  pose proof (download_bad_archive_stays
                (Cases.env_with Scenario.video_config (Ok "<html>not found</html>"))
                (YStr "http://host/videos.zip") "videos" "<html>not found</html>"
                (Scenario.world_of {["videos" := Dir]})
                (LibraryError "zipfile.BadZipFile") eq_refl eq_refl eq_refl) as H.
  destruct (download_and_extract_videos _ _ _ _) as [r w'].
  destruct H as [_ H]. simpl. rewrite H. apply lookup_insert_eq.
Defined.

Lemma makedirs_str_keeps_key s k v w :
  fs w !! k = Some v -> fs (snd (Os.makedirs_str s w)) !! k = Some v.
Proof.
  intros Hk.
  destruct (makedirs_str_new_dirs s w k) as [->|(_ & Hn & _)]; congruence.
Qed.

Lemma mkdir_keeps_key p k v w :
  fs w !! k = Some v -> fs (snd (Os.mkdir p w)) !! k = Some v.
Proof.
  intros Hk. unfold Os.mkdir.
  destruct (PosixPath.is_empty p); [exact Hk|].
  destruct (PosixPath.has_nul p); [exact Hk|].
  destruct (fs w !! Os.norm p) eqn:Hs; simpl; [exact Hk|].
  destruct (Os.parent_status (fs w) (Os.norm p)); simpl; [|exact Hk].
  rewrite lookup_insert_ne; [exact Hk | congruence].
Qed.

Lemma write_file_keeps_key p c k v w :
  p <> k -> fs w !! k = Some v -> fs (snd (Os.write_file p c w)) !! k = Some v.
Proof.
  intros Hne Hk. unfold Os.write_file, Os.create_file.
  destruct (PosixPath.has_nul p); [exact Hk|].
  destruct (PosixPath.is_empty p); [exact Hk|].
  destruct (PosixPath.ends_with_sep p); [exact Hk|].
  destruct (fs w !! p) as [[|c']|]; simpl; try exact Hk;
    destruct (Os.parent_status (fs w) p); simpl; try exact Hk;
    rewrite lookup_insert_ne; assumption.
Qed.

Lemma extract_member_keeps_key d m k v w :
  (member_is_dir m = false -> PosixPath.join d (arcname m) <> k) ->
  fs w !! k = Some v ->
  fs (snd (Zipfile.extract_member d m w)) !! k = Some v.
Proof.
  intros Hne Hk. unfold Zipfile.extract_member, bind.
  assert (Hup : fs (snd (Zipfile.ensure_upperdirs
                           (PosixPath.dirname (PosixPath.join d (arcname m))) w))
                !! k = Some v).
  { unfold Zipfile.ensure_upperdirs.
    destruct (PosixPath.is_empty _); [exact Hk|].
    unfold bind, Os.path_exists. destruct (bool_decide _); [exact Hk|].
    apply makedirs_str_keeps_key. exact Hk. }
  destruct (Zipfile.ensure_upperdirs _ w) as [[[]|e] w1]; simpl in Hup; [|exact Hup].
  destruct (member_is_dir m).
  - destruct (Os.is_dir (fs w1) _); [exact Hup|].
    apply mkdir_keeps_key. exact Hup.
  - pose proof (write_file_keeps_key (PosixPath.join d (arcname m)) (member_data m)
                  k v w1 (Hne eq_refl) Hup) as H.
    destruct (Os.write_file _ _ w1) as [[[]|e] w2]; simpl in H; [|exact H].
    destruct (member_crc_ok m); exact H.
Qed.

Lemma extractall_keeps_key d members k v : forall w,
  (forall m, In m members -> member_is_dir m = false ->
             PosixPath.join d (arcname m) <> k) ->
  fs w !! k = Some v ->
  fs (snd (for_each members (Zipfile.extract_member d) w)) !! k = Some v.
Proof.
  induction members as [|m rest IH]; intros w Hne Hk; [exact Hk|].
  simpl. unfold bind.
  pose proof (extract_member_keeps_key d m k v w
                (fun H => Hne m (or_introl eq_refl) H) Hk) as H1.
  destruct (Zipfile.extract_member d m w) as [[[]|e] w1]; simpl in H1; [|exact H1].
  apply IH; [|exact H1]. intros m' Hin. apply Hne. right. exact Hin.
Qed.

(** X7: after a successful [download_and_extract_videos], [videos.zip]
    holds exactly the bytes of the response, provided no file entry of the
    archive is itself extracted to that path. *)
Theorem download_archive_is_response (E : Env) (video_url : yaml) (d body : string)
    (members : list zip_member) (w w' : world) :
  download_and_extract_videos E video_url (YStr d) w = (Ok tt, w') ->
  requests_get E video_url = Ok body ->
  zip_read E body = Ok members ->
  (forall m, In m members -> member_is_dir m = false ->
             PosixPath.join d (arcname m) <> PosixPath.join d "videos.zip") ->
  fs w' !! PosixPath.join d "videos.zip" = Some (File body).
Proof.
  unfold download_and_extract_videos. unfold_m. simpl.
  intros Hrun Hget Hzip Hne. rewrite Hget in Hrun. simpl in Hrun.
  set (zp := PosixPath.join d "videos.zip") in *.
  destruct (Os.write_file zp body _) as [[[]|e] w1] eqn:Hw; [|discriminate].
  pose proof (write_file_ok _ _ _ _ Hw) as (Hk & Hn & He).
  pose proof (write_file_ok_path _ _ _ _ Hw) as (Hz & Hs).
  rewrite (read_file_of_key zp body (add_stdout _ w1)) in Hrun by assumption.
  rewrite Hzip in Hrun. simpl in Hrun.
  pose proof (extractall_keeps_key d members zp (File body)
                (add_stdout ("Extracting videos to " ++ d ++ "...") w1) Hne Hk) as H.
  destruct (for_each members (Zipfile.extract_member d) _) as [[[]|e] w2];
    [|discriminate].
  inversion Hrun; subst w'. exact H.
Qed.

Lemma download_archive_is_response_witness :
  fs (snd (download_and_extract_videos Scenario.env
             (YStr "http://host/videos.zip") (YStr "videos")
             (Scenario.world_of {["videos" := Dir]})))
  !! "videos/videos.zip" = Some (File "ZIP").
Proof.
  apply (download_archive_is_response Scenario.env (YStr "http://host/videos.zip")
           "videos" "ZIP" [ZipMember "clip.mp4" false "VID" true]
           (Scenario.world_of {["videos" := Dir]})).
  - vm_compute. reflexivity.
  - reflexivity.
  - reflexivity.
  - intros m [<-|[]] _. vm_compute. discriminate.
Defined.

Lemma makedirs_str_other s k w :
  ~ In k (Os.chain s) -> fs (snd (Os.makedirs_str s w)) !! k = fs w !! k.
Proof. apply new_dirs_other, makedirs_str_new_dirs. Qed.

(** X8: a failed download is not rolled back.  In video mode with both
    directories creatable, when the request fails [process_dataset] raises
    the request's exception; both directories exist afterwards; every
    path holds what it held before, except that paths on the way to the
    two directories, and the two, are directories now where nothing was;
    and the extraction is never entered. *)
Theorem failed_download_keeps_directories
    (E : Env) (config vcfg url stride : yaml) (vd dd : string) (w : world) (e : exn) :
  subscript2 config "data" "dataset_dir" = Ok (YStr dd) ->
  subscript2 config "data" "video" = Ok vcfg ->
  subscript vcfg "video_url" = Ok url ->
  subscript vcfg "video_dir" = Ok (YStr vd) ->
  subscript vcfg "frame_stride" = Ok stride ->
  creatable (fs w) vd = true ->
  creatable (fs w) dd = true ->
  requests_get E url = Raise e ->
  let (r, w') := process_dataset E (YStr "video") config w in
  r = Raise e
  /\ Os.is_dir (fs w') vd = true /\ Os.is_dir (fs w') dd = true
  /\ new_dirs (Os.chain vd ++ Os.chain dd) (fs w) (fs w')
  /\ calls w' = (calls w ++ [Enter F_process_dataset;
                             Enter F_download_and_extract_videos])%list.
Proof.
  intros Hdd Hv Hurl Hvd Hst Cv Cd Hget.
  unfold process_dataset. unfold_m. simpl. rewrite Hdd, Hv. simpl.
  rewrite Hurl, Hvd, Hst. simpl. unfold Os.makedirs. simpl.
  set (w1 := add_stdout _ (add_call _ w)).
  assert (Cv1 : creatable (fs w1) vd = true) by exact Cv.
  assert (Cd1 : creatable (fs w1) dd = true) by exact Cd.
  pose proof (makedirs_str_creatable vd w1 Cv1) as Ok1.
  pose proof (makedirs_str_keeps_creatable vd dd w1 Cd1) as Cd2.
  pose proof (quiet_makedirs_str vd w1) as Q1.
  pose proof (makedirs_str_new_dirs vd w1) as N1.
  destruct (Os.makedirs_str vd w1) as [r1 w2] eqn:H1.
  simpl in Ok1, Cd2, Q1, N1. subst r1.
  pose proof (makedirs_str_creatable dd w2 Cd2) as Ok2.
  pose proof (quiet_makedirs_str dd w2) as Q2.
  pose proof (makedirs_str_new_dirs dd w2) as N2.
  pose proof (kept_makedirs_str dd w2) as K2.
  destruct (Os.makedirs_str dd w2) as [r2 w3] eqn:H2.
  simpl in Ok2, Q2, N2, K2. subst r2.
  assert (D : let (r, w') := download_and_extract_videos E url (YStr vd) w3 in
              fs w' = fs w3 /\ r = Raise e).
  { unfold download_and_extract_videos. unfold_m. simpl. rewrite Hget. simpl.
    split; reflexivity. }
  pose proof (download_calls E url (YStr vd) w3) as QD.
  destruct (download_and_extract_videos E url (YStr vd) w3) as [r3 w4].
  destruct D as [Dfs ->]. simpl in QD |- *.
  split; [reflexivity|].
  assert (Hvd3 : Os.is_dir (fs w3) vd = true).
  { apply (kept_is_dir w2 w3 vd K2). exact (makedirs_str_ok vd w1 w2 H1). }
  assert (Hdd3 : Os.is_dir (fs w3) dd = true)
    by exact (makedirs_str_ok dd w2 w3 H2).
  unfold Os.is_dir in *. rewrite Dfs.
  split; [exact Hvd3|]. split; [exact Hdd3|]. split.
  - apply (new_dirs_trans _ _ (fs w2)).
    + apply (new_dirs_incl (Os.chain vd)); [apply List.incl_appl, List.incl_refl|].
      exact N1.
    + apply (new_dirs_incl (Os.chain dd)); [apply List.incl_appr, List.incl_refl|].
      exact N2.
  - rewrite QD. unfold same_calls in Q1, Q2. rewrite Q2, Q1. simpl.
    rewrite <- app_assoc. reflexivity.
Qed.

Lemma failed_download_keeps_directories_witness :
  let (r, w') := process_dataset
                   (Cases.env_with Scenario.video_config
                      (Raise (LibraryError "requests.Timeout")))
                   (YStr "video") Scenario.video_config Scenario.empty_world in
  r = Raise (LibraryError "requests.Timeout")
  /\ Os.is_dir (fs w') "videos/" = true /\ Os.is_dir (fs w') "out" = true.
Proof.
  pose proof (failed_download_keeps_directories
                (Cases.env_with Scenario.video_config
                   (Raise (LibraryError "requests.Timeout")))
                Scenario.video_config Scenario.video_section
                (YStr "http://host/videos.zip") (YInt 2) "videos/" "out"
                Scenario.empty_world (LibraryError "requests.Timeout")
                eq_refl eq_refl eq_refl eq_refl eq_refl eq_refl eq_refl eq_refl) as H.
  destruct (process_dataset _ _ _ _) as [r w'].
  destruct H as (Hr & Hv & Hd & _). auto.
Defined.

(** ** Video names and frame paths *)

Lemma split_last_sep_free t :
  sep_free t = true -> PosixPath.split_last_sep t = (EmptyString, t).
Proof.
  induction t as [|c r IH]; intros H; [reflexivity|].
  simpl in H. apply andb_prop in H as [Hc Hr]. apply negb_true_iff in Hc.
  simpl. rewrite (IH Hr). simpl. rewrite Hc. reflexivity.
Qed.

Lemma split_last_sep_app a t :
  sep_free t = true ->
  PosixPath.split_last_sep (a ++ String "/" t) = (a ++ "/", t).
Proof.
  intros Ht. induction a as [|c r IH].
  - change (EmptyString ++ String "/" t) with (String "/"%char t).
    simpl. rewrite (split_last_sep_free t Ht). reflexivity.
  - change (String c r ++ String "/" t) with (String c (r ++ String "/" t)).
    simpl. rewrite IH.
    destruct r; reflexivity.
Qed.

Lemma ends_with_sep_app d :
  PosixPath.ends_with_sep d = true -> exists d', d = d' ++ "/".
Proof.
  induction d as [|c r IH]; [discriminate|].
  destruct r as [|c' r'].
  - simpl. intros H. apply Ascii.eqb_eq in H. subst c. exists EmptyString. reflexivity.
  - intros H. destruct (IH H) as [d' Hd']. exists (String c d').
    rewrite Hd'. reflexivity.
Qed.

Lemma sep_free_no_leading_sep t :
  sep_free t = true -> PosixPath.starts_with_sep t = false.
Proof.
  destruct t as [|c r]; [reflexivity|]. simpl. intros H.
  apply andb_prop in H as [Hc _]. apply negb_true_iff in Hc. exact Hc.
Qed.

(** [os.path.basename] undoes [os.path.join] with a plain file name. *)
Lemma basename_join d name :
  sep_free name = true -> PosixPath.basename (PosixPath.join d name) = name.
Proof.
  intros Hn. unfold PosixPath.basename, PosixPath.join.
  rewrite (sep_free_no_leading_sep name Hn).
  destruct (PosixPath.is_empty d) eqn:He.
  - destruct d; [|discriminate]. simpl.
    change (EmptyString ++ name) with name.
    rewrite (split_last_sep_free name Hn). reflexivity.
  - simpl. destruct (PosixPath.ends_with_sep d) eqn:Hs.
    + destruct (ends_with_sep_app d Hs) as [d' ->].
      rewrite FormatFacts.app_assoc_string.
      change ("/" ++ name) with (String "/"%char name).
      rewrite (split_last_sep_app d' name Hn). reflexivity.
    + change ("/" ++ name) with (String "/"%char name).
      rewrite (split_last_sep_app d name Hn). reflexivity.
Qed.

Lemma split_last_dot_free ext :
  dot_free ext = true -> PosixPath.split_last_dot ext = None.
Proof.
  induction ext as [|c r IH]; intros H; [reflexivity|].
  simpl in H. apply andb_prop in H as [Hc Hr]. apply negb_true_iff in Hc.
  simpl. rewrite (IH Hr), Hc. reflexivity.
Qed.

Lemma split_last_dot_ext stem ext :
  dot_free ext = true ->
  PosixPath.split_last_dot (stem ++ String "." ext) = Some (stem, String "."%char ext).
Proof.
  intros He. induction stem as [|c r IH].
  - change (EmptyString ++ String "." ext) with (String "."%char ext).
    simpl. rewrite (split_last_dot_free ext He). reflexivity.
  - change (String c r ++ String "." ext) with (String c (r ++ String "." ext)).
    simpl. rewrite IH. reflexivity.
Qed.

Lemma sep_free_app a b : sep_free a = true -> sep_free b = true -> sep_free (a ++ b) = true.
Proof.
  intros Ha Hb. induction a as [|c r IH]; [exact Hb|].
  simpl in Ha. apply andb_prop in Ha as [Hc Hr].
  change (String c r ++ b) with (String c (r ++ b)). simpl.
  rewrite Hc, (IH Hr). reflexivity.
Qed.

(** X9: the name under which a video's frames are written is its file
    name without the directory and without the last extension: for a file
    [<stem>.<ext>] in any directory, [video_name] is [<stem>], whenever the
    stem has no separator and is not made of dots only, and the extension
    has neither a separator nor a dot. *)
Theorem video_name_of_file (d stem ext : string) :
  sep_free stem = true ->
  PosixPath.all_dots stem = false ->
  sep_free ext = true ->
  dot_free ext = true ->
  video_name_of (PosixPath.join d (stem ++ "." ++ ext)) = stem.
Proof.
  intros Hs Hd Hes Hed. unfold video_name_of.
  change ("." ++ ext) with (String "."%char ext).
  rewrite basename_join.
  - unfold PosixPath.splitext. rewrite (split_last_dot_ext stem ext Hed), Hd.
    reflexivity.
  - apply sep_free_app; [exact Hs|]. simpl. exact Hes.
Qed.

Lemma video_name_of_file_witness :
  video_name_of (PosixPath.join "videos/" ("clip.v2" ++ "." ++ "mp4")) = "clip.v2".
Proof.
  exact (video_name_of_file "videos/" "clip.v2" "mp4" eq_refl eq_refl eq_refl eq_refl).
Defined.

Lemma frame_paths_prefix dir name first k1 k2 :
  (k1 <= k2)%nat ->
  frame_paths dir name first k1 `prefix_of` frame_paths dir name first k2.
Proof.
  intros Hle. unfold frame_paths.
  replace k2 with (k1 + (k2 - k1))%nat by lia.
  rewrite List.seq_app, List.map_app. apply prefix_app_r. reflexivity.
Qed.

(** X10: frames are filed under the video's name only, so two videos with
    the same name (as [a.mov] and [a.mp4] in one directory) are written to
    the same paths: of the path lists their two passes hand to the image
    writer, one is a prefix of the other. *)
Theorem same_name_same_frame_paths (E : Env) (dir : string) (stride1 stride2 : yaml)
    (p1 p2 : string) (w1 w2 : world) :
  Format.brace_free (video_name_of p1) = true ->
  video_name_of p1 = video_name_of p2 ->
  exists l1 l2,
    imwrites (snd (extract_frames_from_video E (YStr dir) stride1 p1 w1))
    = (imwrites w1 ++ l1)%list
    /\ imwrites (snd (extract_frames_from_video E (YStr dir) stride2 p2 w2))
       = (imwrites w2 ++ l2)%list
    /\ (l1 `prefix_of` l2 \/ l2 `prefix_of` l1).
Proof.
  intros Hb Heq.
  pose proof (extract_video_imwrites E dir stride1 p1 w1 Hb) as H1.
  assert (Hb2 : Format.brace_free (video_name_of p2) = true) by (rewrite <- Heq; exact Hb).
  pose proof (extract_video_imwrites E dir stride2 p2 w2 Hb2) as H2.
  rewrite <- Heq in H2.
  eexists. eexists. split; [exact H1|]. split; [exact H2|].
  destruct (le_lt_dec (length (yielded_frames E (YStr dir) stride1 p1 w1))
              (length (yielded_frames E (YStr dir) stride2 p2 w2))) as [Hle|Hlt].
  - left. apply frame_paths_prefix. exact Hle.
  - right. apply frame_paths_prefix. lia.
Qed.

Lemma same_name_same_frame_paths_witness :
  let w := Scenario.world_of {["out" := Dir; "videos" := Dir;
                               "videos/a.mov" := File "ONE";
                               "videos/a.mp4" := File "VID"]} in
  exists l1 l2,
    imwrites (snd (extract_frames_from_video Scenario.env (YStr "out") (YInt 1)
                     "videos/a.mov" w)) = l1
    /\ imwrites (snd (extract_frames_from_video Scenario.env (YStr "out") (YInt 1)
                        "videos/a.mp4" w)) = l2
    /\ (l1 `prefix_of` l2 \/ l2 `prefix_of` l1).
Proof.
  cbv zeta.
  destruct (same_name_same_frame_paths Scenario.env "out" (YInt 1) (YInt 1)
              "videos/a.mov" "videos/a.mp4"
              (Scenario.world_of {["out" := Dir; "videos" := Dir;
                                   "videos/a.mov" := File "ONE";
                                   "videos/a.mp4" := File "VID"]})
              (Scenario.world_of {["out" := Dir; "videos" := Dir;
                                   "videos/a.mov" := File "ONE";
                                   "videos/a.mp4" := File "VID"]})
              eq_refl eq_refl) as (l1 & l2 & H1 & H2 & H).
  exists l1, l2. split; [exact H1|]. split; [exact H2 | exact H].
Defined.

(** ** What the run prints *)

Lemma same_stdout_refl w : same_stdout w w.
Proof. reflexivity. Qed.

Lemma same_stdout_trans a b c : same_stdout a b -> same_stdout b c -> same_stdout a c.
Proof. unfold same_stdout. congruence. Qed.

Ltac silent_bind :=
  repeat match goal with
    | |- stable _ (traced _ _) => unfold traced
    | |- stable _ (bind _ _) =>
        apply (stable_bind same_stdout same_stdout_trans); [|intros ?]
    | |- stable _ (ret _) => apply (stable_ret same_stdout same_stdout_refl)
    | |- stable _ (raise _) => apply (stable_raise same_stdout same_stdout_refl)
    | |- stable _ (lift _) => apply (stable_lift same_stdout same_stdout_refl)
    | |- stable _ (if _ then _ else _) => apply (stable_if same_stdout)
    | |- stable _ (for_each _ _) =>
        apply (stable_for_each same_stdout same_stdout_refl same_stdout_trans);
        intros ?
    end.

Ltac silent_prim :=
  intros w; unfold same_stdout; simpl;
  repeat (case_match; simpl; try reflexivity).

Create HintDb silent.

Lemma silent_emit e : stable same_stdout (emit e).
Proof. intros w. reflexivity. Qed.

Lemma silent_path_exists p : stable same_stdout (Os.path_exists p).
Proof. unfold Os.path_exists, Os.fd_exists. silent_prim. Qed.

Lemma silent_makedirs_str s : stable same_stdout (Os.makedirs_str s).
Proof.
  apply (stable_makedirs_str same_stdout same_stdout_refl same_stdout_trans).
  - intros k. unfold Os.enter_or_create. silent_prim.
  - intros k. unfold Os.create_leaf. silent_prim.
Qed.

Lemma silent_makedirs p : stable same_stdout (Os.makedirs p).
Proof. apply (stable_makedirs same_stdout same_stdout_refl), silent_makedirs_str. Qed.

Lemma silent_create_file p c : stable same_stdout (Os.create_file p c).
Proof. unfold Os.create_file. silent_prim. Qed.

Lemma silent_write_file p c : stable same_stdout (Os.write_file p c).
Proof. apply (stable_write_file same_stdout same_stdout_refl), silent_create_file. Qed.

Lemma silent_read_file p : stable same_stdout (Os.read_file p).
Proof. unfold Os.read_file. silent_prim. Qed.

Lemma silent_mkdir p : stable same_stdout (Os.mkdir p).
Proof. unfold Os.mkdir. silent_prim. Qed.

#[local] Hint Resolve silent_emit silent_path_exists silent_makedirs_str
  silent_makedirs silent_write_file silent_read_file silent_mkdir : silent.

Lemma silent_extract_member d m : stable same_stdout (Zipfile.extract_member d m).
Proof.
  unfold Zipfile.extract_member, Zipfile.ensure_upperdirs.
  silent_bind; auto with silent.
  intros w. unfold same_stdout. cbv beta.
  case_match; [reflexivity | apply silent_mkdir].
Qed.
#[local] Hint Resolve silent_extract_member : silent.

Lemma silent_extractall d ms : stable same_stdout (Zipfile.extractall d ms).
Proof. destruct d; simpl; silent_bind; auto with silent. Qed.

Lemma silent_list_files d exts : stable same_stdout (Sv.list_files_with_extensions d exts).
Proof. unfold Sv.list_files_with_extensions. silent_prim. Qed.

Lemma silent_open_video E p : stable same_stdout (Sv.open_video E p).
Proof. unfold Sv.open_video. silent_prim. Qed.

Lemma silent_imwrite E p img : stable same_stdout (Sv.imwrite E p img).
Proof.
  intros w. unfold Sv.imwrite.
  pose proof (silent_create_file p (png_encode E img) (add_imwrite p w)) as H.
  destruct (Os.create_file _ _ _) as [[u|e] w2]; simpl in *; [exact H | reflexivity].
Qed.
#[local] Hint Resolve silent_extractall silent_list_files silent_open_video
  silent_imwrite : silent.

Lemma silent_sink_enter sink : stable same_stdout (Sv.sink_enter sink).
Proof. unfold Sv.sink_enter. silent_bind; auto with silent. Qed.

Lemma silent_save_image E sink img : stable same_stdout (Sv.save_image E sink img).
Proof. unfold Sv.save_image. silent_bind; auto with silent. Qed.
#[local] Hint Resolve silent_sink_enter silent_save_image : silent.

Lemma silent_save_frames E frames : forall sink,
  stable same_stdout (save_frames E sink frames).
Proof.
  induction frames as [|img rest IH]; intros sink; simpl; silent_bind;
    auto with silent.
Qed.
#[local] Hint Resolve silent_save_frames : silent.

Lemma silent_extract_frames_from_video E d s p :
  stable same_stdout (extract_frames_from_video E d s p).
Proof.
  unfold extract_frames_from_video. silent_bind; auto with silent.
  destruct (Sv.frames_generator _ _) as [frames failure].
  silent_bind; auto with silent. destruct failure; silent_bind.
Qed.
#[local] Hint Resolve silent_extract_frames_from_video : silent.

(** The extraction and the loading of the configuration print nothing. *)
Lemma silent_extract_frames_from_videos E vd d s :
  stable same_stdout (extract_frames_from_videos E vd d s).
Proof. unfold extract_frames_from_videos. silent_bind; auto with silent. Qed.

Lemma silent_load_config E p : stable same_stdout (load_config E p).
Proof. unfold load_config. silent_bind; auto with silent. Qed.

Lemma silent_label E m i o : stable same_stdout (Autodistill.label E m i o).
Proof.
  intros w. unfold Autodistill.label, bind, emit. simpl.
  destruct (grounded_sam_label E _ i o _). reflexivity.
Qed.

Lemma silent_caption_ontology E m : stable same_stdout (Autodistill.CaptionOntology E m).
Proof. unfold Autodistill.CaptionOntology. silent_bind; auto using silent_emit. Qed.

Lemma silent_grounded_sam E o : stable same_stdout (Autodistill.GroundedSAM E o).
Proof. unfold Autodistill.GroundedSAM. silent_bind; auto using silent_emit. Qed.
#[local] Hint Resolve silent_extract_frames_from_videos silent_load_config
  silent_label silent_caption_ontology silent_grounded_sam : silent.

Lemma no_completion_refl w : no_completion w w.
Proof. exists []. rewrite app_nil_r. auto. Qed.

Lemma no_completion_trans a b c :
  no_completion a b -> no_completion b c -> no_completion a c.
Proof.
  intros (t1 & H1 & N1) (t2 & H2 & N2). exists (t1 ++ t2)%list.
  rewrite H2, H1, <- app_assoc. split; [reflexivity|].
  intros H. apply List.in_app_or in H. tauto.
Qed.

Lemma no_completion_silent {A} (m : M A) :
  stable same_stdout m -> stable no_completion m.
Proof.
  intros H w. exists []. rewrite app_nil_r. split; [apply H | auto].
Qed.

Lemma no_completion_print line :
  line <> completion_msg -> stable no_completion (print line).
Proof.
  intros Hne w. exists [line]. split; [reflexivity|].
  intros [H|[]]. apply Hne. exact H.
Qed.

Ltac other_line := intros H; vm_compute in H; discriminate H.

Ltac nc_bind :=
  repeat match goal with
    | |- stable _ (traced _ _) => unfold traced
    | |- stable _ (bind _ _) =>
        apply (stable_bind no_completion no_completion_trans); [|intros ?]
    | |- stable _ (ret _) => apply (stable_ret no_completion no_completion_refl)
    | |- stable _ (raise _) => apply (stable_raise no_completion no_completion_refl)
    | |- stable _ (lift _) => apply (stable_lift no_completion no_completion_refl)
    | |- stable _ (if _ then _ else _) => apply (stable_if no_completion)
    | |- stable _ (print _) => apply no_completion_print; other_line
    | |- stable no_completion _ => apply no_completion_silent; solve [auto with silent]
    end.

Lemma no_completion_download E url vd :
  stable no_completion (download_and_extract_videos E url vd).
Proof. unfold download_and_extract_videos. nc_bind. Qed.

Lemma no_completion_process_dataset E it cfg :
  stable no_completion (process_dataset E it cfg).
Proof.
  unfold process_dataset. nc_bind.
  - apply no_completion_download.
Qed.

Lemma no_completion_auto_label E i d m :
  stable no_completion (auto_label_images E i d m).
Proof. unfold auto_label_images. nc_bind. Qed.

(** X13: the completion message is printed by nothing but the last line of
    [main]: a run of [main] that raises, wherever it does, has not printed
    ["Dataset construction complete."]. *)
Theorem main_failure_no_completion (E : Env) (p : string) (w : world) :
  is_ok (fst (main E p w)) = false ->
  exists t,
    stdout (snd (main E p w)) = (stdout w ++ t)%list
    /\ ~ In completion_msg t.
Proof.
  unfold main. unfold traced at 1. unfold_m. simpl.
  pose proof (no_completion_silent _ (silent_load_config E p)
                (add_call (Enter F_main) w)) as N1.
  destruct (load_config E p (add_call (Enter F_main) w)) as [[cfg|e] w1];
    simpl in N1; [|intros _; exact N1].
  destruct (subscript2 cfg "data" "input_type") as [it|e]; simpl;
    [|intros _; exact N1].
  pose proof (no_completion_process_dataset E it cfg w1) as N2.
  destruct (process_dataset E it cfg w1) as [[[]|e] w2]; simpl in N2;
    [|intros _; exact (no_completion_trans _ _ _ N1 N2)].
  pose proof (no_completion_trans _ _ _ N1 N2) as N12.
  destruct (subscript cfg "ontology") as [m|e]; simpl; [|intros _; exact N12].
  destruct (subscript3 cfg "data" "image" "image_dir") as [i|e]; simpl;
    [|intros _; exact N12].
  destruct (subscript2 cfg "data" "dataset_dir") as [o|e]; simpl;
    [|intros _; exact N12].
  pose proof (no_completion_auto_label E i o m w2) as N3.
  destruct (auto_label_images E i o m w2) as [[[]|e] w3]; simpl in N3;
    [discriminate | intros _; exact (no_completion_trans _ _ _ N12 N3)].
Qed.

Lemma main_failure_no_completion_witness :
  ~ In completion_msg
      (stdout (snd (main Scenario.env "config.yaml"
                      (Scenario.world_with_config "VIDEO")))).
Proof.
  destruct (main_failure_no_completion Scenario.env "config.yaml"
              (Scenario.world_with_config "VIDEO")) as (t & Ht & Hn).
  - vm_compute. reflexivity.
  - rewrite Ht. exact Hn.
Defined.

(** ** What acquisition and extraction leave alone *)

(** X14: [process_dataset] never removes anything and never turns a file
    into a directory or a directory into a file: every path that held a
    directory before the call holds one after it, and every path that
    held a file still holds a file, however the call ends. *)
Theorem process_dataset_keeps_entries (E : Env) (input_type config : yaml)
    (w : world) (k : string) :
  let w' := snd (process_dataset E input_type config w) in
  (fs w !! k = Some Dir -> fs w' !! k = Some Dir)
  /\ (forall c, fs w !! k = Some (File c) -> exists c', fs w' !! k = Some (File c')).
Proof.
  assert (K : stable kept (process_dataset E input_type config)).
  { unfold process_dataset. kept_bind; auto with kept. }
  specialize (K w k). cbv zeta. unfold kind_kept in K.
  split.
  - intros H. rewrite H in K. exact K.
  - intros c H. rewrite H in K. exact K.
Qed.

Lemma writes_only_refl dk w : writes_only dk w w.
Proof. exists []. rewrite app_nil_r. auto. Qed.

Lemma writes_only_trans dk a b c :
  writes_only dk a b -> writes_only dk b c -> writes_only dk a c.
Proof.
  intros (t1 & H1 & F1) (t2 & H2 & F2). exists (t1 ++ t2)%list.
  rewrite H2, H1, <- app_assoc. split; [reflexivity|].
  intros k Hk.
  assert (Hk1 : ~ In k t1) by (intros H; apply Hk, List.in_or_app; auto).
  assert (Hk2 : ~ In k t2) by (intros H; apply Hk, List.in_or_app; auto).
  destruct (F2 k Hk2) as [E2|(Hin & Hn & Hd)];
    destruct (F1 k Hk1) as [E1|(Hin' & Hn' & Hd')].
  - left. congruence.
  - right. rewrite E2. auto.
  - right. rewrite <- E1. auto.
  - congruence.
Qed.

Lemma writes_only_same dk w w' :
  imwrites w' = imwrites w -> fs w' = fs w -> writes_only dk w w'.
Proof.
  intros Hi Hf. exists []. rewrite app_nil_r, Hf. auto.
Qed.

Lemma create_file_other p c k w :
  k <> p -> fs (snd (Os.create_file p c w)) !! k = fs w !! k.
Proof.
  intros Hne. unfold Os.create_file.
  destruct (PosixPath.is_empty p); [reflexivity|].
  destruct (PosixPath.ends_with_sep p); [reflexivity|].
  destruct (fs w !! p) as [[|c']|]; simpl; try reflexivity;
    destruct (Os.parent_status (fs w) p); simpl; try reflexivity;
    apply lookup_insert_ne; congruence.
Qed.

Ltac wo_bind dk :=
  repeat match goal with
    | |- stable _ (traced _ _) => unfold traced
    | |- stable _ (bind _ _) =>
        apply (stable_bind (writes_only dk) (writes_only_trans dk)); [|intros ?]
    | |- stable _ (ret _) => apply (stable_ret (writes_only dk) (writes_only_refl dk))
    | |- stable _ (raise _) =>
        apply (stable_raise (writes_only dk) (writes_only_refl dk))
    | |- stable _ (lift _) => apply (stable_lift (writes_only dk) (writes_only_refl dk))
    | |- stable _ (if _ then _ else _) => apply (stable_if (writes_only dk))
    | |- stable _ (for_each _ _) =>
        apply (stable_for_each (writes_only dk) (writes_only_refl dk)
                 (writes_only_trans dk)); intros ?
    end.

Lemma wo_emit dk e : stable (writes_only dk) (emit e).
Proof. intros w. apply writes_only_same; reflexivity. Qed.

Lemma wo_path_exists dk p : stable (writes_only dk) (Os.path_exists p).
Proof.
  intros w. unfold Os.path_exists, Os.fd_exists.
  destruct p; try (apply writes_only_same; reflexivity).
  destruct (_ || _); apply writes_only_same; reflexivity.
Qed.

Lemma wo_makedirs p : stable (writes_only (chain_of p)) (Os.makedirs p).
Proof.
  intros w. exists []. rewrite app_nil_r. split; [apply makedirs_imwrites|].
  intros k _. exact (makedirs_new_dirs p w k).
Qed.

Lemma wo_open_video dk E p : stable (writes_only dk) (Sv.open_video E p).
Proof.
  intros w. unfold Sv.open_video.
  destruct (Os.stat (fs w) p) as [[|c]|]; try (apply writes_only_same; reflexivity).
  destruct (video_decode E c); apply writes_only_same; reflexivity.
Qed.

Lemma wo_list_files dk d exts : stable (writes_only dk) (Sv.list_files_with_extensions d exts).
Proof.
  intros w. unfold Sv.list_files_with_extensions.
  destruct d; apply writes_only_same; reflexivity.
Qed.

Lemma wo_imwrite dk E p img : stable (writes_only dk) (Sv.imwrite E p img).
Proof.
  intros w. exists [p]. unfold Sv.imwrite.
  pose proof (create_file_imwrites p (png_encode E img) (add_imwrite p w)) as Hi.
  pose proof (fun k => create_file_other p (png_encode E img) k (add_imwrite p w)) as Hf.
  destruct (Os.create_file _ _ _) as [[u|e] w2]; simpl in *.
  - split; [exact Hi|]. intros k Hk. left. apply Hf. intros ->. apply Hk. auto.
  - split; [reflexivity|]. auto.
Qed.

Lemma wo_save_image dk E sink img : stable (writes_only dk) (Sv.save_image E sink img).
Proof. unfold Sv.save_image. wo_bind dk. apply wo_imwrite. Qed.

Lemma wo_save_frames dk E frames : forall sink,
  stable (writes_only dk) (save_frames E sink frames).
Proof.
  induction frames as [|img rest IH]; intros sink; simpl; wo_bind dk;
    [apply wo_save_image | apply IH].
Qed.

Lemma wo_extract_frames_from_video E d stride p :
  stable (writes_only (chain_of d)) (extract_frames_from_video E d stride p).
Proof.
  unfold extract_frames_from_video, Sv.sink_enter. simpl.
  wo_bind (chain_of d).
  - apply wo_path_exists.
  - apply wo_makedirs.
  - apply wo_open_video.
  - destruct (Sv.frames_generator _ _) as [frames failure].
    wo_bind (chain_of d); [apply wo_save_frames|].
    destruct failure; wo_bind (chain_of d).
Qed.

(** X15: extraction writes frame files and nothing else.  Whatever
    [extract_frames_from_videos] is given and however it ends, every path
    that was not handed to the image writer during the call holds after
    the call what it held before, except that paths on the way to the image
    directory, and that directory, may be directories now where nothing
    was (the sink creates it with its parents): the videos, the archive
    and everything else on disk are untouched. *)
Theorem extraction_writes_frames_only (E : Env) (video_dir image_dir stride : yaml)
    (w : world) :
  let w' := snd (extract_frames_from_videos E video_dir image_dir stride w) in
  exists t,
    imwrites w' = (imwrites w ++ t)%list
    /\ forall k, ~ In k t ->
         fs w' !! k = fs w !! k
         \/ (In k (chain_of image_dir) /\ fs w !! k = None /\ fs w' !! k = Some Dir).
Proof.
  assert (K : stable (writes_only (chain_of image_dir))
                (extract_frames_from_videos E video_dir image_dir stride)).
  { unfold extract_frames_from_videos. wo_bind (chain_of image_dir).
    - apply wo_emit.
    - apply wo_list_files.
    - apply wo_extract_frames_from_video.
    - apply wo_emit. }
  exact (K w).
Qed.

Example extraction_creates_parents :
  fs (snd (extract_frames_from_videos Scenario.env (YStr "videos") (YStr "new/out")
             (YInt 2) (Scenario.world_of {["videos" := Dir;
                                           "videos/clip.mp4" := File "VID"]})))
  = {["videos" := Dir; "videos/clip.mp4" := File "VID";
      "new" := Dir; "new/out" := Dir;
      "new/out/clip-00000.png" := File "png:f0";
      "new/out/clip-00001.png" := File "png:f2";
      "new/out/clip-00002.png" := File "png:f4"]}.
Proof. vm_compute. reflexivity. Qed.

Lemma kept_is_file w w' p :
  kept w w' -> Os.is_file (fs w) p = true -> Os.is_file (fs w') p = true.
Proof.
  intros Hk. unfold Os.is_file, Os.stat.
  destruct (PosixPath.is_empty p); [discriminate|].
  specialize (Hk (Os.norm p)). unfold kind_kept in Hk.
  destruct (fs w !! Os.norm p) as [[|c]|]; try discriminate.
  destruct Hk as [c' ->].
  destruct (PosixPath.ends_with_sep p); [discriminate | reflexivity].
Qed.

Lemma download_ok_archive_file (E : Env) (video_url : yaml) (d : string)
    (w w' : world) :
  download_and_extract_videos E video_url (YStr d) w = (Ok tt, w') ->
  Os.is_file (fs w') (PosixPath.join d "videos.zip") = true.
Proof.
  unfold download_and_extract_videos. unfold_m. simpl.
  destruct (requests_get E video_url) as [body|e]; simpl; [|discriminate].
  set (zp := PosixPath.join d "videos.zip").
  destruct (Os.write_file zp body _) as [[[]|e] w1] eqn:Hw; [|discriminate].
  pose proof (write_file_ok _ _ _ _ Hw) as (Hk & Hn & He).
  pose proof (write_file_ok_path _ _ _ _ Hw) as (Hz & Hs).
  rewrite (read_file_of_key zp body (add_stdout _ w1)) by assumption.
  destruct (zip_read E body) as [members|e]; simpl; [|discriminate].
  destruct (for_each members (Zipfile.extract_member d) _) as [[[]|e] w2] eqn:Hx;
    [|discriminate].
  intros H. inversion H; subst w'; clear H. simpl.
  pose proof (stable_for_each kept kept_refl kept_trans members
                (Zipfile.extract_member d) (kept_extract_member d)
                (add_stdout ("Extracting videos to " ++ d ++ "...") w1)) as K.
  rewrite Hx in K. simpl in K.
  destruct (kept_file_key _ w2 zp body K Hk) as [c Hc].
  unfold Os.is_file, Os.stat. fold zp. rewrite He, Hn, Hc, Hs. reflexivity.
Qed.

(** ** Runs that succeed *)

(** X16: when the video branch of [process_dataset] returns, the
    configuration named the video directory as a string and the dataset
    directory as a path (a string, or bytes), and on disk the video
    directory and the dataset directory are directories and the
    downloaded archive [videos.zip] is still a file in the video
    directory: the extraction that ran after the download removed
    neither. *)
Theorem video_branch_success_state (E : Env) (input_type config : yaml)
    (w w' : world) :
  eq_str input_type "video" = true ->
  process_dataset E input_type config w = (Ok tt, w') ->
  exists vc vd ddv dd,
    subscript2 config "data" "dataset_dir" = Ok ddv
    /\ Os.fspath ddv = Some dd
    /\ subscript2 config "data" "video" = Ok vc
    /\ subscript vc "video_dir" = Ok (YStr vd)
    /\ Os.is_dir (fs w') vd = true
    /\ Os.is_dir (fs w') dd = true
    /\ Os.is_file (fs w') (PosixPath.join vd "videos.zip") = true.
Proof.
  intros Hv. unfold process_dataset. unfold_m. simpl.
  destruct (subscript2 config "data" "dataset_dir") as [ddv|e]; simpl; [|discriminate].
  rewrite Hv. simpl.
  destruct (subscript2 config "data" "video") as [vc|e]; simpl; [|discriminate].
  destruct (subscript vc "video_url") as [url|e]; simpl; [|discriminate].
  destruct (subscript vc "video_dir") as [vdv|e] eqn:Hvd; simpl; [|discriminate].
  destruct (subscript vc "frame_stride") as [st|e]; simpl; [|discriminate].
  set (w1 := add_stdout _ _).
  destruct (Os.makedirs vdv w1) as [[[]|e] w2] eqn:H1; [|discriminate].
  pose proof (kept_makedirs ddv w2) as K2.
  destruct (Os.makedirs ddv w2) as [[[]|e] w3] eqn:H2; [|discriminate].
  simpl in K2.
  pose proof (kept_download_and_extract_videos E url vdv w3) as K3.
  destruct (download_and_extract_videos E url vdv w3) as [[[]|e] w4] eqn:H3;
    [|discriminate].
  simpl in K3.
  pose proof (kept_extract_frames_from_videos E vdv ddv st w4) as K4.
  destruct (extract_frames_from_videos E vdv ddv st w4)
    as [[[]|e] w5]; [|discriminate].
  simpl in K4. intros H. inversion H; subst w'. simpl.
  destruct (makedirs_ok vdv w1 w2 H1) as (vd & Fv & Dv).
  destruct (makedirs_ok ddv w2 w3 H2) as (dd & Fd & Dd).
  assert (vdv = YStr vd) as ->.
  { revert H3 Fv. unfold download_and_extract_videos. unfold_m. simpl.
    destruct vdv; simpl; try discriminate. intros _ F. inversion F. reflexivity. }
  exists vc, vd, ddv, dd.
  split; [reflexivity|]. split; [exact Fd|]. split; [reflexivity|].
  split; [exact Hvd|].
  pose proof (kept_trans _ _ _ K3 K4) as K34.
  split; [|split].
  - apply (kept_is_dir w2 w5); [exact (kept_trans _ _ _ K2 K34) | exact Dv].
  - apply (kept_is_dir w3 w5 dd K34). exact Dd.
  - exact (kept_is_file w4 w5 _ K4 (download_ok_archive_file E url vd w3 w4 H3)).
Qed.

Lemma video_branch_success_state_witness :
  let w' := snd (process_dataset Scenario.env (YStr "video") Scenario.video_config
                   (Scenario.world_with_config "VIDEO")) in
  Os.is_file (fs w') (PosixPath.join "videos/" "videos.zip") = true.
Proof.
  cbv zeta.
  destruct (video_branch_success_state Scenario.env (YStr "video")
              Scenario.video_config (Scenario.world_with_config "VIDEO")
              (snd (process_dataset Scenario.env (YStr "video") Scenario.video_config
                      (Scenario.world_with_config "VIDEO"))) eq_refl)
    as (vc & vd & ddv & dd & _ & _ & Hvc & Hvd & _ & _ & Hf).
  - vm_compute. reflexivity.
  - inversion Hvc; subst vc. inversion Hvd; subst vd. exact Hf.
Defined.

(** X17: a run of [main] that completes has entered and left every
    function exactly once, in program order (with download and extraction
    inside the router exactly in video mode), and has called the library
    three times: [CaptionOntology] on [config['ontology']], [GroundedSAM]
    on the ontology of that mapping, and [label] once, with
    [config['data']['image']['image_dir']] as input folder and
    [config['data']['dataset_dir']] as output folder; the files it leaves
    are what that [label] made of the files [process_dataset] left. *)
Theorem main_success_calls (E : Env) (p : string) (w w' : world) :
  main E p w = (Ok tt, w') ->
  exists cfg it m i o wp,
    fst (load_config E p w) = Ok cfg
    /\ subscript2 cfg "data" "input_type" = Ok it
    /\ subscript cfg "ontology" = Ok m
    /\ subscript3 cfg "data" "image" "image_dir" = Ok i
    /\ subscript2 cfg "data" "dataset_dir" = Ok o
    /\ calls w' = (calls w ++ main_full it m i o)%list
    /\ List.filter (fun e => match e with LabelCall _ _ => true | _ => false end)
         (main_full it m i o) = [LabelCall i o]
    /\ process_dataset E it cfg (snd (load_config E p (add_call (Enter F_main) w)))
       = (Ok tt, wp)
    /\ caption_ontology_init E m = Ok tt
    /\ grounded_sam_init E m = Ok tt
    /\ grounded_sam_label E m i o (fs wp) = (Ok tt, fs w').
Proof.
  intros Hrun. pose proof (main_calls E p w) as MC. rewrite Hrun in MC.
  destruct MC as (t & it & m & i & o & Hcalls & _ & Hfull & Hpd & _ & Hauto).
  specialize (Hfull eq_refl). subst t.
  assert (Hin1 : In (Enter F_process_dataset) (main_full it m i o)).
  { unfold main_full, pd_full. simpl. auto. }
  assert (Hin2 : In (Enter F_auto_label_images) (main_full it m i o)).
  { unfold main_full, pd_full, auto_full.
    destruct (eq_str it "video"); simpl; tauto. }
  destruct (Hpd Hin1) as (cfg & Hload & Hit).
  destruct (Hauto Hin2) as (cfg' & Hload' & Hm & Hi & Ho).
  rewrite Hload in Hload'. inversion Hload'; subst cfg'.
  destruct (main_ok_run E p w w' Hrun)
    as (cfg1 & it1 & m1 & i1 & o1 & wp & wl & Hl1 & Hit1 & Hpd1 & Hm1 & Hi1
        & Ho1 & Hal & Hw').
  rewrite Hload in Hl1. inversion Hl1; subst cfg1.
  rewrite Hit in Hit1. inversion Hit1; subst it1.
  rewrite Hm in Hm1. inversion Hm1; subst m1.
  rewrite Hi in Hi1. inversion Hi1; subst i1.
  rewrite Ho in Ho1. inversion Ho1; subst o1.
  destruct (auto_label_ok E i o m wp wl Hal) as (Hc & Hg & Hlab).
  exists cfg, it, m, i, o, wp. repeat (split; [assumption|]).
  split; [unfold main_full, pd_full, auto_full;
          destruct (eq_str it "video"); reflexivity|].
  repeat (split; [assumption|]). subst w'. exact Hlab.
Qed.

Lemma main_success_calls_witness :
  List.filter (fun e => match e with LabelCall _ _ => true | _ => false end)
    (calls (snd (main Scenario.env "config.yaml" Scenario.world_with_images)))
  = [LabelCall (YStr "imgs") (YStr "out")].
Proof.
  destruct (main_success_calls Scenario.env "config.yaml" Scenario.world_with_images
              (snd (main Scenario.env "config.yaml" Scenario.world_with_images)))
    as (cfg & it & m & i & o & wp & Hload & _ & _ & Hi & Ho & Hcalls & Hlabel & _).
  - vm_compute. reflexivity.
  - vm_compute in Hload. inversion Hload; subst cfg.
    vm_compute in Hi. inversion Hi; subst i.
    vm_compute in Ho. inversion Ho; subst o.
    rewrite Hcalls. exact Hlabel.
Defined.

(** ** The files an extraction leaves *)

Lemma rstrip_sep_idem s :
  PosixPath.rstrip_sep (PosixPath.rstrip_sep s) = PosixPath.rstrip_sep s.
Proof.
  induction s as [|c r IH]; [reflexivity|]. simpl.
  destruct (PosixPath.is_empty (PosixPath.rstrip_sep r) && PosixPath.is_sep c) eqn:H;
    [reflexivity|].
  simpl. rewrite IH, H. reflexivity.
Qed.

Lemma rstrip_sep_app_sep s :
  PosixPath.rstrip_sep (s ++ "/") = PosixPath.rstrip_sep s.
Proof.
  induction s as [|c r IH]; [reflexivity|].
  change (String c r ++ "/") with (String c (r ++ "/")).
  simpl. rewrite IH. reflexivity.
Qed.

Lemma all_seps_app_sep s : PosixPath.all_seps (s ++ "/") = PosixPath.all_seps s.
Proof.
  induction s as [|c r IH]; [reflexivity|].
  change (String c r ++ "/") with (String c (r ++ "/")).
  simpl. rewrite IH. reflexivity.
Qed.

Lemma all_seps_ends_with_sep s :
  PosixPath.all_seps s = true -> PosixPath.is_empty s = false ->
  PosixPath.ends_with_sep s = true.
Proof.
  induction s as [|c r IH]; [discriminate|]. simpl. intros H _.
  apply andb_prop in H as [Hc Hr].
  destruct r as [|c' r']; [exact Hc|]. apply IH; [exact Hr | reflexivity].
Qed.

(** The directory part of [os.path.join(dir, f)] is [dir] again, up to
    trailing separators. *)
Lemma norm_dirname_join dir f :
  sep_free f = true -> PosixPath.is_empty dir = false ->
  Os.norm (PosixPath.dirname (PosixPath.join dir f)) = Os.norm dir.
Proof.
  intros Hf Hd. unfold PosixPath.join.
  rewrite (sep_free_no_leading_sep f Hf), Hd. simpl.
  assert (Hn : Os.norm (PosixPath.rstrip_sep dir) = PosixPath.rstrip_sep dir).
  { unfold Os.norm. rewrite rstrip_sep_idem.
    destruct (PosixPath.all_seps _); reflexivity. }
  destruct (PosixPath.ends_with_sep dir) eqn:Hs.
  - assert (Hsplit : PosixPath.split_last_sep (dir ++ f) = (dir, f)).
    { destruct (ends_with_sep_app dir Hs) as [d' ->].
      rewrite FormatFacts.app_assoc_string.
      change ("/" ++ f) with (String "/"%char f).
      apply split_last_sep_app. exact Hf. }
    unfold PosixPath.dirname. rewrite Hsplit. simpl. rewrite Hd. simpl.
    destruct (PosixPath.all_seps dir) eqn:Ha; simpl; [reflexivity|].
    rewrite Hn. unfold Os.norm. rewrite Ha. reflexivity.
  - assert (Ha : PosixPath.all_seps dir = false).
    { destruct (PosixPath.all_seps dir) eqn:Ha; [|reflexivity].
      rewrite (all_seps_ends_with_sep dir Ha Hd) in Hs. discriminate. }
    change ("/" ++ f) with (String "/"%char f).
    unfold PosixPath.dirname. rewrite (split_last_sep_app dir f Hf). simpl.
    rewrite all_seps_app_sep, Ha.
    assert (He : PosixPath.is_empty (dir ++ "/") = false)
      by (destruct dir; [discriminate | reflexivity]).
    rewrite He. simpl. rewrite rstrip_sep_app_sep, Hn.
    unfold Os.norm. rewrite Ha. reflexivity.
Qed.

Lemma ends_with_sep_app_r a f :
  PosixPath.is_empty f = false ->
  PosixPath.ends_with_sep (a ++ f) = PosixPath.ends_with_sep f.
Proof.
  intros Hf. induction a as [|c r IH]; [reflexivity|].
  change (String c r ++ f) with (String c (r ++ f)).
  simpl. destruct (r ++ f) as [|c' t] eqn:Ht.
  - apply (f_equal String.length) in Ht.
    rewrite FormatFacts.length_app_string in Ht.
    destruct f; [discriminate | simpl in Ht; lia].
  - exact IH.
Qed.

Lemma sep_free_ends_with_sep f :
  sep_free f = true -> PosixPath.ends_with_sep f = false.
Proof.
  induction f as [|c r IH]; [reflexivity|]. simpl. intros H.
  apply andb_prop in H as [Hc Hr]. apply negb_true_iff in Hc.
  destruct r; [exact Hc | exact (IH Hr)].
Qed.

Lemma digit_char_not_sep d :
  (d < 10)%N -> PosixPath.is_sep (Format.digit_char d) = false.
Proof.
  intros H.
  assert (Hd : (d = 0 \/ d = 1 \/ d = 2 \/ d = 3 \/ d = 4 \/ d = 5 \/ d = 6
                \/ d = 7 \/ d = 8 \/ d = 9)%N) by lia.
  repeat (destruct Hd as [->|Hd]; [reflexivity|]). subst d. reflexivity.
Qed.

Lemma decimal_go_sep_free fuel : forall n acc,
  sep_free acc = true -> sep_free (Format.decimal_go fuel n acc) = true.
Proof.
  induction fuel as [|f IH]; intros n acc Ha; cbn [Format.decimal_go]; [exact Ha|].
  assert (Hacc : sep_free (String (Format.digit_char (n mod 10)) acc) = true).
  { cbn [sep_free]. rewrite digit_char_not_sep by (apply N.mod_lt; lia). exact Ha. }
  destruct (n <? 10)%N; [exact Hacc | apply IH; exact Hacc].
Qed.

Lemma pad5_sep_free n : sep_free (Format.pad5 n) = true.
Proof.
  unfold Format.pad5, Format.zfill. apply sep_free_app.
  - generalize (5 - String.length (Format.decimal n))%nat. intros k.
    induction k as [|k IH]; [reflexivity | exact IH].
  - apply decimal_go_sep_free. reflexivity.
Qed.

Lemma frame_file_sep_free name n :
  sep_free name = true -> sep_free (frame_file name n) = true.
Proof.
  intros H. unfold frame_file. apply sep_free_app; [exact H|].
  apply (sep_free_app "-"); [reflexivity|].
  apply sep_free_app; [apply pad5_sep_free | reflexivity].
Qed.

Lemma split_last_sep_snd_free p :
  sep_free (snd (PosixPath.split_last_sep p)) = true.
Proof.
  induction p as [|c r IH]; [reflexivity|]. simpl.
  pose proof (split_last_sep_tail r) as T.
  destruct (PosixPath.split_last_sep r) as [h t]. simpl in IH.
  destruct T as [_ T].
  destruct (PosixPath.is_empty h) eqn:Hh; [|exact IH].
  rewrite (T eq_refl) in IH.
  destruct (PosixPath.is_sep c) eqn:Hc; simpl; [exact IH|].
  rewrite Hc. exact IH.
Qed.

Lemma sep_free_app_l a b : sep_free (a ++ b) = true -> sep_free a = true.
Proof.
  induction a as [|c r IH]; [reflexivity|].
  change (String c r ++ b) with (String c (r ++ b)). simpl. intros H.
  apply andb_prop in H as [Hc Hr]. rewrite Hc, (IH Hr). reflexivity.
Qed.

(** A video's name contains no separator. *)
Lemma video_name_sep_free p : sep_free (video_name_of p) = true.
Proof.
  unfold video_name_of, PosixPath.basename, PosixPath.splitext.
  pose proof (split_last_sep_snd_free p) as H.
  destruct (PosixPath.split_last_dot (snd (PosixPath.split_last_sep p)))
    as [[root ext]|] eqn:Hd; [|exact H].
  destruct (PosixPath.all_dots root); [exact H|]. simpl.
  apply split_last_dot_app in Hd. rewrite Hd in H. exact (sep_free_app_l _ _ H).
Qed.

(** [cv2.imwrite] into an existing directory, on a name that is no
    directory there, stores the encoded image. *)
Lemma imwrite_stores E dir f img w :
  sep_free f = true -> PosixPath.is_empty f = false ->
  Os.is_dir (fs w) dir = true ->
  fs w !! PosixPath.join dir f <> Some Dir ->
  fs (snd (Sv.imwrite E (PosixPath.join dir f) img w))
  = <[PosixPath.join dir f := File (png_encode E img)]> (fs w).
Proof.
  intros Hf Hne Hdir Hnd.
  assert (Hd : PosixPath.is_empty dir = false /\ fs w !! Os.norm dir = Some Dir).
  { unfold Os.is_dir, Os.stat in Hdir.
    destruct (PosixPath.is_empty dir); [discriminate|]. split; [reflexivity|].
    destruct (fs w !! Os.norm dir) as [[|c]|]; try discriminate; [reflexivity|].
    destruct (PosixPath.ends_with_sep dir); discriminate. }
  destruct Hd as [Hde Hdk].
  pose proof (norm_dirname_join dir f Hf Hde) as Hparent.
  assert (Hp : exists a, PosixPath.join dir f = a ++ f).
  { unfold PosixPath.join. rewrite (sep_free_no_leading_sep f Hf).
    destruct (PosixPath.is_empty dir || PosixPath.ends_with_sep dir).
    - exists dir. reflexivity.
    - exists (dir ++ "/"). rewrite FormatFacts.app_assoc_string. reflexivity. }
  destruct Hp as [a Hp].
  assert (He : PosixPath.is_empty (PosixPath.join dir f) = false).
  { rewrite Hp. destruct a; destruct f; try discriminate; reflexivity. }
  assert (Hs : PosixPath.ends_with_sep (PosixPath.join dir f) = false).
  { rewrite Hp, (ends_with_sep_app_r a f Hne). apply sep_free_ends_with_sep, Hf. }
  revert Hnd Hparent He Hs. generalize (PosixPath.join dir f). intros p Hnd Hparent He Hs.
  unfold Sv.imwrite, Os.create_file. simpl. rewrite He, Hs.
  assert (Hok : Os.parent_status (fs w) p = Ok tt).
  { unfold Os.parent_status. rewrite Hparent, Hdk.
    destruct (PosixPath.is_empty (PosixPath.dirname p)); reflexivity. }
  rewrite Hok. destruct (fs w !! p) as [[|c]|]; [contradiction | reflexivity ..].
Qed.

Lemma imwrite_other E p img k w :
  k <> p -> fs (snd (Sv.imwrite E p img w)) !! k = fs w !! k.
Proof.
  intros Hne. unfold Sv.imwrite.
  pose proof (create_file_other p (png_encode E img) k (add_imwrite p w) Hne) as H.
  destruct (Os.create_file _ _ _) as [[u|e] w2]; simpl in *; [exact H | reflexivity].
Qed.

Lemma save_frames_step E dir name img rest c w :
  Format.brace_free name = true ->
  save_frames E (Sv.MkImageSink (YStr dir) (name ++ "-{:05d}.png") c) (img :: rest) w
  = save_frames E (Sv.MkImageSink (YStr dir) (name ++ "-{:05d}.png") (c + 1)) rest
      (snd (Sv.imwrite E (PosixPath.join dir (frame_file name c)) img w)).
Proof.
  intros Hb. simpl save_frames. unfold bind at 1. unfold Sv.save_image. unfold_m. simpl.
  rewrite (FormatFacts.format_frame_pattern name c Hb).
  destruct (imwrite_run E (PosixPath.join dir (name ++ "-" ++ Format.pad5 c ++ ".png"))
              img w) as (w1 & Hrun & _).
  unfold frame_file. rewrite Hrun. reflexivity.
Qed.

Lemma save_frames_other E dir name frames k :
  Format.brace_free name = true ->
  forall (c : N) (w : world),
  ~ In k (frame_paths dir name c (length frames)) ->
  fs (snd (save_frames E (Sv.MkImageSink (YStr dir) (name ++ "-{:05d}.png") c)
             frames w)) !! k
  = fs w !! k.
Proof.
  intros Hb. induction frames as [|img rest IH]; intros c w Hk; [reflexivity|].
  rewrite (save_frames_step E dir name img rest c w Hb).
  simpl length in Hk. rewrite frame_paths_cons in Hk.
  rewrite IH by (intros H; apply Hk; right; exact H).
  apply imwrite_other. intros ->. apply Hk. left. reflexivity.
Qed.

(** The sink stores frame number [i] of its input under index [c + i]. *)
Lemma save_frames_stores E dir name frames :
  Format.brace_free name = true -> sep_free name = true ->
  forall (c : N) (w : world),
  Os.is_dir (fs w) dir = true ->
  (forall i, (i < length frames)%nat ->
     fs w !! PosixPath.join dir (frame_file name (c + N.of_nat i)) <> Some Dir) ->
  forall i img, nth_error frames i = Some img ->
  fs (snd (save_frames E (Sv.MkImageSink (YStr dir) (name ++ "-{:05d}.png") c)
             frames w)) !! PosixPath.join dir (frame_file name (c + N.of_nat i))
  = Some (File (png_encode E img)).
Proof.
  intros Hb Hs. induction frames as [|f rest IH]; intros c w Hdir Hnd i img Hi.
  - destruct i; discriminate.
  - rewrite (save_frames_step E dir name f rest c w Hb).
    assert (Hw : fs (snd (Sv.imwrite E (PosixPath.join dir (frame_file name c)) f w))
                 = <[PosixPath.join dir (frame_file name c) := File (png_encode E f)]>
                     (fs w)).
    { apply imwrite_stores; [apply frame_file_sep_free; exact Hs | | exact Hdir |].
      - unfold frame_file. destruct name; reflexivity.
      - specialize (Hnd 0%nat). rewrite N.add_0_r in Hnd. apply Hnd. simpl. lia. }
    pose proof (kept_imwrite E (PosixPath.join dir (frame_file name c)) f w) as K.
    revert Hw K. generalize (snd (Sv.imwrite E (PosixPath.join dir (frame_file name c)) f w)).
    intros w1 Hw K.
    destruct i as [|j].
    + simpl in Hi. inversion Hi; subst img. rewrite N.add_0_r.
      rewrite (save_frames_other E dir name rest _ Hb).
      * rewrite Hw. apply lookup_insert_eq.
      * pose proof (frame_paths_nodup dir name c (S (length rest)) Hb
                      (sep_free_no_leading_sep name Hs)) as ND.
        rewrite frame_paths_cons in ND. apply List.NoDup_cons_iff in ND.
        exact (proj1 ND).
    + replace (c + N.of_nat (S j))%N with (c + 1 + N.of_nat j)%N by lia.
      apply IH; [exact (kept_is_dir w w1 dir K Hdir) | | exact Hi].
      intros i' Hi'. rewrite Hw.
      destruct (decide (PosixPath.join dir (frame_file name c)
                        = PosixPath.join dir (frame_file name (c + 1 + N.of_nat i'))))
        as [Heq|Hne].
      * rewrite <- Heq, lookup_insert_eq. discriminate.
      * rewrite lookup_insert_ne by exact Hne.
        replace (c + 1 + N.of_nat i')%N with (c + N.of_nat (S i'))%N by lia.
        apply Hnd. simpl. lia.
Qed.

(** The generator yields every [S grabs]-th frame, the first one first. *)
Lemma sample_nth_error {A} (grabs : nat) (frames : list A) : forall skip i,
  nth_error (Sv.sample grabs skip frames) i
  = nth_error frames (skip + i * S grabs).
Proof.
  induction frames as [|f rest IH]; intros skip i.
  - cbn [Sv.sample]. destruct i; destruct (skip + _)%nat; reflexivity.
  - destruct skip as [|k]; cbn [Sv.sample].
    + destruct i as [|j]; [reflexivity|].
      replace (0 + S j * S grabs)%nat with (S (grabs + j * S grabs)) by lia.
      cbn [nth_error]. apply IH.
    + replace (S k + i * S grabs)%nat with (S (k + i * S grabs)) by lia.
      cbn [nth_error]. apply IH.
Qed.

(** X18: what one pass of the extraction loop leaves on disk.  For a
    decodable video file whose name has no brace, a stride [s >= 1] and an
    image directory that exists and holds no directory under a frame's
    name, the pass returns, and for every [i] with a frame number [i * s]
    in the video the file [<name>-<i, padded to five digits>.png] in the
    image directory holds the PNG encoding of that very frame: frames 0,
    s, 2s, ... are kept, in this order, and an older file of the same
    name is overwritten. *)
Theorem extracted_frames_stored (E : Env) (dir video_path content : string) (s : Z)
    (decoded : list image) (w : world) :
  Os.is_dir (fs w) dir = true ->
  Os.stat (fs w) video_path = Some (File content) ->
  video_decode E content = Some decoded ->
  Format.brace_free (video_name_of video_path) = true ->
  (1 <= s)%Z ->
  (forall i, (i < ceil_div (length decoded) (Z.to_nat s))%nat ->
     fs w !! PosixPath.join dir (frame_file (video_name_of video_path) (N.of_nat i))
     <> Some Dir) ->
  let (r, w') := extract_frames_from_video E (YStr dir) (YInt s) video_path w in
  r = Ok tt
  /\ forall i img, nth_error decoded (i * Z.to_nat s) = Some img ->
       fs w' !! PosixPath.join dir (frame_file (video_name_of video_path) (N.of_nat i))
       = Some (File (png_encode E img)).
Proof.
  intros Hdir Hstat Hdec Hb Hs Hnd.
  unfold extract_frames_from_video.
  assert (Henter : forall sink, Sv.target_dir_path sink = YStr dir ->
                                Sv.sink_enter sink w = (Ok tt, w)).
  { intros sink Ht. unfold Sv.sink_enter, bind, Os.path_exists. rewrite Ht.
    unfold Os.is_dir in Hdir.
    destruct (Os.stat (fs w) dir) as [[|c0]|] eqn:Hst; try discriminate.
    rewrite bool_decide_eq_true_2 by eauto. reflexivity. }
  unfold bind at 1.
  rewrite (Henter (Sv.MkImageSink (YStr dir)
                     (video_name_of video_path ++ "-{:05d}.png") 0) eq_refl).
  unfold bind at 1. unfold Sv.open_video. rewrite Hstat, Hdec.
  destruct (frames_generator_count s decoded Hs) as [Hgen Hlen]. rewrite Hgen.
  pose proof (save_frames_stores E dir (video_name_of video_path)
                (Sv.sample (Z.to_nat (s - 1)) 0 decoded) Hb
                (video_name_sep_free video_path) 0%N w Hdir) as St.
  destruct (save_frames_imwrites E dir (video_name_of video_path)
              (Sv.sample (Z.to_nat (s - 1)) 0 decoded) Hb 0%N w)
    as (sink' & w2 & Hrun & _).
  unfold bind. rewrite Hrun in St |- *. simpl in St |- *.
  split; [reflexivity|]. intros i img Hi. apply St.
  - intros i' Hi'. rewrite Hlen in Hi'. exact (Hnd i' Hi').
  - rewrite sample_nth_error. simpl.
    replace (S (Z.to_nat (s - 1))) with (Z.to_nat s) by lia. exact Hi.
Qed.

Lemma extracted_frames_stored_witness :
  fs (snd (extract_frames_from_video Scenario.env (YStr "out") (YInt 2) "videos/v.mp4"
             (Scenario.extraction_world "videos/v.mp4" "VID")))
    !! "out/v-00001.png"
  = Some (File "png:f2").
Proof.
  assert (Hnd : forall i, (i < ceil_div (length Scenario.five_frames) (Z.to_nat 2))%nat ->
            fs (Scenario.extraction_world "videos/v.mp4" "VID")
              !! PosixPath.join "out"
                   (frame_file (video_name_of "videos/v.mp4") (N.of_nat i))
            <> Some Dir).
  { intros i Hi. change (ceil_div _ _) with 3%nat in Hi.
    destruct i as [|[|[|i]]]; [| | | lia]; intros H; vm_compute in H; discriminate H. }
  pose proof (extracted_frames_stored Scenario.env "out" "videos/v.mp4" "VID" 2
                Scenario.five_frames (Scenario.extraction_world "videos/v.mp4" "VID")
                eq_refl eq_refl eq_refl eq_refl ltac:(lia) Hnd) as H.
  destruct (extract_frames_from_video _ _ _ _ _) as [r w'].
  destruct H as [_ H]. exact (H 1%nat "f2" eq_refl).
Defined.

(** ** A video directory without videos *)

Lemma filter_all_false {A} (f : A -> bool) (l : list A) :
  (forall x, In x l -> f x = false) -> List.filter f l = [].
Proof.
  induction l as [|x l IH]; intros H; [reflexivity|].
  simpl. rewrite (H x (or_introl eq_refl)). apply IH.
  intros y Hy. apply H. right. exact Hy.
Qed.

Lemma lower_length s : String.length (lower s) = String.length s.
Proof. induction s as [|c r IH]; simpl; [reflexivity | rewrite IH; reflexivity]. Qed.

Lemma substring_lower s : forall n m,
  String.substring n m (lower s) = lower (String.substring n m s).
Proof.
  induction s as [|c r IH]; intros n m.
  - destruct n, m; reflexivity.
  - destruct n as [|n]; destruct m as [|m]; simpl; try reflexivity;
      try apply IH.
    rewrite IH. reflexivity.
Qed.

(** A name that ends in a lower-case suffix keeps it in lower case. *)
Lemma ends_with_lower suffix name :
  lower suffix = suffix ->
  PosixPath.ends_with suffix name = true ->
  PosixPath.ends_with suffix (lower name) = true.
Proof.
  unfold PosixPath.ends_with. intros Hs H.
  apply andb_prop in H as [Hlen Heq]. apply String.eqb_eq in Heq.
  rewrite lower_length, Hlen, substring_lower, Heq, Hs. simpl.
  apply String.eqb_refl.
Qed.

Lemma glob_suffix_none (m : gmap string node) (d suffix : string) :
  (forall name, sep_free name = true ->
                is_Some (m !! PosixPath.join (Os.norm d) name) ->
                PosixPath.ends_with suffix name = false) ->
  Sv.glob_suffix m d suffix = [].
Proof.
  intros H. unfold Sv.glob_suffix. apply filter_all_false.
  intros p Hin. apply List.in_map_iff in Hin. destruct Hin as ([q v] & Hq & Hin).
  simpl in Hq. subst q. apply list_elem_of_In in Hin.
  apply elem_of_map_to_list in Hin.
  unfold Sv.child_with_suffix.
  destruct (negb (PosixPath.is_empty (PosixPath.basename p))); [|reflexivity].
  destruct (String.eqb_spec p (PosixPath.join (Os.norm d) (PosixPath.basename p)))
    as [Heq|Hne]; [|reflexivity].
  simpl. apply H; [apply split_last_sep_snd_free|]. rewrite <- Heq, Hin. eauto.
Qed.

(** X11: a video directory in which no entry is named like a video --
    no name directly in it ends in [.mov] or [.mp4], in any letter case --
    makes [extract_frames_from_videos] a no-op: it returns, writes nothing
    and creates nothing, not even the image directory.  Entries further
    down, and entries elsewhere, do not matter.  (The directory is taken
    to exist, as it does when [process_dataset] calls the function: what
    the listing does with a missing directory differs between releases of
    supervision, as does the letter case it accepts.) *)
Theorem extract_without_videos (E : Env) (d : string) (image_dir stride : yaml)
    (w : world) :
  Os.is_dir (fs w) d = true ->
  (forall name, sep_free name = true ->
                is_Some (fs w !! PosixPath.join (Os.norm d) name) ->
                video_named name = false) ->
  extract_frames_from_videos E (YStr d) image_dir stride w
  = (Ok tt,
     add_call (Leave F_extract_frames_from_videos)
       (add_call (Enter F_extract_frames_from_videos) w)).
Proof.
  intros _ H. unfold extract_frames_from_videos, Sv.list_files_with_extensions.
  unfold_m. simpl.
  change ("." ++ "mov") with ".mov". change ("." ++ "mp4") with ".mp4".
  assert (Hmov : forall name, sep_free name = true ->
            is_Some (fs w !! PosixPath.join (Os.norm d) name) ->
            PosixPath.ends_with ".mov" name = false).
  { intros name Hs Hn. specialize (H name Hs Hn). unfold video_named in H.
    apply orb_false_elim in H as [H _].
    destruct (PosixPath.ends_with ".mov" name) eqn:He; [|reflexivity].
    rewrite (ends_with_lower ".mov" name eq_refl He) in H. discriminate. }
  assert (Hmp4 : forall name, sep_free name = true ->
            is_Some (fs w !! PosixPath.join (Os.norm d) name) ->
            PosixPath.ends_with ".mp4" name = false).
  { intros name Hs Hn. specialize (H name Hs Hn). unfold video_named in H.
    apply orb_false_elim in H as [_ H].
    destruct (PosixPath.ends_with ".mp4" name) eqn:He; [|reflexivity].
    rewrite (ends_with_lower ".mp4" name eq_refl He) in H. discriminate. }
  rewrite (glob_suffix_none (fs w) d ".mov" Hmov).
  rewrite (glob_suffix_none (fs w) d ".mp4" Hmp4).
  reflexivity.
Qed.

Lemma extract_without_videos_witness :
  let w := Scenario.world_of {["videos" := Dir; "videos/notes.txt" := File "text";
                               "videos/raw" := Dir;
                               "videos/raw/b.mp4" := File "VID";
                               "elsewhere/c.mp4" := File "VID"]} in
  extract_frames_from_videos Scenario.env (YStr "videos") (YStr "out") (YInt 2) w
  = (Ok tt,
     add_call (Leave F_extract_frames_from_videos)
       (add_call (Enter F_extract_frames_from_videos) w)).
Proof.
  cbv zeta. apply extract_without_videos; [vm_compute; reflexivity|].
  intros name Hs [v Hv].
  change (Os.norm "videos") with "videos" in Hv. unfold PosixPath.join in Hv.
  rewrite (sep_free_no_leading_sep name Hs) in Hv.
  apply elem_of_map_to_list in Hv. vm_compute in Hv.
  repeat (apply elem_of_cons in Hv as [Hv|Hv]);
    try (apply elem_of_nil in Hv; destruct Hv);
    inversion Hv; subst; try reflexivity; try discriminate Hs.
Defined.
